(** * Timestamp Camera: a shallow embedding of the app logic

    The repository ships two near-identical builds of the app logic:
    [src/unnamed/part_000] (torch control, timestamp burned in at capture
    only) and [src/unnamed/part_001] (live timestamp overlay on the
    viewfinder).  Functions that differ between the two take the [Build]
    as an argument; everything else is shared.

    Conventions of the embedding:
    - JavaScript integers are [Z]; a [Date] is its time value, [None]
      standing for the NaN time value of an invalid date;
    - JavaScript strings are [string] (code units restricted to 8 bits);
    - module-level [let] variables, the DOM elements the code touches,
      [localStorage] and the console are fields of [State];
    - browser built-ins whose behaviour is not fixed by the source
      (time-zone offset, [Date] parsing, [JSON], float rounding, input
      sanitisation) are the fields of the [Platform] class;
    - an asynchronous step ([getUserMedia], [toBlob], [navigator.share],
      [applyConstraints]) takes the way it settles as an argument and
      runs its continuation in place;
    - the listeners that [init] registers and the timers it starts are
      the [Event]s of a [Page], handled one after the other;
    - the service worker [src/sw.js] is embedded in [ServiceWorker], over
      a cache storage and a network. *)

From Stdlib Require Import ZArith Lia Bool Ascii.
From Stdlib Require String.
From stdpp Require Import gmap strings.

Local Open Scope Z_scope.

(** ** ECMAScript time values (ECMA-262, "Time Values and Time Range") *)

Module Time.

Definition msPerSecond : Z := 1000.
Definition msPerMinute : Z := 60000.
Definition msPerHour : Z := 3600000.
Definition msPerDay : Z := 86400000.

Definition Day (t : Z) : Z := t / msPerDay.
Definition TimeWithinDay (t : Z) : Z := t mod msPerDay.

Definition DaysInYear (y : Z) : Z :=
  if negb (y mod 4 =? 0) then 365
  else if negb (y mod 100 =? 0) then 366
  else if negb (y mod 400 =? 0) then 365
  else 366.

Definition DayFromYear (y : Z) : Z :=
  365 * (y - 1970) + (y - 1969) / 4 - (y - 1901) / 100 + (y - 1601) / 400.

Definition TimeFromYear (y : Z) : Z := msPerDay * DayFromYear y.

(** ECMA-262 defines [YearFromTime t] as the largest [y] with
    [TimeFromYear y <= t].  The executable form below starts from the
    mean-year estimate and corrects it by at most one year;
    [YearFromTime_spec] proves that it meets the defining property. *)
Definition YearFromTime (t : Z) : Z :=
  let d := Day t in
  let y0 := 1970 + (400 * d) / 146097 in
  if d <? DayFromYear y0 then y0 - 1
  else if DayFromYear (y0 + 1) <=? d then y0 + 1
  else y0.

Definition InLeapYear (t : Z) : Z :=
  if DaysInYear (YearFromTime t) =? 366 then 1 else 0.

Definition DayWithinYear (t : Z) : Z := Day t - DayFromYear (YearFromTime t).

Definition MonthFromTime (t : Z) : Z :=
  let d := DayWithinYear t in
  let l := InLeapYear t in
  if d <? 31 then 0
  else if d <? 59 + l then 1
  else if d <? 90 + l then 2
  else if d <? 120 + l then 3
  else if d <? 151 + l then 4
  else if d <? 181 + l then 5
  else if d <? 212 + l then 6
  else if d <? 243 + l then 7
  else if d <? 273 + l then 8
  else if d <? 304 + l then 9
  else if d <? 334 + l then 10
  else 11.

Definition DateFromTime (t : Z) : Z :=
  let d := DayWithinYear t in
  let l := InLeapYear t in
  match MonthFromTime t with
  | 0 => d + 1
  | 1 => d - 30
  | 2 => d - 58 - l
  | 3 => d - 89 - l
  | 4 => d - 119 - l
  | 5 => d - 150 - l
  | 6 => d - 180 - l
  | 7 => d - 211 - l
  | 8 => d - 242 - l
  | 9 => d - 272 - l
  | 10 => d - 303 - l
  | _ => d - 333 - l
  end.

Definition HourFromTime (t : Z) : Z := (t / msPerHour) mod 24.
Definition MinFromTime (t : Z) : Z := (t / msPerMinute) mod 60.
Definition SecFromTime (t : Z) : Z := (t / msPerSecond) mod 60.

End Time.

(** ** JavaScript values and string built-ins *)

(** A Number by a decimal [m * 10 ^ e] of the same value; the sign of
    zero is not kept (no code below observes it). *)
Inductive Number :=
| NaN
| Infinity (negative : bool)
| Finite (m e : Z).

#[warnings="-register-all"]
Inductive JSValue :=
| JUndefined
| JNull
| JBool (b : bool)
| JNumber (n : Number)
| JString (s : string)
| JArray (items : list JSValue)
| JObject (props : list (string * JSValue)).

(** ToBoolean. *)
Definition truthy (v : JSValue) : bool :=
  match v with
  | JUndefined | JNull => false
  | JBool b => b
  | JNumber NaN => false
  | JNumber (Infinity _) => true
  | JNumber (Finite m _) => negb (m =? 0)
  | JString s => negb (String.eqb s "")
  | JArray _ | JObject _ => true
  end.

(** [String(n)] for an integer Number [n]. *)
Definition digitChar (d : Z) : ascii := ascii_of_N (48 + Z.to_N d).

Fixpoint decimalDigits (fuel : nat) (n : Z) (acc : string) : string :=
  match fuel with
  | O => acc
  | S fuel' =>
      let acc' := String (digitChar (n mod 10)) acc in
      if n <? 10 then acc' else decimalDigits fuel' (n / 10) acc'
  end.

Definition String_of_int (n : Z) : string :=
  if n <? 0
  then String "-" (decimalDigits (S (Z.to_nat (Z.log2 (- n)))) (- n) "")
  else decimalDigits (S (Z.to_nat (Z.log2 n))) n "".

(** [String.prototype.padStart]: the filler is [padString] repeated and cut
    to the missing length; an empty [padString] pads nothing. *)
Fixpoint padFill (n : nat) (padString cur : string) : string :=
  match n with
  | O => ""
  | S n' =>
      match cur with
      | String c rest => String c (padFill n' padString rest)
      | EmptyString =>
          match padString with
          | String c rest => String c (padFill n' padString rest)
          | EmptyString => ""
          end
      end
  end.

Definition padStart (s : string) (targetLength : nat) (padString : string) : string :=
  padFill (targetLength - String.length s) padString padString +:+ s.

(** ** Exceptions *)

Record JSError := { err_name : string; err_message : string }.

(** ** The browser built-ins the source leaves open *)

(** A [Date] object by its time value; [None] is the NaN of an invalid date. *)
Definition Date := option Z.

(** A decimal literal of the source, kept exact. *)
Record Decimal := { numerator : Z; denominator : Z }.

Class Platform := {
  (** offset of local time from UTC at time value [t], in milliseconds *)
  LocalTZA : Z -> Z;
  (** [new Date(value)]: parsing of date strings is implementation-defined *)
  Date_new : JSValue -> Date;
  (** [JSON.parse]: [inr e] is the thrown SyntaxError *)
  JSON_parse : string -> JSValue + JSError;
  JSON_stringify : JSValue -> string;
  (** [Math.round(n * c)] in double arithmetic, [c] a decimal literal *)
  Math_round_mul : Z -> Decimal -> Z;
  (** the value an [<input>] holds after [input.value = v] (the markup
      that fixes the input's type, hence its sanitisation, is not part
      of the sources) *)
  input_value_set : JSValue -> string
}.

Section DateGetters.
Context `{Platform}.

Definition LocalTime (t : Z) : Z := t + LocalTZA t.

Definition getFullYear (t : Z) : Z := Time.YearFromTime (LocalTime t).
Definition getMonth (t : Z) : Z := Time.MonthFromTime (LocalTime t).
Definition getDate (t : Z) : Z := Time.DateFromTime (LocalTime t).
Definition getHours (t : Z) : Z := Time.HourFromTime (LocalTime t).
Definition getMinutes (t : Z) : Z := Time.MinFromTime (LocalTime t).
Definition getSeconds (t : Z) : Z := Time.SecFromTime (LocalTime t).

End DateGetters.

(** ** The two builds *)

Inductive Build :=
| TorchBuild        (* src/unnamed/part_000 *)
| LiveOverlayBuild. (* src/unnamed/part_001 *)

Section Timestamp.
Context `{Platform}.

(** [formatDateTime(d)]: [isNaN(d.getTime())] holds exactly for [None]. *)
Definition formatDateTime (b : Build) (d : Date) : string :=
  match d with
  | None => ""
  | Some t =>
      match b with
      | TorchBuild =>
          let day := padStart (String_of_int (getDate t)) 2 "0" in
          let month := padStart (String_of_int (getMonth t + 1)) 2 "0" in
          let year := getFullYear t in
          let hours := padStart (String_of_int (getHours t)) 2 "0" in
          let minutes := padStart (String_of_int (getMinutes t)) 2 "0" in
          day +:+ "/" +:+ month +:+ "/" +:+ String_of_int year +:+ " " +:+
          hours +:+ ":" +:+ minutes
      | LiveOverlayBuild =>
          let year := getFullYear t in
          let month := padStart (String_of_int (getMonth t + 1)) 2 "0" in
          let day := padStart (String_of_int (getDate t)) 2 "0" in
          let hours := padStart (String_of_int (getHours t)) 2 "0" in
          let minutes := padStart (String_of_int (getMinutes t)) 2 "0" in
          let seconds := padStart (String_of_int (getSeconds t)) 2 "0" in
          String_of_int year +:+ "-" +:+ month +:+ "-" +:+ day +:+ " " +:+
          hours +:+ ":" +:+ minutes +:+ ":" +:+ seconds
      end
  end.

Definition toLocalISOString (t : Z) : string :=
  let year := getFullYear t in
  let month := padStart (String_of_int (getMonth t + 1)) 2 "0" in
  let day := padStart (String_of_int (getDate t)) 2 "0" in
  let hours := padStart (String_of_int (getHours t)) 2 "0" in
  let minutes := padStart (String_of_int (getMinutes t)) 2 "0" in
  String_of_int year +:+ "-" +:+ month +:+ "-" +:+ day +:+ "T" +:+
  hours +:+ ":" +:+ minutes.

End Timestamp.

(** ** The 2D canvas *)

(** Current transformation matrix: a user-space point [(x, y)] is drawn at
    [(a x + c y + e, b x + d y + f)]. *)
Record Matrix := { m_a : Z; m_b : Z; m_c : Z; m_d : Z; m_e : Z; m_f : Z }.

Definition identityMatrix : Matrix :=
  {| m_a := 1; m_b := 0; m_c := 0; m_d := 1; m_e := 0; m_f := 0 |}.

Definition applyMatrix (m : Matrix) (p : Z * Z) : Z * Z :=
  (m_a m * fst p + m_c m * snd p + m_e m, m_b m * fst p + m_d m * snd p + m_f m).

Definition determinant (m : Matrix) : Z := m_a m * m_d m - m_b m * m_c m.

(** Each transformation call multiplies the current matrix on the right. *)
Definition translateMatrix (tx ty : Z) (m : Matrix) : Matrix :=
  {| m_a := m_a m; m_b := m_b m; m_c := m_c m; m_d := m_d m;
     m_e := m_a m * tx + m_c m * ty + m_e m;
     m_f := m_b m * tx + m_d m * ty + m_f m |}.

Definition scaleMatrix (sx sy : Z) (m : Matrix) : Matrix :=
  {| m_a := m_a m * sx; m_b := m_b m * sx; m_c := m_c m * sy; m_d := m_d m * sy;
     m_e := m_e m; m_f := m_f m |}.

(** [rotate(Math.PI / 2)], taken as the exact quarter turn (cos 0, sin 1). *)
Definition rotateQuarterMatrix (m : Matrix) : Matrix :=
  {| m_a := m_c m; m_b := m_d m; m_c := - m_a m; m_d := - m_b m;
     m_e := m_e m; m_f := m_f m |}.

(** The drawing state that [save] pushes and [restore] pops. *)
Record DrawingState := {
  ctm : Matrix;
  font : string;
  fillStyle : string;
  shadowColor : string;
  shadowBlur : Z;
  shadowOffsetX : Z;
  shadowOffsetY : Z;
  textAlign : string;
  textBaseline : string
}.

Definition defaultDrawingState : DrawingState :=
  {| ctm := identityMatrix; font := "10px sans-serif"; fillStyle := "#000000";
     shadowColor := "rgba(0, 0, 0, 0)"; shadowBlur := 0;
     shadowOffsetX := 0; shadowOffsetY := 0;
     textAlign := "start"; textBaseline := "alphabetic" |}.

Definition with_ctm (f : Matrix -> Matrix) (d : DrawingState) : DrawingState :=
  {| ctm := f (ctm d); font := font d; fillStyle := fillStyle d;
     shadowColor := shadowColor d; shadowBlur := shadowBlur d;
     shadowOffsetX := shadowOffsetX d; shadowOffsetY := shadowOffsetY d;
     textAlign := textAlign d; textBaseline := textBaseline d |}.

(** What a drawing call puts on the bitmap, with the state it was issued in. *)
Inductive DrawOp :=
| DrawVideo (st : DrawingState) (dx dy dw dh : Z)
| FillText (st : DrawingState) (text : string) (x y : Z).

Record Canvas := {
  canvas_width : Z;
  canvas_height : Z;
  ctx : DrawingState;
  ctx_stack : list DrawingState;
  bitmap : list DrawOp
}.

(** Assigning [canvas.width] or [canvas.height] clears the bitmap and
    resets the context. *)
Definition canvas_set_width (w : Z) (c : Canvas) : Canvas :=
  {| canvas_width := w; canvas_height := canvas_height c;
     ctx := defaultDrawingState; ctx_stack := []; bitmap := [] |}.

Definition canvas_set_height (h : Z) (c : Canvas) : Canvas :=
  {| canvas_width := canvas_width c; canvas_height := h;
     ctx := defaultDrawingState; ctx_stack := []; bitmap := [] |}.

Definition with_ctx (f : DrawingState -> DrawingState) (c : Canvas) : Canvas :=
  {| canvas_width := canvas_width c; canvas_height := canvas_height c;
     ctx := f (ctx c); ctx_stack := ctx_stack c; bitmap := bitmap c |}.

Definition ctx_save (c : Canvas) : Canvas :=
  {| canvas_width := canvas_width c; canvas_height := canvas_height c;
     ctx := ctx c; ctx_stack := ctx c :: ctx_stack c; bitmap := bitmap c |}.

Definition ctx_restore (c : Canvas) : Canvas :=
  match ctx_stack c with
  | [] => c
  | d :: rest =>
      {| canvas_width := canvas_width c; canvas_height := canvas_height c;
         ctx := d; ctx_stack := rest; bitmap := bitmap c |}
  end.

Definition ctx_translate (tx ty : Z) : Canvas -> Canvas :=
  with_ctx (with_ctm (translateMatrix tx ty)).
Definition ctx_scale (sx sy : Z) : Canvas -> Canvas :=
  with_ctx (with_ctm (scaleMatrix sx sy)).
Definition ctx_rotate_half_pi : Canvas -> Canvas :=
  with_ctx (with_ctm rotateQuarterMatrix).

Definition ctx_draw (op : DrawingState -> DrawOp) (c : Canvas) : Canvas :=
  {| canvas_width := canvas_width c; canvas_height := canvas_height c;
     ctx := ctx c; ctx_stack := ctx_stack c;
     bitmap := bitmap c ++ [op (ctx c)] |}.

Definition ctx_drawImage (dx dy dw dh : Z) : Canvas -> Canvas :=
  ctx_draw (fun st => DrawVideo st dx dy dw dh).
Definition ctx_fillText (text : string) (x y : Z) : Canvas -> Canvas :=
  ctx_draw (fun st => FillText st text x y).

(** The text settings [capturePhoto] assigns before [fillText]. *)
Definition ctx_set_text_style
    (fnt fill shadow : string) (blur offX offY : Z) (align baseline : string)
    : Canvas -> Canvas :=
  with_ctx (fun d =>
    {| ctm := ctm d; font := fnt; fillStyle := fill; shadowColor := shadow;
       shadowBlur := blur; shadowOffsetX := offX; shadowOffsetY := offY;
       textAlign := align; textBaseline := baseline |}).

(** A blob from [canvas.toBlob]: the encoder's parameters and what it saw. *)
Record Blob := {
  blob_type : string;
  blob_quality : Decimal;
  blob_width : Z;
  blob_height : Z;
  blob_image : list DrawOp
}.

(** ** Application state *)

Inductive FacingMode :=
| environment  (* rear camera *)
| user.        (* front camera *)

Inductive TorchCapability :=
| CapabilitiesThrow  (* [track.getCapabilities] is missing and throws *)
| NoTorch
| HasTorch.

(** A media stream; [videoTrack] is [getVideoTracks()[0]]. *)
Record MediaStream := { stream_id : Z; videoTrack : option TorchCapability }.

(** The listener [() => { startCamera(); }] that [showCameraOverlay] adds. *)
Inductive Listener := CallStartCamera.

Record RetryButton := { button_text : string; click_listeners : list Listener }.

(** The [#cameraOverlay] panel. *)
Record Overlay := {
  overlay_title : string;
  overlay_message : string;
  cameraRetryBtn : option RetryButton
}.

(** The [#timestampOverlay] element of the live-overlay build. *)
Record OverlayText := { textContent : string; style_display : string }.

(** The flash button: [dimmed] is opacity 0.35 with pointer events off,
    [flash_active] the [flash-active] class with the icon filled. *)
Record FlashUI := { dimmed : bool; flash_active : bool }.

(** [localStorage]: [access_denied] makes every access throw,
    [quota_exceeded] makes [setItem] throw. *)
Record Storage := {
  stored : gmap string string;
  access_denied : bool;
  quota_exceeded : bool
}.

(** The module-level [let] variables. *)
Record Vars := {
  facingMode : FacingMode;
  currentStream : option MediaStream;
  timestampEnabled : bool;
  timestampMode : string;
  customDateTime : JSValue;
  capturedBlob : option Blob;
  flashOn : bool;
  torchSupported : bool
}.

(** The DOM properties the code reads or writes. *)
Record Dom := {
  video_videoWidth : Z;
  video_videoHeight : Z;
  video_srcObject : option MediaStream;
  window_innerWidth : Z;
  window_innerHeight : Z;
  timestampToggle_checked : bool;
  timeMode_value : string;
  customTimeRow_hidden : bool;
  customTimeInput_value : string;
  captureCanvas : Canvas;
  previewImg_src : string;
  previewOverlay_hidden : bool;
  cameraOverlay : option Overlay;
  timestampOverlay : OverlayText;
  flashBtn : FlashUI
}.

(** What the browser keeps for the page. *)
Record Host := {
  localStorage : Storage;
  console_errors : list (string * JSError);
  objectURLs : gmap string Blob;
  objectURL_count : Z;
  stoppedStreams : list MediaStream;
  navigator_share : bool
}.

Record State := { vars : Vars; dom : Dom; host : Host }.

Definition with_vars (f : Vars -> Vars) (s : State) : State :=
  {| vars := f (vars s); dom := dom s; host := host s |}.
Definition with_dom (f : Dom -> Dom) (s : State) : State :=
  {| vars := vars s; dom := f (dom s); host := host s |}.
Definition with_host (f : Host -> Host) (s : State) : State :=
  {| vars := vars s; dom := dom s; host := f (host s) |}.

Definition set_facingMode (v : FacingMode) : State -> State :=
  with_vars (fun r =>
    {| facingMode := v; currentStream := currentStream r;
       timestampEnabled := timestampEnabled r;
       timestampMode := timestampMode r; customDateTime := customDateTime r;
       capturedBlob := capturedBlob r; flashOn := flashOn r;
       torchSupported := torchSupported r |}).

Definition set_currentStream (v : option MediaStream) : State -> State :=
  with_vars (fun r =>
    {| facingMode := facingMode r; currentStream := v;
       timestampEnabled := timestampEnabled r;
       timestampMode := timestampMode r; customDateTime := customDateTime r;
       capturedBlob := capturedBlob r; flashOn := flashOn r;
       torchSupported := torchSupported r |}).

Definition set_timestampEnabled (v : bool) : State -> State :=
  with_vars (fun r =>
    {| facingMode := facingMode r; currentStream := currentStream r;
       timestampEnabled := v; timestampMode := timestampMode r;
       customDateTime := customDateTime r; capturedBlob := capturedBlob r;
       flashOn := flashOn r; torchSupported := torchSupported r |}).

Definition set_timestampMode (v : string) : State -> State :=
  with_vars (fun r =>
    {| facingMode := facingMode r; currentStream := currentStream r;
       timestampEnabled := timestampEnabled r; timestampMode := v;
       customDateTime := customDateTime r; capturedBlob := capturedBlob r;
       flashOn := flashOn r; torchSupported := torchSupported r |}).

Definition set_customDateTime (v : JSValue) : State -> State :=
  with_vars (fun r =>
    {| facingMode := facingMode r; currentStream := currentStream r;
       timestampEnabled := timestampEnabled r;
       timestampMode := timestampMode r; customDateTime := v;
       capturedBlob := capturedBlob r; flashOn := flashOn r;
       torchSupported := torchSupported r |}).

Definition set_capturedBlob (v : option Blob) : State -> State :=
  with_vars (fun r =>
    {| facingMode := facingMode r; currentStream := currentStream r;
       timestampEnabled := timestampEnabled r;
       timestampMode := timestampMode r; customDateTime := customDateTime r;
       capturedBlob := v; flashOn := flashOn r;
       torchSupported := torchSupported r |}).

Definition set_flashOn (v : bool) : State -> State :=
  with_vars (fun r =>
    {| facingMode := facingMode r; currentStream := currentStream r;
       timestampEnabled := timestampEnabled r;
       timestampMode := timestampMode r; customDateTime := customDateTime r;
       capturedBlob := capturedBlob r; flashOn := v;
       torchSupported := torchSupported r |}).

Definition set_torchSupported (v : bool) : State -> State :=
  with_vars (fun r =>
    {| facingMode := facingMode r; currentStream := currentStream r;
       timestampEnabled := timestampEnabled r;
       timestampMode := timestampMode r; customDateTime := customDateTime r;
       capturedBlob := capturedBlob r; flashOn := flashOn r;
       torchSupported := v |}).

Definition set_video_srcObject (v : option MediaStream) : State -> State :=
  with_dom (fun r =>
    {| video_videoWidth := video_videoWidth r;
       video_videoHeight := video_videoHeight r; video_srcObject := v;
       window_innerWidth := window_innerWidth r;
       window_innerHeight := window_innerHeight r;
       timestampToggle_checked := timestampToggle_checked r;
       timeMode_value := timeMode_value r;
       customTimeRow_hidden := customTimeRow_hidden r;
       customTimeInput_value := customTimeInput_value r;
       captureCanvas := captureCanvas r; previewImg_src := previewImg_src r;
       previewOverlay_hidden := previewOverlay_hidden r;
       cameraOverlay := cameraOverlay r;
       timestampOverlay := timestampOverlay r; flashBtn := flashBtn r |}).

Definition set_timestampToggle_checked (v : bool) : State -> State :=
  with_dom (fun r =>
    {| video_videoWidth := video_videoWidth r;
       video_videoHeight := video_videoHeight r;
       video_srcObject := video_srcObject r;
       window_innerWidth := window_innerWidth r;
       window_innerHeight := window_innerHeight r;
       timestampToggle_checked := v; timeMode_value := timeMode_value r;
       customTimeRow_hidden := customTimeRow_hidden r;
       customTimeInput_value := customTimeInput_value r;
       captureCanvas := captureCanvas r; previewImg_src := previewImg_src r;
       previewOverlay_hidden := previewOverlay_hidden r;
       cameraOverlay := cameraOverlay r;
       timestampOverlay := timestampOverlay r; flashBtn := flashBtn r |}).

Definition set_timeMode_value (v : string) : State -> State :=
  with_dom (fun r =>
    {| video_videoWidth := video_videoWidth r;
       video_videoHeight := video_videoHeight r;
       video_srcObject := video_srcObject r;
       window_innerWidth := window_innerWidth r;
       window_innerHeight := window_innerHeight r;
       timestampToggle_checked := timestampToggle_checked r;
       timeMode_value := v; customTimeRow_hidden := customTimeRow_hidden r;
       customTimeInput_value := customTimeInput_value r;
       captureCanvas := captureCanvas r; previewImg_src := previewImg_src r;
       previewOverlay_hidden := previewOverlay_hidden r;
       cameraOverlay := cameraOverlay r;
       timestampOverlay := timestampOverlay r; flashBtn := flashBtn r |}).

Definition set_customTimeRow_hidden (v : bool) : State -> State :=
  with_dom (fun r =>
    {| video_videoWidth := video_videoWidth r;
       video_videoHeight := video_videoHeight r;
       video_srcObject := video_srcObject r;
       window_innerWidth := window_innerWidth r;
       window_innerHeight := window_innerHeight r;
       timestampToggle_checked := timestampToggle_checked r;
       timeMode_value := timeMode_value r; customTimeRow_hidden := v;
       customTimeInput_value := customTimeInput_value r;
       captureCanvas := captureCanvas r; previewImg_src := previewImg_src r;
       previewOverlay_hidden := previewOverlay_hidden r;
       cameraOverlay := cameraOverlay r;
       timestampOverlay := timestampOverlay r; flashBtn := flashBtn r |}).

Definition set_customTimeInput_value (v : string) : State -> State :=
  with_dom (fun r =>
    {| video_videoWidth := video_videoWidth r;
       video_videoHeight := video_videoHeight r;
       video_srcObject := video_srcObject r;
       window_innerWidth := window_innerWidth r;
       window_innerHeight := window_innerHeight r;
       timestampToggle_checked := timestampToggle_checked r;
       timeMode_value := timeMode_value r;
       customTimeRow_hidden := customTimeRow_hidden r;
       customTimeInput_value := v; captureCanvas := captureCanvas r;
       previewImg_src := previewImg_src r;
       previewOverlay_hidden := previewOverlay_hidden r;
       cameraOverlay := cameraOverlay r;
       timestampOverlay := timestampOverlay r; flashBtn := flashBtn r |}).

Definition set_captureCanvas (v : Canvas) : State -> State :=
  with_dom (fun r =>
    {| video_videoWidth := video_videoWidth r;
       video_videoHeight := video_videoHeight r;
       video_srcObject := video_srcObject r;
       window_innerWidth := window_innerWidth r;
       window_innerHeight := window_innerHeight r;
       timestampToggle_checked := timestampToggle_checked r;
       timeMode_value := timeMode_value r;
       customTimeRow_hidden := customTimeRow_hidden r;
       customTimeInput_value := customTimeInput_value r; captureCanvas := v;
       previewImg_src := previewImg_src r;
       previewOverlay_hidden := previewOverlay_hidden r;
       cameraOverlay := cameraOverlay r;
       timestampOverlay := timestampOverlay r; flashBtn := flashBtn r |}).

Definition set_previewImg_src (v : string) : State -> State :=
  with_dom (fun r =>
    {| video_videoWidth := video_videoWidth r;
       video_videoHeight := video_videoHeight r;
       video_srcObject := video_srcObject r;
       window_innerWidth := window_innerWidth r;
       window_innerHeight := window_innerHeight r;
       timestampToggle_checked := timestampToggle_checked r;
       timeMode_value := timeMode_value r;
       customTimeRow_hidden := customTimeRow_hidden r;
       customTimeInput_value := customTimeInput_value r;
       captureCanvas := captureCanvas r; previewImg_src := v;
       previewOverlay_hidden := previewOverlay_hidden r;
       cameraOverlay := cameraOverlay r;
       timestampOverlay := timestampOverlay r; flashBtn := flashBtn r |}).

Definition set_previewOverlay_hidden (v : bool) : State -> State :=
  with_dom (fun r =>
    {| video_videoWidth := video_videoWidth r;
       video_videoHeight := video_videoHeight r;
       video_srcObject := video_srcObject r;
       window_innerWidth := window_innerWidth r;
       window_innerHeight := window_innerHeight r;
       timestampToggle_checked := timestampToggle_checked r;
       timeMode_value := timeMode_value r;
       customTimeRow_hidden := customTimeRow_hidden r;
       customTimeInput_value := customTimeInput_value r;
       captureCanvas := captureCanvas r; previewImg_src := previewImg_src r;
       previewOverlay_hidden := v; cameraOverlay := cameraOverlay r;
       timestampOverlay := timestampOverlay r; flashBtn := flashBtn r |}).

Definition set_cameraOverlay (v : option Overlay) : State -> State :=
  with_dom (fun r =>
    {| video_videoWidth := video_videoWidth r;
       video_videoHeight := video_videoHeight r;
       video_srcObject := video_srcObject r;
       window_innerWidth := window_innerWidth r;
       window_innerHeight := window_innerHeight r;
       timestampToggle_checked := timestampToggle_checked r;
       timeMode_value := timeMode_value r;
       customTimeRow_hidden := customTimeRow_hidden r;
       customTimeInput_value := customTimeInput_value r;
       captureCanvas := captureCanvas r; previewImg_src := previewImg_src r;
       previewOverlay_hidden := previewOverlay_hidden r; cameraOverlay := v;
       timestampOverlay := timestampOverlay r; flashBtn := flashBtn r |}).

Definition set_timestampOverlay (v : OverlayText) : State -> State :=
  with_dom (fun r =>
    {| video_videoWidth := video_videoWidth r;
       video_videoHeight := video_videoHeight r;
       video_srcObject := video_srcObject r;
       window_innerWidth := window_innerWidth r;
       window_innerHeight := window_innerHeight r;
       timestampToggle_checked := timestampToggle_checked r;
       timeMode_value := timeMode_value r;
       customTimeRow_hidden := customTimeRow_hidden r;
       customTimeInput_value := customTimeInput_value r;
       captureCanvas := captureCanvas r; previewImg_src := previewImg_src r;
       previewOverlay_hidden := previewOverlay_hidden r;
       cameraOverlay := cameraOverlay r; timestampOverlay := v;
       flashBtn := flashBtn r |}).

Definition set_flashBtn (v : FlashUI) : State -> State :=
  with_dom (fun r =>
    {| video_videoWidth := video_videoWidth r;
       video_videoHeight := video_videoHeight r;
       video_srcObject := video_srcObject r;
       window_innerWidth := window_innerWidth r;
       window_innerHeight := window_innerHeight r;
       timestampToggle_checked := timestampToggle_checked r;
       timeMode_value := timeMode_value r;
       customTimeRow_hidden := customTimeRow_hidden r;
       customTimeInput_value := customTimeInput_value r;
       captureCanvas := captureCanvas r; previewImg_src := previewImg_src r;
       previewOverlay_hidden := previewOverlay_hidden r;
       cameraOverlay := cameraOverlay r;
       timestampOverlay := timestampOverlay r; flashBtn := v |}).

Definition set_localStorage (v : Storage) : State -> State :=
  with_host (fun r =>
    {| localStorage := v; console_errors := console_errors r;
       objectURLs := objectURLs r; objectURL_count := objectURL_count r;
       stoppedStreams := stoppedStreams r;
       navigator_share := navigator_share r |}).

Definition set_console_errors (v : list (string * JSError)) : State -> State :=
  with_host (fun r =>
    {| localStorage := localStorage r; console_errors := v;
       objectURLs := objectURLs r; objectURL_count := objectURL_count r;
       stoppedStreams := stoppedStreams r;
       navigator_share := navigator_share r |}).

Definition set_objectURLs (v : gmap string Blob) : State -> State :=
  with_host (fun r =>
    {| localStorage := localStorage r; console_errors := console_errors r;
       objectURLs := v; objectURL_count := objectURL_count r;
       stoppedStreams := stoppedStreams r;
       navigator_share := navigator_share r |}).

Definition set_objectURL_count (v : Z) : State -> State :=
  with_host (fun r =>
    {| localStorage := localStorage r; console_errors := console_errors r;
       objectURLs := objectURLs r; objectURL_count := v;
       stoppedStreams := stoppedStreams r;
       navigator_share := navigator_share r |}).

Definition set_stoppedStreams (v : list MediaStream) : State -> State :=
  with_host (fun r =>
    {| localStorage := localStorage r; console_errors := console_errors r;
       objectURLs := objectURLs r; objectURL_count := objectURL_count r;
       stoppedStreams := v; navigator_share := navigator_share r |}).


(** ** Statements that may throw

    A computation runs on the state and either completes normally or
    throws; in both cases the assignments made so far stay, which is what
    a [try { ... } catch (e) { ... }] around it observes. *)

Inductive Completion (A : Type) :=
| Normal (a : A)
| Throw (e : JSError).
Arguments Normal {A} a.
Arguments Throw {A} e.

Definition M (A : Type) : Type := State -> Completion A * State.

#[global] Instance M_ret : MRet M := fun A a s => (Normal a, s).
#[global] Instance M_bind : MBind M := fun A B k m s =>
  match m s with
  | (Normal a, s') => k a s'
  | (Throw e, s') => (Throw e, s')
  end.

Definition throw {A} (e : JSError) : M A := fun s => (Throw e, s).
Definition gets {A} (f : State -> A) : M A := fun s => (Normal (f s), s).
Definition modify (f : State -> State) : M unit := fun s => (Normal tt, f s).

Definition try_catch (body : M unit) (handler : JSError -> M unit) : M unit :=
  fun s =>
    match body s with
    | (Normal a, s') => (Normal a, s')
    | (Throw e, s') => handler e s'
    end.

(** The state a statement leaves behind. *)
Definition exec (m : M unit) (s : State) : State := snd (m s).

Definition TypeError (msg : string) : JSError :=
  {| err_name := "TypeError"; err_message := msg |}.
Definition SecurityError : JSError :=
  {| err_name := "SecurityError"; err_message := "The operation is insecure." |}.
Definition QuotaExceededError : JSError :=
  {| err_name := "QuotaExceededError"; err_message := "The quota has been exceeded." |}.

(** [localStorage.getItem(key)]: [None] is [null]. *)
Definition localStorage_getItem (key : string) : M (option string) :=
  fun s =>
    let st := localStorage (host s) in
    if access_denied st then (Throw SecurityError, s)
    else (Normal (stored st !! key), s).

Definition localStorage_setItem (key value : string) : M unit :=
  fun s =>
    let st := localStorage (host s) in
    if access_denied st then (Throw SecurityError, s)
    else if quota_exceeded st then (Throw QuotaExceededError, s)
    else (Normal tt,
          set_localStorage
            {| stored := <[key := value]> (stored st);
               access_denied := access_denied st;
               quota_exceeded := quota_exceeded st |} s).

(** Own-property lookup [obj.key] on a parsed record. *)
Fixpoint assoc (key : string) (props : list (string * JSValue)) : JSValue :=
  match props with
  | [] => JUndefined
  | (k, v) :: rest => if String.eqb k key then v else assoc key rest
  end.

(** [v.key] for a key that no prototype defines: reading a property of
    [null] or [undefined] throws, primitives and arrays have no such
    property. *)
Definition getProperty (v : JSValue) (key : string) : M JSValue :=
  match v with
  | JUndefined | JNull => throw (TypeError "cannot read properties of null")
  | JObject props => mret (assoc key props)
  | _ => mret JUndefined
  end.

Definition console_error (label : string) (e : JSError) : State -> State :=
  fun s => set_console_errors (console_errors (host s) ++ [(label, e)]) s.

(** [URL.createObjectURL(blob)]: a fresh [blob:] URL registered for the page. *)
Definition URL_createObjectURL (blob : Blob) (s : State) : string * State :=
  let n := objectURL_count (host s) in
  let url := "blob:" +:+ String_of_int n in
  (url, set_objectURL_count (n + 1) (set_objectURLs (<[url := blob]> (objectURLs (host s))) s)).

Section App.
Context `{Platform}.

Definition parseJSON (text : string) : M JSValue :=
  match JSON_parse text with
  | inl v => mret v
  | inr e => throw e
  end.

(** *** Persist settings *)

Definition saveSettings_body : M unit :=
  try_catch
    (data ← gets (fun s => JObject
        [("timestampEnabled", JBool (timestampEnabled (vars s)));
         ("timestampMode", JString (timestampMode (vars s)));
         ("customDateTime", JString (customTimeInput_value (dom s)))]);
     localStorage_setItem "tsCamera_settings" (JSON_stringify data))
    (fun e => mret tt (* ignore *)).

Definition saveSettings : State -> State := exec saveSettings_body.

Definition loadSettings_body : M unit :=
  try_catch
    (raw ← localStorage_getItem "tsCamera_settings";
     match raw with
     | None | Some "" => mret tt          (* if (!raw) return; *)
     | Some raw =>
         data ← parseJSON raw;
         enabled ← getProperty data "timestampEnabled";
         match enabled with
         | JBool b =>                      (* typeof ... === 'boolean' *)
             modify (set_timestampEnabled b);;
             modify (set_timestampToggle_checked b)
         | _ => mret tt
         end;;
         mode ← getProperty data "timestampMode";
         match mode with
         | JString m =>
             if String.eqb m "current" || String.eqb m "custom"
             then
               modify (set_timestampMode m);;
               modify (set_timeMode_value m);;
               modify (set_customTimeRow_hidden (negb (String.eqb m "custom")))
             else mret tt
         | _ => mret tt
         end;;
         custom ← getProperty data "customDateTime";
         if truthy custom
         then
           modify (set_customDateTime custom);;
           modify (set_customTimeInput_value (input_value_set custom))
         else mret tt
     end)
    (fun e => mret tt (* ignore *)).

Definition loadSettings : State -> State := exec loadSettings_body.

(** *** Timestamp *)

(** [now] is the time value of [new Date()]. *)
Definition getTimestampText (b : Build) (now : Z) (s : State) : string :=
  if negb (timestampEnabled (vars s)) then ""
  else if String.eqb (timestampMode (vars s)) "custom"
          && truthy (customDateTime (vars s))
  then
    let d := Date_new (customDateTime (vars s)) in
    formatDateTime b d
  else formatDateTime b (Some now).

Definition updateOverlay (now : Z) (s : State) : State :=
  let text := getTimestampText LiveOverlayBuild now s in
  set_timestampOverlay
    {| textContent := text;
       style_display := if String.eqb text "" then "none" else "block" |} s.

(** *** Capture *)

(** Font size floor, fill colour, shadow colour, blur and offset of the
    stamp, and the two scale factors, per build. *)
Record StampStyle := {
  fontScale : Decimal; minFontSize : Z;
  stampFill : string; stampShadow : string;
  stampBlur : Z; stampOffset : Z;
  paddingScale : Decimal
}.

Definition stampStyle (b : Build) : StampStyle :=
  match b with
  | TorchBuild =>
      {| fontScale := {| numerator := 42; denominator := 1000 |}; minFontSize := 20;
         stampFill := "#ffffff"; stampShadow := "rgba(0, 0, 0, 0.9)";
         stampBlur := 6; stampOffset := 2;
         paddingScale := {| numerator := 30; denominator := 1000 |} |}
  | LiveOverlayBuild =>
      {| fontScale := {| numerator := 28; denominator := 1000 |}; minFontSize := 16;
         stampFill := "#ffa726"; stampShadow := "rgba(0, 0, 0, 0.8)";
         stampBlur := 4; stampOffset := 1;
         paddingScale := {| numerator := 25; denominator := 1000 |} |}
  end.

Definition jpegQuality : Decimal := {| numerator := 92; denominator := 100 |}.

(** [canvas.toBlob(callback, type, quality)]: the callback receives the
    encoded canvas, or [null] when the encoder produces nothing
    ([encoded = false]). *)
Definition toBlob (c : Canvas) (type : string) (quality : Decimal) (encoded : bool)
    : option Blob :=
  if encoded
  then Some {| blob_type := type; blob_quality := quality;
               blob_width := canvas_width c; blob_height := canvas_height c;
               blob_image := bitmap c |}
  else None.

(** The frame placement of [capturePhoto]: from [ctx.save()] to
    [ctx.restore()]. *)
Definition drawFrame (needsRotation : bool) (facing : FacingMode)
    (canvasW vw vh : Z) (c : Canvas) : Canvas :=
  let c := ctx_save c in
  let c := if needsRotation
           then ctx_rotate_half_pi (ctx_translate canvasW 0 c)
           else c in
  let c := match facing with
           | user => ctx_scale (-1) 1 (ctx_translate vw 0 c)
           | environment => c
           end in
  let c := ctx_drawImage 0 0 vw vh c in
  ctx_restore c.

Definition drawStamp (b : Build) (text : string) (canvasW canvasH : Z)
    (c : Canvas) : Canvas :=
  let st := stampStyle b in
  let fontSize := Z.max (Math_round_mul canvasW (fontScale st)) (minFontSize st) in
  let c := ctx_set_text_style
             ("bold " +:+ String_of_int fontSize +:+ "px 'Courier New', Courier, monospace")
             (stampFill st) (stampShadow st) (stampBlur st)
             (stampOffset st) (stampOffset st) "right" "bottom" c in
  let padding := Math_round_mul canvasW (paddingScale st) in
  ctx_fillText text (canvasW - padding) (canvasH - padding) c.

(** [capturePhoto()], with the [toBlob] callback run in place. *)
Definition capturePhoto (b : Build) (now : Z) (encoded : bool) (s : State) : State :=
  let vw := video_videoWidth (dom s) in
  let vh := video_videoHeight (dom s) in
  if (vw =? 0) || (vh =? 0) then s (* video not ready *)
  else
    let isPortrait := window_innerHeight (dom s) >? window_innerWidth (dom s) in
    let videoIsLandscape := vw >? vh in
    let needsRotation := isPortrait && videoIsLandscape in
    let canvasW := if needsRotation then vh else vw in
    let canvasH := if needsRotation then vw else vh in
    let c := canvas_set_width canvasW (captureCanvas (dom s)) in
    let c := canvas_set_height canvasH c in
    let c := drawFrame needsRotation (facingMode (vars s)) canvasW vw vh c in
    let text := getTimestampText b now s in
    let c := if String.eqb text "" then c else drawStamp b text canvasW canvasH c in
    let s := set_captureCanvas c s in
    match toBlob c "image/jpeg" jpegQuality encoded with
    | None => s
    | Some blob =>
        let s := set_capturedBlob (Some blob) s in
        let (url, s) := URL_createObjectURL blob s in
        let s := set_previewImg_src url s in
        set_previewOverlay_hidden false s
    end.

(** *** Share *)

(** How the promise of [navigator.share] settles. *)
Inductive ShareOutcome :=
| ShareResolved
| ShareRejected (err : JSError).

Definition sharePhoto (outcome : ShareOutcome) (s : State) : State :=
  match capturedBlob (vars s) with
  | None => s
  | Some _ =>
      if negb (navigator_share (host s)) then s
      else
        match outcome with
        | ShareResolved => s
        | ShareRejected err =>
            if negb (String.eqb (err_name err) "AbortError")
            then console_error "Share error:" err s
            else s
        end
  end.

(** *** Camera *)

Definition updateFlashUI (s : State) : State :=
  set_flashBtn {| dimmed := negb (torchSupported (vars s));
                  flash_active := flashOn (vars s) |} s.

Definition checkTorchSupport (s : State) : State :=
  let s := set_torchSupported false s in
  match currentStream (vars s) with
  | None => s
  | Some stream =>
      match videoTrack stream with
      | None => s
      | Some cap =>
          let s := match cap with
                   | HasTorch => set_torchSupported true s
                   | NoTorch | CapabilitiesThrow => s
                   end in
          updateFlashUI s
      end
  end.

Definition showCameraOverlay (title message : string) (buttonText : option string)
    (s : State) : State :=
  let button :=
    match buttonText with
    | None | Some "" => None
    | Some text => Some {| button_text := text; click_listeners := [CallStartCamera] |}
    end in
  set_cameraOverlay
    (Some {| overlay_title := title; overlay_message := message;
             cameraRetryBtn := button |}) s.

Definition hideCameraOverlay (s : State) : State := set_cameraOverlay None s.

(** How camera acquisition ends. *)
Inductive MediaOutcome :=
| MediaUnsupported               (* no [navigator.mediaDevices.getUserMedia] *)
| MediaRejected (err : JSError)  (* [getUserMedia] rejects with [err] *)
| MediaGranted (stream : MediaStream).

Definition startCamera (b : Build) (media : MediaOutcome) (s : State) : State :=
  let s := match currentStream (vars s) with
           | Some old => set_stoppedStreams (stoppedStreams (host s) ++ [old]) s
           | None => s
           end in
  let s := match b with
           | TorchBuild => updateFlashUI (set_flashOn false s)
           | LiveOverlayBuild => s
           end in
  let s := hideCameraOverlay s in
  match media with
  | MediaUnsupported =>
      showCameraOverlay "Camera not available"
        "Your browser does not support camera access. Make sure you are using HTTPS or localhost."
        None s
  | MediaGranted stream =>
      let s := set_currentStream (Some stream) s in
      let s := set_video_srcObject (currentStream (vars s)) s in
      match b with
      | TorchBuild => checkTorchSupport s
      | LiveOverlayBuild => s
      end
  | MediaRejected err =>
      let s := console_error "Camera error:" err s in
      if String.eqb (err_name err) "NotAllowedError"
         || String.eqb (err_name err) "PermissionDeniedError"
      then showCameraOverlay "Camera access denied"
             "Please allow camera access in your browser settings, then tap below to retry."
             (Some "Grant Camera Access") s
      else if String.eqb (err_name err) "NotFoundError"
              || String.eqb (err_name err) "DevicesNotFoundError"
      then showCameraOverlay "No camera found"
             "No camera was detected on this device."
             (Some "Try Again") s
      else showCameraOverlay "Camera error"
             "Unable to start the camera. Tap below to try again."
             (Some "Start Camera") s
  end.

Definition flipCamera (b : Build) (media : MediaOutcome) (s : State) : State :=
  let s := set_facingMode
             match facingMode (vars s) with
             | environment => user
             | user => environment
             end s in
  startCamera b media s.

(** A click on [#cameraRetryBtn] runs the listeners registered on it. *)
Definition runListener (b : Build) (media : MediaOutcome) (l : Listener)
    (s : State) : State :=
  match l with
  | CallStartCamera => startCamera b media s
  end.

Definition click_cameraRetryBtn (b : Build) (media : MediaOutcome) (s : State) : State :=
  match cameraOverlay (dom s) with
  | Some {| cameraRetryBtn := Some btn |} =>
      fold_left (fun s l => runListener b media l s) (click_listeners btn) s
  | _ => s
  end.

(** *** Settings controls: the listeners [init] registers *)

Definition refreshOverlay (b : Build) (now : Z) (s : State) : State :=
  match b with
  | TorchBuild => s
  | LiveOverlayBuild => updateOverlay now s
  end.

Definition timestampToggle_change (b : Build) (now : Z) (s : State) : State :=
  let s := set_timestampEnabled (timestampToggle_checked (dom s)) s in
  refreshOverlay b now (saveSettings s).

Definition timeMode_change (b : Build) (now : Z) (s : State) : State :=
  let s := set_timestampMode (timeMode_value (dom s)) s in
  let s := set_customTimeRow_hidden
             (negb (String.eqb (timestampMode (vars s)) "custom")) s in
  refreshOverlay b now (saveSettings s).

Definition customTimeInput_input (b : Build) (now : Z) (s : State) : State :=
  let s := set_customDateTime (JString (customTimeInput_value (dom s))) s in
  refreshOverlay b now (saveSettings s).

(** *** Start-up *)

(** The values the module-level declarations start with. *)
Definition initialVars : Vars :=
  {| facingMode := environment; currentStream := None;
     timestampEnabled := true; timestampMode := "current";
     customDateTime := JString ""; capturedBlob := None;
     flashOn := false; torchSupported := false |}.

(** [init()], up to the registration of the listeners above and of the
    service worker; the share button's visibility is not kept, and of
    the live overlay's one-second timer only the first refresh is. *)
Definition init (b : Build) (now : Z) (media : MediaOutcome) (s : State) : State :=
  let s := set_customTimeInput_value (input_value_set (JString (toLocalISOString now))) s in
  let s := loadSettings s in
  let s := startCamera b media s in
  refreshOverlay b now s.

End App.

(** ** The rest of the page: preview, download, flash, settings sheet

    The listeners that [init] registers run on a [Page]: the application
    state together with what the remaining handlers touch. *)

Definition URL_revokeObjectURL (url : string) (s : State) : State :=
  set_objectURLs (delete url (objectURLs (host s))) s.

(** [closePreview()].  Where [previewImg.src] is empty the guarded block
    changes nothing, whichever way the getter reads an empty attribute. *)
Definition closePreview (s : State) : State :=
  let s := set_previewOverlay_hidden true s in
  let s := if String.eqb (previewImg_src (dom s)) "" then s
           else set_previewImg_src ""
                  (URL_revokeObjectURL (previewImg_src (dom s)) s) in
  set_capturedBlob None s.

(** How the promise of [track.applyConstraints] settles. *)
Inductive ConstraintsOutcome :=
| ConstraintsApplied
| ConstraintsRejected (err : JSError).

(** [toggleFlash()] of the torch build. *)
Definition toggleFlash (outcome : ConstraintsOutcome) (s : State) : State :=
  if negb (torchSupported (vars s)) then s
  else
    match currentStream (vars s) with
    | None => s
    | Some stream =>
        let s := set_flashOn (negb (flashOn (vars s))) s in
        match videoTrack stream with
        | None => s
        | Some _ =>
            let s := match outcome with
                     | ConstraintsApplied => s
                     | ConstraintsRejected e =>
                         set_flashOn false (console_error "Flash error:" e s)
                     end in
            updateFlashUI s
        end
    end.

(** A file save started by a click on a temporary [<a download>]:
    [saved] is what its [href] resolved to at the click. *)
Record Download := {
  download_name : string;
  download_href : string;
  saved : option Blob
}.

Record Page := {
  app : State;
  settingsSheet_hidden : bool;
  downloads : list Download;
  (** URLs that pending [setTimeout] callbacks will revoke, oldest first *)
  revokeTimeouts : list string;
  (** whether [setInterval(updateOverlay, 1000)] is running *)
  overlayInterval : bool
}.

Definition with_app (f : State -> State) (p : Page) : Page :=
  {| app := f (app p); settingsSheet_hidden := settingsSheet_hidden p;
     downloads := downloads p; revokeTimeouts := revokeTimeouts p;
     overlayInterval := overlayInterval p |}.

Definition openSettings (p : Page) : Page :=
  {| app := app p; settingsSheet_hidden := false;
     downloads := downloads p; revokeTimeouts := revokeTimeouts p;
     overlayInterval := overlayInterval p |}.

Definition closeSettings (p : Page) : Page :=
  {| app := app p; settingsSheet_hidden := true;
     downloads := downloads p; revokeTimeouts := revokeTimeouts p;
     overlayInterval := overlayInterval p |}.

(** [downloadPhoto()]; [now] is [Date.now()]. *)
Definition downloadPhoto (now : Z) (p : Page) : Page :=
  match capturedBlob (vars (app p)) with
  | None => p
  | Some blob =>
      let (url, s) := URL_createObjectURL blob (app p) in
      let a := {| download_name := "photo_" +:+ String_of_int now +:+ ".jpg";
                  download_href := url;
                  saved := objectURLs (host s) !! url |} in
      {| app := s; settingsSheet_hidden := settingsSheet_hidden p;
         downloads := downloads p ++ [a];
         revokeTimeouts := revokeTimeouts p ++ [url];
         overlayInterval := overlayInterval p |}
  end.

(** The oldest pending timeout fires: [() => URL.revokeObjectURL(url)]. *)
Definition timeoutFires (p : Page) : Page :=
  match revokeTimeouts p with
  | [] => p
  | url :: rest =>
      {| app := URL_revokeObjectURL url (app p);
         settingsSheet_hidden := settingsSheet_hidden p;
         downloads := downloads p; revokeTimeouts := rest;
         overlayInterval := overlayInterval p |}
  end.

(** What the browser and the user change by themselves. *)
Definition set_video_size (vw vh : Z) : State -> State :=
  with_dom (fun r =>
    {| video_videoWidth := vw; video_videoHeight := vh;
       video_srcObject := video_srcObject r;
       window_innerWidth := window_innerWidth r;
       window_innerHeight := window_innerHeight r;
       timestampToggle_checked := timestampToggle_checked r;
       timeMode_value := timeMode_value r;
       customTimeRow_hidden := customTimeRow_hidden r;
       customTimeInput_value := customTimeInput_value r;
       captureCanvas := captureCanvas r; previewImg_src := previewImg_src r;
       previewOverlay_hidden := previewOverlay_hidden r;
       cameraOverlay := cameraOverlay r; timestampOverlay := timestampOverlay r;
       flashBtn := flashBtn r |}).

Definition set_window_size (iw ih : Z) : State -> State :=
  with_dom (fun r =>
    {| video_videoWidth := video_videoWidth r;
       video_videoHeight := video_videoHeight r;
       video_srcObject := video_srcObject r;
       window_innerWidth := iw; window_innerHeight := ih;
       timestampToggle_checked := timestampToggle_checked r;
       timeMode_value := timeMode_value r;
       customTimeRow_hidden := customTimeRow_hidden r;
       customTimeInput_value := customTimeInput_value r;
       captureCanvas := captureCanvas r; previewImg_src := previewImg_src r;
       previewOverlay_hidden := previewOverlay_hidden r;
       cameraOverlay := cameraOverlay r; timestampOverlay := timestampOverlay r;
       flashBtn := flashBtn r |}).

(** What can happen to the page once [init] has run: the clicks and
    changes it listens to, the timers it starts, and the changes of
    frame and window size that it reads at the next capture.  An event
    carries how the promises of its listener settle; a listener is taken
    to run to its end before the next event is handled. *)
Inductive Event :=
| CaptureClick (now : Z) (encoded : bool)
| FlipClick (media : MediaOutcome)
| FlashClick (outcome : ConstraintsOutcome)
| RetryClick (media : MediaOutcome)
| SettingsClick
| SheetCloseClick
| PreviewCloseClick
| DownloadClick (now : Z)
| ShareClick (outcome : ShareOutcome)
| ToggleChange (checked : bool) (now : Z)
| ModeChange (value : string) (now : Z)
| CustomTimeInput (value : string) (now : Z)
| TimeoutFires
| IntervalTick (now : Z)
| FrameResize (vw vh : Z)
| WindowResize (iw ih : Z).

Section Page.
Context `{Platform}.

(** [startOverlayTimer()] of the live-overlay build. *)
Definition startOverlayTimer (now : Z) (p : Page) : Page :=
  {| app := updateOverlay now (app p);
     settingsSheet_hidden := settingsSheet_hidden p;
     downloads := downloads p; revokeTimeouts := revokeTimeouts p;
     overlayInterval := true |}.

(** [init()] with its timer; [now] is the time value of its
    [new Date()], [shown] that of the overlay's first refresh. *)
Definition initPage (b : Build) (now shown : Z) (media : MediaOutcome) (p : Page) : Page :=
  let s := set_customTimeInput_value
             (input_value_set (JString (toLocalISOString now))) (app p) in
  let s := loadSettings s in
  let s := startCamera b media s in
  let p := with_app (fun _ => s) p in
  match b with
  | TorchBuild => p
  | LiveOverlayBuild => startOverlayTimer shown p
  end.

(** The listener bound to each event; the flash button exists in the
    torch build only, the interval in the live-overlay build only. *)
Definition handle (b : Build) (e : Event) (p : Page) : Page :=
  match e with
  | CaptureClick now encoded => with_app (capturePhoto b now encoded) p
  | FlipClick media => with_app (flipCamera b media) p
  | FlashClick outcome =>
      match b with
      | TorchBuild => with_app (toggleFlash outcome) p
      | LiveOverlayBuild => p
      end
  | RetryClick media => with_app (click_cameraRetryBtn b media) p
  | SettingsClick => openSettings p
  | SheetCloseClick => closeSettings p
  | PreviewCloseClick => with_app closePreview p
  | DownloadClick now => downloadPhoto now p
  | ShareClick outcome => with_app (sharePhoto outcome) p
  | ToggleChange checked now =>
      with_app (fun s => timestampToggle_change b now
                           (set_timestampToggle_checked checked s)) p
  | ModeChange value now =>
      with_app (fun s => timeMode_change b now (set_timeMode_value value s)) p
  | CustomTimeInput value now =>
      with_app (fun s => customTimeInput_input b now
                           (set_customTimeInput_value value s)) p
  | TimeoutFires => timeoutFires p
  | IntervalTick now =>
      match b with
      | TorchBuild => p
      | LiveOverlayBuild =>
          if overlayInterval p then with_app (updateOverlay now) p else p
      end
  | FrameResize vw vh => with_app (set_video_size vw vh) p
  | WindowResize iw ih => with_app (set_window_size iw ih) p
  end.

Definition run (b : Build) (events : list Event) (p : Page) : Page :=
  fold_left (fun p e => handle b e p) events p.

End Page.

(** ** The service worker ([src/sw.js]) *)

Module ServiceWorker.

Definition CACHE_NAME : string := "ts-camera-v3".

Definition ASSETS : list string :=
  ["./"; "index.html"; "camera.html"; "style.css"; "app.js"; "manifest.json";
   "icons/icon-192.png"; "icons/icon-512.png"].

Record Request := { method : string; url : string }.
Record Response := { status : Z; body : string }.

(** A cache maps request URLs to responses; the cache storage lists the
    caches by name in the order of their creation, which is the order
    [caches.match] searches them in. *)
Definition CacheStorage : Type := list (string * gmap string Response).

(** The network: [None] is a failed fetch. *)
Definition Network : Type := Request -> option Response.

Definition GET (u : string) : Request := {| method := "GET"; url := u |}.

Definition response_ok (r : Response) : bool :=
  (200 <=? status r) && (status r <=? 299).

(** [caches.open(name)]: creates the cache when there is none. *)
Fixpoint caches_open (name : string) (cs : CacheStorage) : CacheStorage :=
  match cs with
  | [] => [(name, ∅)]
  | (n, c) :: rest =>
      if String.eqb n name then cs else (n, c) :: caches_open name rest
  end.

Fixpoint cache_of (name : string) (cs : CacheStorage) : option (gmap string Response) :=
  match cs with
  | [] => None
  | (n, c) :: rest => if String.eqb n name then Some c else cache_of name rest
  end.

Fixpoint cache_update (name : string) (f : gmap string Response -> gmap string Response)
    (cs : CacheStorage) : CacheStorage :=
  match cs with
  | [] => []
  | (n, c) :: rest =>
      if String.eqb n name then (n, f c) :: rest
      else (n, c) :: cache_update name f rest
  end.

(** The fetches of [cache.addAll(urls)]: every response, or nothing when
    one request fails, is answered outside the 2xx range or is answered
    with 206 (headers, and so a [Vary: *], are not kept).  [addAll] also
    rejects a list that names one URL twice. *)
Fixpoint fetchAll (net : Network) (urls : list string)
    : option (list (string * Response)) :=
  match urls with
  | [] => Some []
  | u :: rest =>
      match net (GET u) with
      | Some r =>
          if response_ok r && negb (status r =? 206)
          then match fetchAll net rest with
               | Some rs => Some ((u, r) :: rs)
               | None => None
               end
          else None
      | None => None
      end
  end.

Definition addAll (net : Network) (urls : list string)
    : option (list (string * Response)) :=
  if bool_decide (NoDup urls) then fetchAll net urls else None.

Definition putAll (entries : list (string * Response)) (c : gmap string Response)
    : gmap string Response :=
  fold_left (fun c e => <[fst e := snd e]> c) entries c.

Section Worker.
(** Resolution of a URL of the source against the worker's location. *)
Variable resolve : string -> string.

(** The install listener: the new storage and whether the promise passed
    to [waitUntil] is fulfilled. *)
Definition install (net : Network) (cs : CacheStorage) : CacheStorage * bool :=
  let cs := caches_open CACHE_NAME cs in
  match addAll net (map resolve ASSETS) with
  | Some entries => (cache_update CACHE_NAME (putAll entries) cs, true)
  | None => (cs, false)
  end.

(** The activate listener: [caches.delete] on every other cache. *)
Definition activate (cs : CacheStorage) : CacheStorage :=
  filter (fun e => String.eqb (fst e) CACHE_NAME = true) cs.

(** [caches.match(request)]: the first cache that holds the URL of a GET
    request. *)
Fixpoint caches_match (req : Request) (cs : CacheStorage) : option Response :=
  match cs with
  | [] => None
  | (_, c) :: rest =>
      match (if String.eqb (method req) "GET" then c !! url req else None) with
      | Some r => Some r
      | None => caches_match req rest
      end
  end.

(** The fetch listener: [cached || fetch(event.request)]. *)
Definition onfetch (net : Network) (cs : CacheStorage) (req : Request)
    : option Response :=
  match caches_match req cs with
  | Some r => Some r
  | None => net req
  end.

End Worker.

End ServiceWorker.

(** ** A reference platform

    A concrete platform on which the examples below run: UTC local time,
    and a JSON codec after ECMA-404.  The codec keeps a number literal's
    decimal value unrounded (the app only tests numbers for zero), apart
    from underflow to zero and overflow to Infinity, and rejects [\u]
    escapes above U+00FF, which [string] cannot hold. *)

Module JSON.

Definition quote : ascii := ascii_of_N 34.
Definition backslash : ascii := ascii_of_N 92.

Definition isWhitespace (c : ascii) : bool :=
  match N_of_ascii c with
  | 32 | 9 | 10 | 13 => true
  | _ => false
  end%N.

Fixpoint skipWhitespace (s : string) : string :=
  match s with
  | String c rest => if isWhitespace c then skipWhitespace rest else s
  | EmptyString => s
  end.

Definition digitValue (c : ascii) : option Z :=
  let n := Z.of_N (N_of_ascii c) in
  if (48 <=? n) && (n <=? 57) then Some (n - 48) else None.

Definition hexValue (c : ascii) : option Z :=
  let n := Z.of_N (N_of_ascii c) in
  if (48 <=? n) && (n <=? 57) then Some (n - 48)
  else if (97 <=? n) && (n <=? 102) then Some (n - 87)
  else if (65 <=? n) && (n <=? 70) then Some (n - 55)
  else None.

Definition hexChar (n : Z) : ascii :=
  ascii_of_N (Z.to_N (if n <? 10 then 48 + n else 87 + n)).

(** *** Parsing *)

Definition unescape (c : ascii) : option ascii :=
  match N_of_ascii c with
  | 34 => Some quote
  | 92 => Some backslash
  | 47 => Some "/"%char
  | 98 => Some (ascii_of_N 8)
  | 102 => Some (ascii_of_N 12)
  | 110 => Some (ascii_of_N 10)
  | 114 => Some (ascii_of_N 13)
  | 116 => Some (ascii_of_N 9)
  | _ => None
  end%N.

Definition codeUnit (h1 h2 h3 h4 : ascii) : option ascii :=
  match hexValue h1, hexValue h2, hexValue h3, hexValue h4 with
  | Some a, Some b, Some c, Some d =>
      if (a =? 0) && (b =? 0) then Some (ascii_of_N (Z.to_N (16 * c + d))) else None
  | _, _, _, _ => None
  end.

Definition consChar (c : ascii) (r : option (string * string)) : option (string * string) :=
  match r with
  | Some (str, rest) => Some (String c str, rest)
  | None => None
  end.

(** The characters of a string literal after its opening quote. *)
Fixpoint parseChars (s : string) : option (string * string) :=
  match s with
  | EmptyString => None
  | String c rest =>
      if Ascii.eqb c quote then Some ("", rest)
      else if Ascii.eqb c backslash then
        match rest with
        | String "u" (String h1 (String h2 (String h3 (String h4 rest')))) =>
            match codeUnit h1 h2 h3 h4 with
            | Some u => consChar u (parseChars rest')
            | None => None
            end
        | String e rest' =>
            match unescape e with
            | Some u => consChar u (parseChars rest')
            | None => None
            end
        | EmptyString => None
        end
      else if (N_of_ascii c <? 32)%N then None
      else consChar c (parseChars rest)
  end.

(** Leading decimal digits: their value, their count, the rest. *)
Fixpoint takeDigits (s : string) (acc : Z) (n : Z) : Z * Z * string :=
  match s with
  | String c rest =>
      match digitValue c with
      | Some d => takeDigits rest (10 * acc + d) (n + 1)
      | None => (acc, n, s)
      end
  | EmptyString => (acc, n, s)
  end.

(** The Number that the decimal [m * 10 ^ e], [0 <= m], rounds to, as far
    as zero and Infinity go. *)
Definition roundDecimal (negative : bool) (m e : Z) : Number :=
  let top := 2 ^ 1024 - 2 ^ 970 in
  if m =? 0 then Finite 0 0
  else if e <? 0 then
    if m * 2 ^ 1075 <=? 10 ^ (- e) then Finite 0 0
    else if top * 10 ^ (- e) <=? m then Infinity negative
    else Finite (if negative then - m else m) e
  else if top <=? m * 10 ^ e then Infinity negative
  else Finite (if negative then - m else m) e.

Definition parseExponent (s : string) : option (Z * string) :=
  match s with
  | String c rest =>
      if Ascii.eqb c "e" || Ascii.eqb c "E" then
        let '(negative, rest) :=
          match rest with
          | String "-" r => (true, r)
          | String "+" r => (false, r)
          | _ => (false, rest)
          end in
        let '(v, n, rest) := takeDigits rest 0 0 in
        if n =? 0 then None else Some (if negative then - v else v, rest)
      else Some (0, s)
  | EmptyString => Some (0, s)
  end.

Definition parseFraction (s : string) (int : Z) : option (Z * Z * string) :=
  match s with
  | String "." rest =>
      let '(v, n, rest) := takeDigits rest int 0 in
      if n =? 0 then None else Some (v, n, rest)
  | _ => Some (int, 0, s)
  end.

Definition parseNumber (s : string) : option (Number * string) :=
  let '(negative, s) :=
    match s with
    | String "-" r => (true, r)
    | _ => (false, s)
    end in
  let int :=
    match s with
    | String "0" rest => Some (0, rest)
    | _ => let '(v, n, rest) := takeDigits s 0 0 in
           if n =? 0 then None else Some (v, rest)
    end in
  match int with
  | None => None
  | Some (i, s) =>
      match parseFraction s i with
      | None => None
      | Some (m, scale, s) =>
          match parseExponent s with
          | None => None
          | Some (ex, s) => Some (roundDecimal negative m (ex - scale), s)
          end
      end
  end.

Fixpoint stripPrefix (p s : string) : option string :=
  match p, s with
  | EmptyString, _ => Some s
  | String a p', String b s' => if Ascii.eqb a b then stripPrefix p' s' else None
  | String _ _, EmptyString => None
  end.

(** A repeated key keeps its first position and takes the last value. *)
Fixpoint setProperty (key : string) (v : JSValue) (props : list (string * JSValue))
    : list (string * JSValue) :=
  match props with
  | [] => [(key, v)]
  | (k, w) :: rest =>
      if String.eqb k key then (k, v) :: rest else (k, w) :: setProperty key v rest
  end.

Fixpoint parseValue (fuel : nat) (s : string) : option (JSValue * string) :=
  match fuel with
  | O => None
  | S fuel' =>
      match skipWhitespace s with
      | EmptyString => None
      | String c rest as s =>
          if Ascii.eqb c quote then
            match parseChars rest with
            | Some (str, rest) => Some (JString str, rest)
            | None => None
            end
          else if Ascii.eqb c "[" then
            match skipWhitespace rest with
            | String "]" rest => Some (JArray [], rest)
            | rest => parseElements fuel' rest []
            end
          else if Ascii.eqb c "{" then
            match skipWhitespace rest with
            | String "}" rest => Some (JObject [], rest)
            | rest => parseMembers fuel' rest []
            end
          else
            match stripPrefix "null" s, stripPrefix "true" s, stripPrefix "false" s with
            | Some rest, _, _ => Some (JNull, rest)
            | _, Some rest, _ => Some (JBool true, rest)
            | _, _, Some rest => Some (JBool false, rest)
            | None, None, None =>
                match parseNumber s with
                | Some (n, rest) => Some (JNumber n, rest)
                | None => None
                end
            end
      end
  end
with parseElements (fuel : nat) (s : string) (acc : list JSValue)
    : option (JSValue * string) :=
  match fuel with
  | O => None
  | S fuel' =>
      match parseValue fuel' s with
      | None => None
      | Some (v, rest) =>
          match skipWhitespace rest with
          | String "," rest => parseElements fuel' rest (acc ++ [v])
          | String "]" rest => Some (JArray (acc ++ [v]), rest)
          | _ => None
          end
      end
  end
with parseMembers (fuel : nat) (s : string) (acc : list (string * JSValue))
    : option (JSValue * string) :=
  match fuel with
  | O => None
  | S fuel' =>
      match skipWhitespace s with
      | String c rest =>
          if Ascii.eqb c quote then
            match parseChars rest with
            | None => None
            | Some (key, rest) =>
                match skipWhitespace rest with
                | String ":" rest =>
                    match parseValue fuel' rest with
                    | None => None
                    | Some (v, rest) =>
                        match skipWhitespace rest with
                        | String "," rest => parseMembers fuel' rest (setProperty key v acc)
                        | String "}" rest => Some (JObject (setProperty key v acc), rest)
                        | _ => None
                        end
                    end
                | _ => None
                end
            end
          else None
      | EmptyString => None
      end
  end.

Definition SyntaxError : JSError :=
  {| err_name := "SyntaxError"; err_message := "JSON.parse: unexpected character" |}.

Definition parse (text : string) : JSValue + JSError :=
  match parseValue (2 * String.length text + 2) text with
  | Some (v, rest) =>
      match skipWhitespace rest with
      | EmptyString => inl v
      | String _ _ => inr SyntaxError
      end
  | None => inr SyntaxError
  end.

(** *** Serialising *)

Definition quoteChar (c : ascii) : string :=
  let n := N_of_ascii c in
  match n with
  | 34 => String backslash (String quote "")
  | 92 => String backslash (String backslash "")
  | 8 => String backslash "b"
  | 12 => String backslash "f"
  | 10 => String backslash "n"
  | 13 => String backslash "r"
  | 9 => String backslash "t"
  | _ =>
      if (n <? 32)%N
      then String backslash
             (String "u" (String "0" (String "0"
               (String (hexChar (Z.of_N n / 16)) (String (hexChar (Z.of_N n mod 16)) "")))))
      else String c ""
  end%N.

Fixpoint quoteChars (s : string) : string :=
  match s with
  | EmptyString => String quote ""
  | String c rest => quoteChar c +:+ quoteChars rest
  end.

Definition QuoteJSONString (s : string) : string := String quote (quoteChars s).

Definition joinWith (sep : string) (parts : list string) : string :=
  match parts with
  | [] => ""
  | p :: ps => fold_left (fun acc q => acc +:+ sep +:+ q) ps p
  end.

(** Numbers: integers print in decimal, NaN and the infinities as [null];
    a fractional value, which the app never stores, prints as [null] too. *)
Definition stringifyNumber (n : Number) : string :=
  match n with
  | Finite m e => if 0 <=? e then String_of_int (m * 10 ^ e) else "null"
  | NaN | Infinity _ => "null"
  end.

Definition isUndefined (v : JSValue) : bool :=
  match v with
  | JUndefined => true
  | _ => false
  end.

Fixpoint stringify (v : JSValue) : string :=
  match v with
  | JUndefined | JNull => "null"
  | JBool true => "true"
  | JBool false => "false"
  | JNumber n => stringifyNumber n
  | JString s => QuoteJSONString s
  | JArray items => "[" +:+ joinWith "," (map stringify items) +:+ "]"
  | JObject props =>
      let member (kv : string * JSValue) : list string :=
        let '(k, w) := kv in
        if isUndefined w then [] else [QuoteJSONString k +:+ ":" +:+ stringify w] in
      "{" +:+ joinWith "," (concat (map member props)) +:+ "}"
  end.

End JSON.

(** [new Date(value)] for the local date-time strings of the picker,
    [YYYY-MM-DDTHH:mm]; anything else is an invalid date here. *)
Definition parseLocalDateTime (s : string) : Date :=
  match s with
  | String y1 (String y2 (String y3 (String y4 (String "-"
      (String m1 (String m2 (String "-" (String d1 (String d2 (String "T"
        (String h1 (String h2 (String ":" (String n1 (String n2 ""))))))))))))))) =>
      match map JSON.digitValue [y1; y2; y3; y4; m1; m2; d1; d2; h1; h2; n1; n2] with
      | [Some a; Some b; Some c; Some d; Some e; Some f; Some g; Some h;
         Some i; Some j; Some k; Some l] =>
          let year := 1000 * a + 100 * b + 10 * c + d in
          let month := 10 * e + f in
          let day := 10 * g + h in
          let hours := 10 * i + j in
          let minutes := 10 * k + l in
          let leap := if Time.DaysInYear year =? 366 then 1 else 0 in
          let monthStart := nth (Z.to_nat (month - 1))
            [0; 31; 59 + leap; 90 + leap; 120 + leap; 151 + leap; 181 + leap;
             212 + leap; 243 + leap; 273 + leap; 304 + leap; 334 + leap] 0 in
          let monthEnd := nth (Z.to_nat month)
            [0; 31; 59 + leap; 90 + leap; 120 + leap; 151 + leap; 181 + leap;
             212 + leap; 243 + leap; 273 + leap; 304 + leap; 334 + leap;
             365 + leap] 0 in
          if (1 <=? month) && (month <=? 12) && (1 <=? day)
             && (day <=? monthEnd - monthStart)
             && (hours <=? 23) && (minutes <=? 59)
          then Some (Time.msPerDay * (Time.DayFromYear year + monthStart + day - 1)
                     + Time.msPerHour * hours + Time.msPerMinute * minutes)
          else None
      | _ => None
      end
  | _ => None
  end.

Definition referencePlatform : Platform :=
  {| LocalTZA := fun _ => 0;
     Date_new := fun v => match v with
                          | JString s => parseLocalDateTime s
                          | _ => None
                          end;
     JSON_parse := JSON.parse;
     JSON_stringify := JSON.stringify;
     Math_round_mul := fun n c =>
       (2 * n * numerator c + denominator c) / (2 * denominator c);
     input_value_set := fun v => match v with
                                 | JString s => s
                                 | _ => ""
                                 end |}.

(** A platform whose clocks are set back: local time is one hour ahead
    of UTC until [clocksGoBack] (2024-10-27 01:00 UTC) and on UTC from
    then on.  A local time that occurs twice is read as the earlier
    instant. *)
Definition clocksGoBack : Z := 1729990800000.

Definition fallBackPlatform : Platform :=
  {| LocalTZA := fun t => if t <? clocksGoBack then Time.msPerHour else 0;
     Date_new := fun v =>
       match v with
       | JString s =>
           match parseLocalDateTime s with
           | Some local =>
               Some (if local - Time.msPerHour <? clocksGoBack
                     then local - Time.msPerHour else local)
           | None => None
           end
       | _ => None
       end;
     JSON_parse := JSON.parse;
     JSON_stringify := JSON.stringify;
     Math_round_mul := fun n c =>
       (2 * n * numerator c + denominator c) / (2 * denominator c);
     input_value_set := fun v => match v with
                                 | JString s => s
                                 | _ => ""
                                 end |}.

(** A sample state: a page showing a [vw] x [vh] video frame in an
    [iw] x [ih] window, before [init] has run.  The markup is not among
    the sources; the values chosen here for its controls are either
    overwritten by [init] or play no part in the examples. *)
Definition blankCanvas : Canvas :=
  {| canvas_width := 300; canvas_height := 150; ctx := defaultDrawingState;
     ctx_stack := []; bitmap := [] |}.

Definition loadedPage (vw vh iw ih : Z) (storage : Storage) : State :=
  {| vars := initialVars;
     dom := {| video_videoWidth := vw; video_videoHeight := vh;
               video_srcObject := None;
               window_innerWidth := iw; window_innerHeight := ih;
               timestampToggle_checked := true; timeMode_value := "current";
               customTimeRow_hidden := true; customTimeInput_value := "";
               captureCanvas := blankCanvas;
               previewImg_src := ""; previewOverlay_hidden := true;
               cameraOverlay := None;
               timestampOverlay := {| textContent := ""; style_display := "none" |};
               flashBtn := {| dimmed := true; flash_active := false |} |};
     host := {| localStorage := storage; console_errors := [];
                objectURLs := ∅; objectURL_count := 0;
                stoppedStreams := []; navigator_share := true |} |}.

Definition emptyStorage : Storage :=
  {| stored := ∅; access_denied := false; quota_exceeded := false |}.

Definition storageHolding (raw : string) : Storage :=
  {| stored := {[ "tsCamera_settings" := raw ]};
     access_denied := false; quota_exceeded := false |}.

(** 2024-01-02 00:00 and 2024-02-01 00:00 UTC. *)
Definition jan2 : Z := 1704153600000.
Definition feb1 : Z := 1706745600000.

(** Half an hour before the clocks go back on [fallBackPlatform]. *)
Definition beforeFallBack : Z := clocksGoBack - 30 * Time.msPerMinute.

(** A phone held upright in front of a 1920 x 1080 stream. *)
Definition portraitPage : State := loadedPage 1920 1080 390 844 emptyStorage.

Definition NotAllowedError : JSError :=
  {| err_name := "NotAllowedError"; err_message := "Permission denied" |}.
Definition AbortError : JSError :=
  {| err_name := "AbortError"; err_message := "Share canceled" |}.

(** The page after the user has picked a custom time. *)
Definition pickedPage : State :=
  set_customDateTime (JString "2024-02-01T00:00")
    (set_customTimeInput_value "2024-02-01T00:00"
       (set_timestampMode "custom" portraitPage)).

(** A stored record whose [customDateTime] is not a date. *)
Definition notADateRecord : string :=
  "{" +:+ JSON.QuoteJSONString "customDateTime" +:+ ":" +:+
  JSON.QuoteJSONString "garbage" +:+ "}".

(** A stored record whose [customDateTime] is not a string. *)
Definition wrongTypedRecord : string :=
  "{" +:+ JSON.QuoteJSONString "customDateTime" +:+ ":true}".

(** An older record, kept by a storage that now refuses writes. *)
Definition fullStorage : Storage :=
  {| stored := {[ "tsCamera_settings" :=
                    JSON.stringify (JObject [("timestampEnabled", JBool true)]) ]};
     access_denied := false; quota_exceeded := true |}.

(** The page around a state, with the settings sheet closed, nothing
    downloaded and no timer running. *)
Definition freshPage (s : State) : Page :=
  {| app := s; settingsSheet_hidden := true; downloads := [];
     revokeTimeouts := []; overlayInterval := false |}.

(** A back camera with a torch. *)
Definition torchCamera : MediaStream :=
  {| stream_id := 1; videoTrack := Some HasTorch |}.

(** The page once [init] has run and the camera was granted, and the
    same page after a capture. *)
Definition startedPage (b : Build) : Page :=
  initPage (H := referencePlatform) b feb1 feb1 (MediaGranted torchCamera)
    (freshPage portraitPage).

Definition photoPage (b : Build) : Page :=
  handle (H := referencePlatform) b (CaptureClick feb1 true) (startedPage b).

(** The page after the user has typed a time that is no date. *)
Definition garbagePage : State :=
  set_customDateTime (JString "garbage") (set_timestampMode "custom" portraitPage).

(** A page opened later on the storage another page has left. *)
Definition laterPage (p : Page) : Page :=
  freshPage (loadedPage 1920 1080 390 844 (localStorage (host (app p)))).

(** A worker served from [https://camera.example/], a network that
    answers every request, one that answers none, and the cache an
    earlier version of the worker has left. *)
Definition sampleResolve (u : string) : string :=
  "https://camera.example/" +:+ (if String.eqb u "./" then "" else u).

Definition online : ServiceWorker.Network :=
  fun req => Some {| ServiceWorker.status := 200;
                     ServiceWorker.body := ServiceWorker.url req |}.

Definition offline : ServiceWorker.Network := fun _ => None.

Definition olderCaches : ServiceWorker.CacheStorage :=
  [("ts-camera-v2",
    {[ "https://camera.example/app.js" :=
         {| ServiceWorker.status := 200; ServiceWorker.body := "v2" |} ]})].


(** * Vocabulary of the properties *)

(** ** Orders *)

(** Lexicographic combination of two comparisons. *)
Definition thenCompare (c1 c2 : comparison) : comparison :=
  match c1 with
  | Eq => c2
  | _ => c1
  end.

(** ** Decimal renderings *)

(** What [String(n)] and [padStart(2, '0')] produce on the ranges of the
    date components. *)
Definition twoDigits (n : Z) : string :=
  String (digitChar (n / 10)) (String (digitChar (n mod 10)) "").

Definition fourDigits (n : Z) : string :=
  String (digitChar (n / 10 / 10 / 10 mod 10))
    (String (digitChar (n / 10 / 10 mod 10))
       (String (digitChar (n / 10 mod 10)) (String (digitChar (n mod 10)) ""))).

(** The number a string of decimal digits denotes. *)
Fixpoint decimalValue (s : string) : Z :=
  match s with
  | EmptyString => 0
  | String c rest =>
      (Z.of_N (N_of_ascii c) - 48) * 10 ^ Z.of_nat (String.length rest) + decimalValue rest
  end.

Definition isDigit (c : ascii) : bool :=
  ((48 <=? N_of_ascii c) && (N_of_ascii c <=? 57))%N.

(** [d] in the pattern stands for any decimal digit, every other
    character for itself. *)
Fixpoint matchesPattern (pattern s : string) : bool :=
  match pattern, s with
  | EmptyString, EmptyString => true
  | String p ps, String c cs =>
      (if Ascii.eqb p "d" then isDigit c else Ascii.eqb p c) && matchesPattern ps cs
  | _, _ => false
  end.

(** ** Capture *)

Definition frameReady (s : State) : bool :=
  negb ((video_videoWidth (dom s) =? 0) || (video_videoHeight (dom s) =? 0)).

(** Where an unmirrored frame point lands on the canvas: as it is, or
    turned a quarter clockwise into a canvas [vh] wide. *)
Definition sensorPlacement (rotated : bool) (vh : Z) (p : Z * Z) : Z * Z :=
  if rotated then (vh - snd p, fst p) else p.

Definition mirrorHorizontally (vw : Z) (p : Z * Z) : Z * Z := (vw - fst p, snd p).

Definition isFillText (op : DrawOp) : bool :=
  match op with
  | FillText _ _ _ _ => true
  | DrawVideo _ _ _ _ _ => false
  end.

(** ** Camera failures *)

Inductive FailureClass :=
| PermissionDenied
| NoDevice
| UnsupportedApi
| OtherFailure.

(** The class of a failed acquisition, by the name of the rejection. *)
Definition failureClass (media : MediaOutcome) : option FailureClass :=
  match media with
  | MediaGranted _ => None
  | MediaUnsupported => Some UnsupportedApi
  | MediaRejected err =>
      if String.eqb (err_name err) "NotAllowedError"
         || String.eqb (err_name err) "PermissionDeniedError"
      then Some PermissionDenied
      else if String.eqb (err_name err) "NotFoundError"
              || String.eqb (err_name err) "DevicesNotFoundError"
      then Some NoDevice
      else Some OtherFailure
  end.

Definition retryButton (text : string) : option RetryButton :=
  Some {| button_text := text; click_listeners := [CallStartCamera] |}.

(** The panel each class ends up with. *)
Definition failurePanel (c : FailureClass) : Overlay :=
  match c with
  | PermissionDenied =>
      {| overlay_title := "Camera access denied";
         overlay_message :=
           "Please allow camera access in your browser settings, then tap below to retry.";
         cameraRetryBtn := retryButton "Grant Camera Access" |}
  | NoDevice =>
      {| overlay_title := "No camera found";
         overlay_message := "No camera was detected on this device.";
         cameraRetryBtn := retryButton "Try Again" |}
  | UnsupportedApi =>
      {| overlay_title := "Camera not available";
         overlay_message :=
           "Your browser does not support camera access. Make sure you are using HTTPS or localhost.";
         cameraRetryBtn := None |}
  | OtherFailure =>
      {| overlay_title := "Camera error";
         overlay_message := "Unable to start the camera. Tap below to try again.";
         cameraRetryBtn := retryButton "Start Camera" |}
  end.

Definition buttonText (panel : Overlay) : option string :=
  option_map button_text (cameraRetryBtn panel).

(** ** Settings *)

Definition settingsTriple (s : State) : bool * string * JSValue :=
  (timestampEnabled (vars s), timestampMode (vars s), customDateTime (vars s)).

Definition isMode (m : string) : bool := String.eqb m "current" || String.eqb m "custom".

(** The record [saveSettings] serialises. *)
Definition savedRecord (s : State) : JSValue :=
  JObject [("timestampEnabled", JBool (timestampEnabled (vars s)));
           ("timestampMode", JString (timestampMode (vars s)));
           ("customDateTime", JString (customTimeInput_value (dom s)))].

(** The text the reference codec writes for a settings record. *)
Definition settingsText (enabled : bool) (mode custom : string) : string :=
  "{" +:+ JSON.QuoteJSONString "timestampEnabled" +:+ ":" +:+
  (if enabled then "true" else "false") +:+ "," +:+
  JSON.QuoteJSONString "timestampMode" +:+ ":" +:+ JSON.QuoteJSONString mode +:+ "," +:+
  JSON.QuoteJSONString "customDateTime" +:+ ":" +:+ JSON.QuoteJSONString custom +:+ "}".

Section Vocabulary.
Context `{Platform}.

(** The canvas [capturePhoto] has composed when it calls [toBlob]. *)
Definition composedCanvas (b : Build) (now : Z) (s : State) : Canvas :=
  let vw := video_videoWidth (dom s) in
  let vh := video_videoHeight (dom s) in
  let needsRotation :=
    (window_innerHeight (dom s) >? window_innerWidth (dom s)) && (vw >? vh) in
  let canvasW := if needsRotation then vh else vw in
  let canvasH := if needsRotation then vw else vh in
  let c := canvas_set_height canvasH (canvas_set_width canvasW (captureCanvas (dom s))) in
  let c := drawFrame needsRotation (facingMode (vars s)) canvasW vw vh c in
  let text := getTimestampText b now s in
  if String.eqb text "" then c else drawStamp b text canvasW canvasH c.

(** What [loadSettings] gets out of storage: the parsed text, when the
    storage can be read, holds a non-empty text under the key and the
    text parses. *)
Definition storedRecord (s : State) : option JSValue :=
  let st := localStorage (host s) in
  if access_denied st then None
  else
    match stored st !! "tsCamera_settings" with
    | None | Some "" => None
    | Some raw =>
        match JSON_parse raw with
        | inl data => Some data
        | inr _ => None
        end
    end.

(** The stored field: [undefined] when there is no record or the record
    has no such property. *)
Definition storedField (s : State) (key : string) : JSValue :=
  match storedRecord s with
  | Some (JObject props) => assoc key props
  | _ => JUndefined
  end.

End Vocabulary.

(** ** Camera, flash, preview and timers *)

Definition flipped (f : FacingMode) : FacingMode :=
  match f with
  | environment => user
  | user => environment
  end.

Definition hasTorch (stream : MediaStream) : bool :=
  match videoTrack stream with
  | Some HasTorch => true
  | _ => false
  end.

(** The URL that [URL.createObjectURL] hands out as its [k]-th. *)
Definition blobURL (k : Z) : string := "blob:" +:+ String_of_int k.

(** Every registered object URL is one that was handed out. *)
Definition urlsHandedOut (s : State) : Prop :=
  0 <= objectURL_count (host s) /\
  forall url blob,
    objectURLs (host s) !! url = Some blob ->
    exists k, 0 <= k < objectURL_count (host s) /\ url = blobURL k.

(** While a photo is held, the preview is open on exactly that photo. *)
Definition previewShowsPhoto (s : State) : Prop :=
  forall blob,
    capturedBlob (vars s) = Some blob ->
    previewOverlay_hidden (dom s) = false /\
    objectURLs (host s) !! previewImg_src (dom s) = Some blob.

(** Pending revocations are of URLs handed out, never of the one the
    preview of a held photo shows. *)
Definition timeoutsSpareThePreview (p : Page) : Prop :=
  Forall (fun url =>
            (exists k, 0 <= k < objectURL_count (host (app p)) /\ url = blobURL k) /\
            (capturedBlob (vars (app p)) <> None -> url <> previewImg_src (dom (app p))))
         (revokeTimeouts p).

Definition previewInvariant (p : Page) : Prop :=
  urlsHandedOut (app p) /\ previewShowsPhoto (app p) /\ timeoutsSpareThePreview p.

(** The flash is on only with a supported torch, the torch is supported
    only on a stream whose track has one, and the button shows the
    flash as it is. *)
Definition torchInvariant (s : State) : Prop :=
  (flashOn (vars s) = true -> torchSupported (vars s) = true) /\
  (torchSupported (vars s) = true ->
   exists stream, currentStream (vars s) = Some stream /\ hasTorch stream = true) /\
  flash_active (flashBtn (dom s)) = flashOn (vars s).

(** What [updateOverlay] writes for a text. *)
Definition overlayOf (text : string) : OverlayText :=
  {| textContent := text;
     style_display := if String.eqb text "" then "none" else "block" |}.

(** The page as the browser hands it to the script: the variables at
    their initial values, no object URL handed out, nothing pending. *)
Definition pageLoaded (p : Page) : Prop :=
  vars (app p) = initialVars /\
  objectURLs (host (app p)) = ∅ /\ objectURL_count (host (app p)) = 0 /\
  revokeTimeouts p = [] /\ downloads p = [].

Section Reachability.
Context `{Platform}.

(** The pages that [init] and the listeners can produce. *)
Inductive reachable (b : Build) : Page -> Prop :=
| reach_init now shown media p :
    pageLoaded p -> reachable b (initPage b now shown media p)
| reach_step e p : reachable b p -> reachable b (handle b e p).

(** The live overlay shows the text of the settings as they are, at the
    time of some refresh. *)
Definition overlayInvariant (p : Page) : Prop :=
  overlayInterval p = true /\
  exists now,
    timestampOverlay (dom (app p)) = overlayOf (getTimestampText LiveOverlayBuild now (app p)).

End Reachability.

(** What the invariants read of a state. *)
Definition resourceView (s : State) :=
  (capturedBlob (vars s), previewImg_src (dom s), previewOverlay_hidden (dom s),
   objectURLs (host s), objectURL_count (host s)).

Definition torchView (s : State) :=
  (flashOn (vars s), torchSupported (vars s), currentStream (vars s), flashBtn (dom s)).

Definition overlayView (s : State) :=
  (timestampEnabled (vars s), timestampMode (vars s), customDateTime (vars s),
   timestampOverlay (dom s)).

(** [previewInvariant] on what it reads: the held photo, the preview's
    URL and visibility, the URL registry with its counter, and the
    pending revocations. *)
Definition previewInvariantOn
    (cb : option Blob) (src : string) (hidden : bool)
    (urls : gmap string Blob) (count : Z) (pending : list string) : Prop :=
  (0 <= count /\
   forall url blob, urls !! url = Some blob ->
     exists k, 0 <= k < count /\ url = blobURL k) /\
  (forall blob, cb = Some blob -> hidden = false /\ urls !! src = Some blob) /\
  Forall (fun url => (exists k, 0 <= k < count /\ url = blobURL k) /\
                     (cb <> None -> url <> src)) pending.

Definition controlsView (s : State) :=
  (timestampToggle_checked (dom s), timeMode_value (dom s),
   customTimeRow_hidden (dom s), customTimeInput_value (dom s)).

(** What the user chose with a settings event. *)
Definition settingChosen `{Platform} (e : Event) (s : State) : Prop :=
  match e with
  | ToggleChange checked _ =>
      timestampEnabled (vars s) = checked /\ timestampToggle_checked (dom s) = checked
  | ModeChange value _ =>
      isMode value = true ->
      timestampMode (vars s) = value /\ timeMode_value (dom s) = value /\
      customTimeRow_hidden (dom s) = negb (String.eqb value "custom")
  | CustomTimeInput value _ =>
      value <> "" ->
      customDateTime (vars s) = JString value /\
      customTimeInput_value (dom s) = input_value_set (JString value)
  | _ => True
  end.


(** * Properties *)

(** ** Calendar arithmetic *)

Module TimeFacts.
Import Time.

(** The epoch, a leap day, the last day before the epoch and the two
    ends of the time range. *)
Example civil_epoch :
  (YearFromTime 0, MonthFromTime 0, DateFromTime 0) = (1970, 0, 1).
Proof. reflexivity. Qed.

Example civil_leap_day :
  (YearFromTime 1709164800000, MonthFromTime 1709164800000,
   DateFromTime 1709164800000) = (2024, 1, 29).
Proof. reflexivity. Qed.

Example civil_before_epoch :
  (YearFromTime (-1), MonthFromTime (-1), DateFromTime (-1),
   HourFromTime (-1), MinFromTime (-1), SecFromTime (-1)) = (1969, 11, 31, 23, 59, 59).
Proof. reflexivity. Qed.

Example civil_range_ends :
  (YearFromTime 8640000000000000, MonthFromTime 8640000000000000,
   DateFromTime 8640000000000000) = (275760, 8, 13) /\
  (YearFromTime (-8640000000000000), MonthFromTime (-8640000000000000),
   DateFromTime (-8640000000000000)) = (-271821, 3, 20).
Proof. split; reflexivity. Qed.

Example century_years :
  (DaysInYear 1900, DaysInYear 2000, DaysInYear 2023, DaysInYear 2024) = (365, 366, 365, 366).
Proof. reflexivity. Qed.

Lemma thenCompare_assoc a b c :
  thenCompare (thenCompare a b) c = thenCompare a (thenCompare b c).
Proof. destruct a; reflexivity. Qed.

(** Settles [c = (a ?= b)] once [c] has been computed or is a comparison
    of shifted operands. *)
Ltac compare_cases :=
  match goal with
  | |- (_ ?= _) = (?a ?= ?b) =>
      destruct (Z.compare_spec a b);
      [ apply Z.compare_eq_iff | apply Z.compare_lt_iff | apply Z.compare_gt_iff ]; lia
  | |- Lt = (_ ?= _) => symmetry; apply Z.compare_lt_iff; lia
  | |- Gt = (_ ?= _) => symmetry; apply Z.compare_gt_iff; lia
  | |- Eq = (_ ?= _) => symmetry; apply Z.compare_eq_iff; lia
  end.

(** Comparing two numbers written with a low digit in radix [r]. *)
Lemma radix_compare r a1 b1 a2 b2 :
  0 <= b1 < r -> 0 <= b2 < r ->
  (a1 * r + b1 ?= a2 * r + b2) = thenCompare (a1 ?= a2) (b1 ?= b2).
Proof.
  intros H1 H2.
  destruct (Z.compare_spec a1 a2) as [-> | Hlt | Hgt]; cbn [thenCompare].
  - destruct (Z.compare_spec b1 b2) as [-> | Hb | Hb].
    + apply Z.compare_refl.
    + apply Z.compare_lt_iff. lia.
    + apply Z.compare_gt_iff. lia.
  - apply Z.compare_lt_iff. nia.
  - apply Z.compare_gt_iff. nia.
Qed.

Lemma Day_in_year t :
  DayFromYear (YearFromTime t) <= Day t < DayFromYear (YearFromTime t + 1).
Proof.
  unfold YearFromTime. generalize (Day t). intros d. cbv zeta.
  unfold DayFromYear.
  destruct (Z.ltb_spec d
    (365 * (1970 + 400 * d / 146097 - 1970) + (1970 + 400 * d / 146097 - 1969) / 4
     - (1970 + 400 * d / 146097 - 1901) / 100 + (1970 + 400 * d / 146097 - 1601) / 400));
  [| destruct (Z.leb_spec
    (365 * (1970 + 400 * d / 146097 + 1 - 1970) + (1970 + 400 * d / 146097 + 1 - 1969) / 4
     - (1970 + 400 * d / 146097 + 1 - 1901) / 100 + (1970 + 400 * d / 146097 + 1 - 1601) / 400) d)];
  Z.div_mod_to_equations; lia.
Qed.

(** The defining property of [YearFromTime] in ECMA-262. *)
Lemma YearFromTime_spec t :
  TimeFromYear (YearFromTime t) <= t < TimeFromYear (YearFromTime t + 1).
Proof.
  pose proof (Day_in_year t) as Hd. unfold TimeFromYear, Day, msPerDay in *.
  Z.div_mod_to_equations. lia.
Qed.

Lemma YearFromTime_largest t y :
  TimeFromYear y <= t -> y <= YearFromTime t.
Proof.
  intros Hy. pose proof (YearFromTime_spec t) as [_ Hlt].
  destruct (Z.le_gt_cases y (YearFromTime t)) as [Hle | Hgt]; [exact Hle | exfalso].
  assert (Hm : DayFromYear (YearFromTime t + 1) <= DayFromYear y).
  { unfold DayFromYear. Z.div_mod_to_equations. lia. }
  unfold TimeFromYear, msPerDay in *. lia.
Qed.

Lemma DayFromYear_succ y : DayFromYear (y + 1) = DayFromYear y + DaysInYear y.
Proof.
  unfold DayFromYear, DaysInYear.
  destruct (Z.eqb_spec (y mod 4) 0), (Z.eqb_spec (y mod 100) 0),
    (Z.eqb_spec (y mod 400) 0); cbn [negb]; Z.div_mod_to_equations; lia.
Qed.

Lemma DayFromYear_mono a b : a <= b -> DayFromYear a <= DayFromYear b.
Proof. intros Hab. unfold DayFromYear. Z.div_mod_to_equations. lia. Qed.

Lemma InLeapYear_range t : 0 <= InLeapYear t <= 1.
Proof. unfold InLeapYear. destruct (_ =? _); lia. Qed.

Lemma DayWithinYear_range t : 0 <= DayWithinYear t < 365 + InLeapYear t.
Proof.
  pose proof (Day_in_year t) as Hd. rewrite DayFromYear_succ in Hd.
  unfold DayWithinYear, InLeapYear. unfold DaysInYear in *.
  destruct (negb _); [cbn; lia |]. destruct (negb _); [cbn; lia |].
  destruct (negb _); cbn; lia.
Qed.

Lemma MonthFromTime_range t : 0 <= MonthFromTime t <= 11.
Proof.
  unfold MonthFromTime. cbv zeta.
  repeat match goal with |- context [if ?c then _ else _] => destruct c end; lia.
Qed.

Lemma DateFromTime_range t : 1 <= DateFromTime t <= 31.
Proof.
  pose proof (DayWithinYear_range t) as Hd. pose proof (InLeapYear_range t) as Hl.
  unfold DateFromTime, MonthFromTime. cbv zeta.
  repeat match goal with
         | |- context [if ?a <? ?b then _ else _] => destruct (Z.ltb_spec a b)
         end; lia.
Qed.

Lemma HourFromTime_range t : 0 <= HourFromTime t <= 23.
Proof. unfold HourFromTime. Z.div_mod_to_equations. lia. Qed.
Lemma MinFromTime_range t : 0 <= MinFromTime t <= 59.
Proof. unfold MinFromTime. Z.div_mod_to_equations. lia. Qed.
Lemma SecFromTime_range t : 0 <= SecFromTime t <= 59.
Proof. unfold SecFromTime. Z.div_mod_to_equations. lia. Qed.

(** Within one year, (month, date) orders as the day of the year. *)
Lemma month_date_compare t1 t2 :
  YearFromTime t1 = YearFromTime t2 ->
  thenCompare (MonthFromTime t1 ?= MonthFromTime t2) (DateFromTime t1 ?= DateFromTime t2)
  = (DayWithinYear t1 ?= DayWithinYear t2).
Proof.
  intros Hy.
  pose proof (DayWithinYear_range t1) as Hd1. pose proof (DayWithinYear_range t2) as Hd2.
  assert (Hl : InLeapYear t1 = InLeapYear t2) by (unfold InLeapYear; rewrite Hy; reflexivity).
  pose proof (InLeapYear_range t2) as Hr.
  unfold DateFromTime, MonthFromTime. cbv zeta. rewrite Hl in *.
  remember (DayWithinYear t1) as d1 eqn:E1.
  remember (DayWithinYear t2) as d2 eqn:E2.
  remember (InLeapYear t2) as l eqn:El.
  clear - Hd1 Hd2 Hr.
  repeat match goal with
         | |- context [if ?a <? ?b then _ else _] => destruct (Z.ltb_spec a b)
         end; cbn [Z.compare Pos.compare Pos.compare_cont thenCompare];
  try lia; compare_cases.
Qed.

(** Calendar dates order as day numbers. *)
Lemma calendar_compare t1 t2 :
  thenCompare (YearFromTime t1 ?= YearFromTime t2)
    (thenCompare (MonthFromTime t1 ?= MonthFromTime t2)
       (DateFromTime t1 ?= DateFromTime t2))
  = (Day t1 ?= Day t2).
Proof.
  pose proof (Day_in_year t1) as H1. pose proof (Day_in_year t2) as H2.
  destruct (Z.compare_spec (YearFromTime t1) (YearFromTime t2)) as [Heq | Hlt | Hgt];
    cbn [thenCompare].
  - rewrite month_date_compare by exact Heq. unfold DayWithinYear. rewrite Heq.
    destruct (Z.compare_spec (Day t1) (Day t2));
      [ apply Z.compare_eq_iff | apply Z.compare_lt_iff | apply Z.compare_gt_iff ]; lia.
  - symmetry. apply Z.compare_lt_iff.
    pose proof (DayFromYear_mono (YearFromTime t1 + 1) (YearFromTime t2)). lia.
  - symmetry. apply Z.compare_gt_iff.
    pose proof (DayFromYear_mono (YearFromTime t2 + 1) (YearFromTime t1)). lia.
Qed.

(** The whole broken-down time orders as the count of seconds. *)
Lemma clock_compare t1 t2 :
  thenCompare (Day t1 ?= Day t2)
    (thenCompare (HourFromTime t1 ?= HourFromTime t2)
       (thenCompare (MinFromTime t1 ?= MinFromTime t2)
          (SecFromTime t1 ?= SecFromTime t2)))
  = (t1 / msPerSecond ?= t2 / msPerSecond).
Proof.
  assert (Hs : forall t, t / msPerSecond = t / msPerMinute * 60 + SecFromTime t).
  { intros t. unfold SecFromTime, msPerSecond, msPerMinute. Z.div_mod_to_equations. lia. }
  assert (Hm : forall t, t / msPerMinute = t / msPerHour * 60 + MinFromTime t).
  { intros t. unfold MinFromTime, msPerHour, msPerMinute. Z.div_mod_to_equations. lia. }
  assert (Hh : forall t, t / msPerHour = Day t * 24 + HourFromTime t).
  { intros t. unfold HourFromTime, Day, msPerHour, msPerDay. Z.div_mod_to_equations. lia. }
  pose proof (SecFromTime_range t1). pose proof (SecFromTime_range t2).
  pose proof (MinFromTime_range t1). pose proof (MinFromTime_range t2).
  pose proof (HourFromTime_range t1). pose proof (HourFromTime_range t2).
  rewrite (Hs t1), (Hs t2), radix_compare by lia.
  rewrite (Hm t1), (Hm t2), radix_compare by lia.
  rewrite (Hh t1), (Hh t2), radix_compare by lia.
  rewrite !thenCompare_assoc. reflexivity.
Qed.

End TimeFacts.

(** ** Decimal rendering *)

Module StringFacts.
Import TimeFacts.

Ltac digit_cases d :=
  let H := fresh in
  assert (H : d = 0 \/ d = 1 \/ d = 2 \/ d = 3 \/ d = 4 \/ d = 5 \/ d = 6 \/ d = 7
              \/ d = 8 \/ d = 9) by lia;
  repeat (destruct H as [H | H]; [rewrite H |]); [.. | rewrite H].

Lemma isDigit_digitChar d : 0 <= d <= 9 -> isDigit (digitChar d) = true.
Proof. intros Hd. digit_cases d; reflexivity. Qed.

Lemma digitChar_compare a b :
  0 <= a <= 9 -> 0 <= b <= 9 -> Ascii.compare (digitChar a) (digitChar b) = (a ?= b).
Proof. intros Ha Hb. digit_cases a; digit_cases b; reflexivity. Qed.

Lemma length_append (a b : string) :
  String.length (a +:+ b) = (String.length a + String.length b)%nat.
Proof.
  induction a as [| c a IH]; [reflexivity |].
  change (S (String.length (a +:+ b)) = S (String.length a + String.length b)).
  rewrite IH. reflexivity.
Qed.

Lemma compare_String c1 c2 s1 s2 :
  String.compare (String c1 s1) (String c2 s2)
  = thenCompare (Ascii.compare c1 c2) (String.compare s1 s2).
Proof. cbn. destruct (Ascii.compare c1 c2); reflexivity. Qed.

Lemma String_of_int_one_digit n :
  0 <= n <= 9 -> String_of_int n = String (digitChar n) "".
Proof.
  intros Hn. unfold String_of_int.
  destruct (Z.ltb_spec n 0); [lia |]. cbn [decimalDigits].
  destruct (Z.ltb_spec n 10); [| lia]. rewrite Z.mod_small by lia. reflexivity.
Qed.

Lemma String_of_int_two_digits n :
  10 <= n <= 99 -> String_of_int n = twoDigits n.
Proof.
  intros Hn. unfold String_of_int, twoDigits.
  destruct (Z.ltb_spec n 0); [lia |].
  pose proof (Z.log2_le_mono 10 n ltac:(lia)) as Hl. change (Z.log2 10) with 3 in Hl.
  destruct (Z.to_nat (Z.log2 n)) as [| k] eqn:Hk; [lia |].
  cbn [decimalDigits].
  destruct (Z.ltb_spec n 10); [lia |].
  destruct (Z.ltb_spec (n / 10) 10); [| Z.div_mod_to_equations; lia].
  rewrite (Z.mod_small (n / 10)) by (Z.div_mod_to_equations; lia). reflexivity.
Qed.

Lemma String_of_int_four_digits n :
  1000 <= n <= 9999 -> String_of_int n = fourDigits n.
Proof.
  intros Hn. unfold String_of_int, fourDigits.
  destruct (Z.ltb_spec n 0); [lia |].
  pose proof (Z.log2_le_mono 1000 n ltac:(lia)) as Hl. change (Z.log2 1000) with 9 in Hl.
  destruct (Z.to_nat (Z.log2 n)) as [| [| [| k]]] eqn:Hk; [lia .. |].
  cbn [decimalDigits].
  destruct (Z.ltb_spec n 10); [lia |].
  destruct (Z.ltb_spec (n / 10) 10); [Z.div_mod_to_equations; lia |].
  destruct (Z.ltb_spec (n / 10 / 10) 10); [Z.div_mod_to_equations; lia |].
  destruct (Z.ltb_spec (n / 10 / 10 / 10) 10); [| Z.div_mod_to_equations; lia].
  reflexivity.
Qed.

Lemma padStart_two_digits n :
  0 <= n <= 99 -> padStart (String_of_int n) 2 "0" = twoDigits n.
Proof.
  intros Hn. destruct (Z.le_gt_cases n 9) as [Hs | Hb].
  - rewrite String_of_int_one_digit by lia. unfold twoDigits.
    rewrite Z.div_small, Z.mod_small by lia. reflexivity.
  - rewrite String_of_int_two_digits by lia. reflexivity.
Qed.

Lemma twoDigits_compare a b :
  0 <= a <= 99 -> 0 <= b <= 99 ->
  String.compare (twoDigits a) (twoDigits b) = (a ?= b).
Proof.
  intros Ha Hb. unfold twoDigits. rewrite !compare_String.
  rewrite !digitChar_compare by (Z.div_mod_to_equations; lia).
  cbn [String.compare]. rewrite (Z.div_mod a 10) at 3 by lia.
  rewrite (Z.div_mod b 10) at 3 by lia.
  rewrite !(Z.mul_comm 10). rewrite radix_compare by (Z.div_mod_to_equations; lia).
  destruct (a / 10 ?= b / 10), (a mod 10 ?= b mod 10); reflexivity.
Qed.

Lemma fourDigits_compare a b :
  1000 <= a <= 9999 -> 1000 <= b <= 9999 ->
  String.compare (fourDigits a) (fourDigits b) = (a ?= b).
Proof.
  intros Ha Hb. unfold fourDigits. rewrite !compare_String.
  rewrite !digitChar_compare by (Z.div_mod_to_equations; lia).
  cbn [String.compare].
  assert (Hsplit : forall n, n = n / 10 * 10 + n mod 10).
  { intros n. Z.div_mod_to_equations. lia. }
  rewrite (Hsplit a) at 5. rewrite (Hsplit b) at 5.
  rewrite radix_compare by (Z.div_mod_to_equations; lia).
  rewrite (Hsplit (a / 10)) at 4. rewrite (Hsplit (b / 10)) at 4.
  rewrite radix_compare by (Z.div_mod_to_equations; lia).
  rewrite (Hsplit (a / 10 / 10)) at 3. rewrite (Hsplit (b / 10 / 10)) at 3.
  rewrite radix_compare by (Z.div_mod_to_equations; lia).
  rewrite (Z.mod_small (a / 10 / 10 / 10)) by (Z.div_mod_to_equations; lia).
  rewrite (Z.mod_small (b / 10 / 10 / 10)) by (Z.div_mod_to_equations; lia).
  destruct (a / 10 / 10 / 10 ?= b / 10 / 10 / 10), (a / 10 / 10 mod 10 ?= b / 10 / 10 mod 10),
    (a / 10 mod 10 ?= b / 10 mod 10), (a mod 10 ?= b mod 10); reflexivity.
Qed.

Lemma digitChar_value d : 0 <= d <= 9 -> Z.of_N (N_of_ascii (digitChar d)) - 48 = d.
Proof. intros Hd. digit_cases d; reflexivity. Qed.

Lemma decimalDigits_value fuel : forall n acc,
  0 <= n < 10 ^ Z.of_nat fuel ->
  decimalValue (decimalDigits fuel n acc)
  = n * 10 ^ Z.of_nat (String.length acc) + decimalValue acc.
Proof.
  induction fuel as [| fuel IH]; intros n acc Hn.
  - cbn in Hn. assert (n = 0) by lia. subst n. cbn [decimalDigits]. lia.
  - cbn [decimalDigits].
    assert (Hd : 0 <= n mod 10 <= 9) by (Z.div_mod_to_equations; lia).
    destruct (Z.ltb_spec n 10) as [Hs | Hb].
    + cbn [decimalValue]. rewrite digitChar_value by exact Hd.
      rewrite Z.mod_small by lia. reflexivity.
    + rewrite IH.
      * cbn [decimalValue String.length]. rewrite digitChar_value by exact Hd.
        rewrite Nat2Z.inj_succ, Z.pow_succ_r by lia.
        rewrite (Z.div_mod n 10) at 3 by lia. ring.
      * rewrite Nat2Z.inj_succ, Z.pow_succ_r in Hn by lia.
        Z.div_mod_to_equations. lia.
Qed.

Lemma enough_fuel n : 0 <= n -> n < 10 ^ Z.of_nat (S (Z.to_nat (Z.log2 n))).
Proof.
  intros Hn. rewrite Nat2Z.inj_succ, Z2Nat.id by apply Z.log2_nonneg.
  destruct (Z.eq_dec n 0) as [-> | Hz]; [reflexivity |].
  pose proof (Z.log2_spec n ltac:(lia)) as [_ Hlt].
  pose proof (Z.log2_nonneg n).
  eapply Z.lt_le_trans; [exact Hlt |].
  apply Z.pow_le_mono_l. lia.
Qed.

(** [String(n)] writes [n]: the digits denote it, behind a minus sign
    when it is negative. *)
Lemma String_of_int_value n :
  String_of_int n =
    (if n <? 0 then String "-" (String_of_int (- n)) else String_of_int n) /\
  decimalValue (String_of_int (Z.abs n)) = Z.abs n.
Proof.
  split.
  - unfold String_of_int. destruct (Z.ltb_spec n 0) as [Hneg | Hpos]; [| reflexivity].
    destruct (Z.ltb_spec (- n) 0); [lia | reflexivity].
  - unfold String_of_int. destruct (Z.ltb_spec (Z.abs n) 0); [lia |].
    rewrite decimalDigits_value by (split; [lia | apply enough_fuel; lia]).
    cbn. lia.
Qed.

(** Equally long prefixes are compared first. *)
Lemma compare_append a1 a2 r1 r2 :
  String.length a1 = String.length a2 ->
  String.compare (a1 +:+ r1) (a2 +:+ r2)
  = thenCompare (String.compare a1 a2) (String.compare r1 r2).
Proof.
  revert a2. induction a1 as [| c1 a1 IH]; intros [| c2 a2] Hlen; try discriminate.
  - reflexivity.
  - change (String.compare (String c1 (a1 +:+ r1)) (String c2 (a2 +:+ r2))
            = thenCompare (String.compare (String c1 a1) (String c2 a2))
                (String.compare r1 r2)).
    rewrite !compare_String, IH by (injection Hlen; auto).
    rewrite thenCompare_assoc. reflexivity.
Qed.

End StringFacts.

(** ** The reference codec reads back the settings record *)

Module JSONFacts.
Import JSON.

Lemma append_assoc (a b c : string) : (a +:+ b) +:+ c = a +:+ (b +:+ c).
Proof.
  induction a as [| x a IH]; [reflexivity |].
  change (String x ((a +:+ b) +:+ c) = String x (a +:+ (b +:+ c))).
  rewrite IH. reflexivity.
Qed.

Lemma parseChars_quoteChar c rest :
  parseChars (quoteChar c +:+ rest) = consChar c (parseChars rest).
Proof. destruct c as [[] [] [] [] [] [] [] []]; reflexivity. Qed.

Lemma parseChars_quoteChars s rest :
  parseChars (quoteChars s +:+ rest) = Some (s, rest).
Proof.
  induction s as [| c s IH]; [reflexivity |].
  change (quoteChars (String c s)) with (quoteChar c +:+ quoteChars s).
  rewrite append_assoc, parseChars_quoteChar, IH. reflexivity.
Qed.

Lemma parseValue_string fuel s rest :
  parseValue (S fuel) (QuoteJSONString s +:+ rest) = Some (JString s, rest).
Proof.
  change (parseValue (S fuel) (QuoteJSONString s +:+ rest))
    with (match parseChars (quoteChars s +:+ rest) with
          | Some (str, rest) => Some (JString str, rest)
          | None => None
          end).
  rewrite parseChars_quoteChars. reflexivity.
Qed.

Lemma parseValue_bool fuel (b : bool) rest :
  parseValue (S fuel) ((if b then "true" else "false") +:+ rest) = Some (JBool b, rest).
Proof. destruct b; reflexivity. Qed.

(** A member [key:value] followed by [sep], which is [,] or [}]. *)
Lemma parseMembers_member fuel key value v (sep : ascii) rest acc :
  (forall tail, parseValue fuel (value +:+ tail) = Some (v, tail)) ->
  parseMembers (S fuel) (QuoteJSONString key +:+ ":" +:+ value +:+ String sep rest) acc =
  match skipWhitespace (String sep rest) with
  | String "," rest' => parseMembers fuel rest' (setProperty key v acc)
  | String "}" rest' => Some (JObject (setProperty key v acc), rest')
  | _ => None
  end.
Proof.
  intros Hvalue.
  change (parseMembers (S fuel) (QuoteJSONString key +:+ ":" +:+ value +:+ String sep rest) acc)
    with (match parseChars (quoteChars key +:+ ":" +:+ value +:+ String sep rest) with
          | None => None
          | Some (key, rest) =>
              match skipWhitespace rest with
              | String ":" rest =>
                  match parseValue fuel rest with
                  | None => None
                  | Some (v, rest) =>
                      match skipWhitespace rest with
                      | String "," rest => parseMembers fuel rest (setProperty key v acc)
                      | String "}" rest => Some (JObject (setProperty key v acc), rest)
                      | _ => None
                      end
                  end
              | _ => None
              end
          end).
  rewrite parseChars_quoteChars.
  change (skipWhitespace (":" +:+ value +:+ String sep rest))
    with (String ":" (value +:+ String sep rest)).
  cbv iota. rewrite Hvalue. reflexivity.
Qed.

Lemma parseMembers_next fuel key value v rest acc :
  (forall tail, parseValue fuel (value +:+ tail) = Some (v, tail)) ->
  parseMembers (S fuel) (QuoteJSONString key +:+ ":" +:+ value +:+ "," +:+ rest) acc =
  parseMembers fuel rest (setProperty key v acc).
Proof. intros Hvalue. apply (parseMembers_member fuel key value v "," rest acc Hvalue). Qed.

Lemma parseMembers_last fuel key value v rest acc :
  (forall tail, parseValue fuel (value +:+ tail) = Some (v, tail)) ->
  parseMembers (S fuel) (QuoteJSONString key +:+ ":" +:+ value +:+ "}" +:+ rest) acc =
  Some (JObject (setProperty key v acc), rest).
Proof. intros Hvalue. apply (parseMembers_member fuel key value v "}" rest acc Hvalue). Qed.

Lemma stringify_settings enabled mode custom :
  stringify (JObject [("timestampEnabled", JBool enabled);
                      ("timestampMode", JString mode);
                      ("customDateTime", JString custom)])
  = settingsText enabled mode custom.
Proof.
  change (stringify (JObject [("timestampEnabled", JBool enabled);
                              ("timestampMode", JString mode);
                              ("customDateTime", JString custom)]))
    with ("{" +:+
          (((QuoteJSONString "timestampEnabled" +:+ ":" +:+ stringify (JBool enabled))
            +:+ "," +:+ QuoteJSONString "timestampMode" +:+ ":" +:+ QuoteJSONString mode)
           +:+ "," +:+ QuoteJSONString "customDateTime" +:+ ":" +:+ QuoteJSONString custom)
          +:+ "}").
  unfold settingsText. rewrite !append_assoc.
  destruct enabled; reflexivity.
Qed.

Lemma parse_settings enabled mode custom :
  parse (settingsText enabled mode custom)
  = inl (JObject [("timestampEnabled", JBool enabled);
                  ("timestampMode", JString mode);
                  ("customDateTime", JString custom)]).
Proof.
  unfold parse.
  assert (Hfuel : exists fuel,
            (2 * String.length (settingsText enabled mode custom) + 2 = 5 + fuel)%nat).
  { unfold settingsText.
    change (String.length ("{" +:+ QuoteJSONString "timestampEnabled" +:+ ?x))
      with (S (S (String.length (quoteChars "timestampEnabled" +:+ x)))).
    set (n := String.length _). exists (2 * n + 1)%nat. lia. }
  destruct Hfuel as [fuel ->].
  change (5 + fuel)%nat with (S (S (S (S (S fuel))))).
  unfold settingsText.
  change (parseValue (S (S (S (S (S fuel))))) ("{" +:+ QuoteJSONString "timestampEnabled" +:+ ?x))
    with (parseMembers (S (S (S (S fuel)))) (QuoteJSONString "timestampEnabled" +:+ x) []).
  rewrite (parseMembers_next _ "timestampEnabled" _ (JBool enabled)) by apply parseValue_bool.
  rewrite (parseMembers_next _ "timestampMode" _ (JString mode)) by apply parseValue_string.
  change "}" with ("}" +:+ "").
  rewrite (parseMembers_last _ "customDateTime" _ (JString custom)) by apply parseValue_string.
  reflexivity.
Qed.

End JSONFacts.

Section CaptureProperties.
Context `{Platform}.

(** ** Capture *)

Lemma capturePhoto_not_ready b now encoded s :
  frameReady s = false -> capturePhoto b now encoded s = s.
Proof.
  unfold frameReady, capturePhoto. intros Hr.
  apply negb_false_iff in Hr. rewrite Hr. reflexivity.
Qed.

Lemma capturePhoto_no_blob b now s :
  frameReady s = true ->
  capturePhoto b now false s = set_captureCanvas (composedCanvas b now s) s.
Proof.
  unfold frameReady, capturePhoto. intros Hr.
  apply negb_true_iff in Hr. rewrite Hr. reflexivity.
Qed.

Lemma capturePhoto_blob b now s :
  frameReady s = true ->
  let c := composedCanvas b now s in
  let blob := {| blob_type := "image/jpeg"; blob_quality := jpegQuality;
                 blob_width := canvas_width c; blob_height := canvas_height c;
                 blob_image := bitmap c |} in
  let s1 := set_capturedBlob (Some blob) (set_captureCanvas c s) in
  capturePhoto b now true s =
  set_previewOverlay_hidden false
    (set_previewImg_src (fst (URL_createObjectURL blob s1))
       (snd (URL_createObjectURL blob s1))).
Proof.
  unfold frameReady, capturePhoto. intros Hr.
  apply negb_true_iff in Hr. rewrite Hr. reflexivity.
Qed.

Lemma frameReady_iff s :
  frameReady s = true <->
  video_videoWidth (dom s) <> 0 /\ video_videoHeight (dom s) <> 0.
Proof.
  unfold frameReady. rewrite negb_true_iff, orb_false_iff, !Z.eqb_neq. tauto.
Qed.

Lemma composedCanvas_size b now s :
  let vw := video_videoWidth (dom s) in
  let vh := video_videoHeight (dom s) in
  let portrait := window_innerHeight (dom s) >? window_innerWidth (dom s) in
  (canvas_width (composedCanvas b now s), canvas_height (composedCanvas b now s)) =
  if portrait && (vw >? vh) then (vh, vw) else (vw, vh).
Proof.
  cbv zeta. unfold composedCanvas.
  destruct (String.eqb _ _), (_ && _), (facingMode (vars s)); reflexivity.
Qed.


Lemma capturePhoto_canvas b now encoded s :
  frameReady s = true ->
  captureCanvas (dom (capturePhoto b now encoded s)) = composedCanvas b now s.
Proof.
  intros Hr. destruct encoded.
  - rewrite capturePhoto_blob by exact Hr. reflexivity.
  - rewrite capturePhoto_no_blob by exact Hr. reflexivity.
Qed.

Lemma capturePhoto_capturedBlob b now s :
  frameReady s = true ->
  let c := composedCanvas b now s in
  capturedBlob (vars (capturePhoto b now true s)) =
  Some {| blob_type := "image/jpeg"; blob_quality := jpegQuality;
          blob_width := canvas_width c; blob_height := canvas_height c;
          blob_image := bitmap c |}.
Proof. intros Hr. rewrite capturePhoto_blob by exact Hr. reflexivity. Qed.

(** C1: with a ready frame, the canvas and the exported blob measure
    height x width when the device is portrait and the frame landscape,
    and width x height otherwise, whatever the facing mode. *)
Theorem capturePhoto_exports_corrected_dimensions (b : Build) (now : Z) (s : State) :
  video_videoWidth (dom s) <> 0 ->
  video_videoHeight (dom s) <> 0 ->
  let vw := video_videoWidth (dom s) in
  let vh := video_videoHeight (dom s) in
  let portrait := window_innerHeight (dom s) >? window_innerWidth (dom s) in
  let expected := if portrait && (vw >? vh) then (vh, vw) else (vw, vh) in
  (exists blob,
      capturedBlob (vars (capturePhoto b now true s)) = Some blob /\
      (blob_width blob, blob_height blob) = expected) /\
  (forall encoded,
      let c := captureCanvas (dom (capturePhoto b now encoded s)) in
      (canvas_width c, canvas_height c) = expected).
Proof.
  intros Hw Hh vw vh portrait expected.
  assert (Hr : frameReady s = true) by (apply frameReady_iff; split; assumption).
  split.
  - eexists. split.
    + apply capturePhoto_capturedBlob, Hr.
    + cbn [blob_width blob_height]. apply composedCanvas_size.
  - intros encoded c. subst c. rewrite capturePhoto_canvas by exact Hr.
    apply composedCanvas_size.
Qed.

(** ** Mirroring *)

(** C3: the frame is drawn through a transform that is the unmirrored
    placement (identity, or the quarter turn when rotation applies)
    composed with a horizontal flip of the frame exactly when the facing
    mode is [user]; the transform reverses orientation in that case only. *)
Theorem capturePhoto_mirrors_front_camera_only
    (b : Build) (now : Z) (encoded : bool) (s : State) :
  video_videoWidth (dom s) <> 0 ->
  video_videoHeight (dom s) <> 0 ->
  let vw := video_videoWidth (dom s) in
  let vh := video_videoHeight (dom s) in
  let rotated := (window_innerHeight (dom s) >? window_innerWidth (dom s)) && (vw >? vh) in
  exists st rest,
    bitmap (captureCanvas (dom (capturePhoto b now encoded s))) =
      DrawVideo st 0 0 vw vh :: rest /\
    (forall p, applyMatrix (ctm st) p =
       sensorPlacement rotated vh
         (match facingMode (vars s) with
          | user => mirrorHorizontally vw p
          | environment => p
          end)) /\
    determinant (ctm st) =
      match facingMode (vars s) with
      | user => -1
      | environment => 1
      end.
Proof.
  intros Hw Hh vw vh rotated.
  assert (Hr : frameReady s = true) by (apply frameReady_iff; split; assumption).
  rewrite capturePhoto_canvas by exact Hr.
  unfold composedCanvas. fold vw vh rotated.
  destruct (String.eqb _ _), rotated, (facingMode (vars s));
    (eexists; eexists; split; [reflexivity |]);
    (split; [intros [x y]; unfold applyMatrix, sensorPlacement, mirrorHorizontally;
             cbn; f_equal; ring
            | reflexivity]).
Qed.

(** ** Timestamp text *)

Lemma getTimestampText_disabled b now s :
  timestampEnabled (vars s) = false -> getTimestampText b now s = "".
Proof. unfold getTimestampText. intros ->. reflexivity. Qed.

Lemma composedCanvas_no_text b now s :
  getTimestampText b now s = "" ->
  existsb isFillText (bitmap (composedCanvas b now s)) = false.
Proof.
  unfold composedCanvas. intros ->.
  destruct (_ && _), (facingMode (vars s)); reflexivity.
Qed.

(** C5: with the timestamp disabled, [getTimestampText] is empty whatever
    the mode and custom time, and a capture draws no text: neither the
    canvas nor the exported blob holds a [fillText]. *)
Theorem disabled_timestamp_draws_no_text (b : Build) (now : Z) (s : State) :
  timestampEnabled (vars s) = false ->
  getTimestampText b now s = "" /\
  (frameReady s = true ->
   (forall encoded,
      existsb isFillText (bitmap (captureCanvas (dom (capturePhoto b now encoded s)))) = false) /\
   (exists blob,
      capturedBlob (vars (capturePhoto b now true s)) = Some blob /\
      existsb isFillText (blob_image blob) = false)).
Proof.
  intros Hoff. pose proof (getTimestampText_disabled b now s Hoff) as Htext.
  split; [exact Htext |]. intros Hr. split.
  - intros encoded. rewrite capturePhoto_canvas by exact Hr.
    apply composedCanvas_no_text, Htext.
  - eexists. split; [apply capturePhoto_capturedBlob, Hr |].
    cbn [blob_image]. apply composedCanvas_no_text, Htext.
Qed.

(** The composed canvas holds the whole video frame, drawn first. *)
Lemma composedCanvas_frame b now s :
  exists st rest,
    bitmap (composedCanvas b now s) =
      DrawVideo st 0 0 (video_videoWidth (dom s)) (video_videoHeight (dom s)) :: rest.
Proof.
  unfold composedCanvas.
  destruct (String.eqb _ _), (_ && _), (facingMode (vars s));
    eexists; eexists; reflexivity.
Qed.

(** C7: a successful capture yields a JPEG blob of quality 0.92 that is
    the encoding of the capture canvas: it has the canvas's width, height
    and picture, and that picture starts with the video frame; the blob
    is what the preview shows.  When the frame is not ready or the
    encoder delivers nothing, the variables (so [capturedBlob]), the
    preview, the camera overlay and the console are as before. *)
Theorem capturePhoto_jpeg_or_silent (b : Build) (now : Z) (encoded : bool) (s : State) :
  let s' := capturePhoto b now encoded s in
  (frameReady s = true -> encoded = true ->
   exists blob,
     capturedBlob (vars s') = Some blob /\
     blob_type blob = "image/jpeg" /\
     blob_quality blob = {| numerator := 92; denominator := 100 |} /\
     blob_width blob = canvas_width (captureCanvas (dom s')) /\
     blob_height blob = canvas_height (captureCanvas (dom s')) /\
     blob_image blob = bitmap (captureCanvas (dom s')) /\
     (exists st rest,
        blob_image blob =
          DrawVideo st 0 0 (video_videoWidth (dom s)) (video_videoHeight (dom s)) :: rest) /\
     objectURLs (host s') !! previewImg_src (dom s') = Some blob /\
     previewOverlay_hidden (dom s') = false) /\
  (frameReady s = false \/ encoded = false ->
   vars s' = vars s /\
   host s' = host s /\
   previewImg_src (dom s') = previewImg_src (dom s) /\
   previewOverlay_hidden (dom s') = previewOverlay_hidden (dom s) /\
   cameraOverlay (dom s') = cameraOverlay (dom s)) /\
  (frameReady s = false -> s' = s).
Proof.
  intros s'. subst s'. split; [| split].
  - intros Hr ->. rewrite capturePhoto_blob by exact Hr.
    eexists. split; [reflexivity |]. split; [reflexivity |]. split; [reflexivity |].
    split; [reflexivity |]. split; [reflexivity |]. split; [reflexivity |].
    split; [apply composedCanvas_frame |].
    split; [| reflexivity].
    cbn [objectURLs host set_previewOverlay_hidden set_previewImg_src with_dom
         previewImg_src dom URL_createObjectURL fst snd set_objectURL_count
         set_objectURLs with_host].
    apply lookup_insert_eq.
  - intros [Hr | ->].
    + rewrite capturePhoto_not_ready by exact Hr. repeat split.
    + destruct (frameReady s) eqn:Hr.
      * rewrite capturePhoto_no_blob by exact Hr. destruct s as [v [] h]. repeat split.
      * rewrite capturePhoto_not_ready by exact Hr. repeat split.
  - intros Hr. apply capturePhoto_not_ready, Hr.
Qed.

End CaptureProperties.

(** ** Timestamp *)

Section TimestampProperties.
Context `{Platform}.
Import TimeFacts StringFacts.

Lemma getMonth_range t : 1 <= getMonth t + 1 <= 12.
Proof. pose proof (MonthFromTime_range (LocalTime t)). unfold getMonth. lia. Qed.
Lemma getDate_range t : 1 <= getDate t <= 31.
Proof. apply DateFromTime_range. Qed.
Lemma getHours_range t : 0 <= getHours t <= 23.
Proof. apply HourFromTime_range. Qed.
Lemma getMinutes_range t : 0 <= getMinutes t <= 59.
Proof. apply MinFromTime_range. Qed.
Lemma getSeconds_range t : 0 <= getSeconds t <= 59.
Proof. apply SecFromTime_range. Qed.

Ltac two_digit_fields t :=
  pose proof (getMonth_range t); pose proof (getDate_range t);
  pose proof (getHours_range t); pose proof (getMinutes_range t);
  pose proof (getSeconds_range t);
  rewrite !padStart_two_digits by lia.

Lemma formatDateTime_torch_shape t :
  1000 <= getFullYear t <= 9999 ->
  formatDateTime TorchBuild (Some t) =
  twoDigits (getDate t) +:+ "/" +:+ twoDigits (getMonth t + 1) +:+ "/" +:+
  fourDigits (getFullYear t) +:+ " " +:+
  twoDigits (getHours t) +:+ ":" +:+ twoDigits (getMinutes t).
Proof.
  intros Hy. unfold formatDateTime. cbv zeta. two_digit_fields t.
  rewrite String_of_int_four_digits by exact Hy. reflexivity.
Qed.

Lemma formatDateTime_live_shape t :
  1000 <= getFullYear t <= 9999 ->
  formatDateTime LiveOverlayBuild (Some t) =
  fourDigits (getFullYear t) +:+ "-" +:+ twoDigits (getMonth t + 1) +:+ "-" +:+
  twoDigits (getDate t) +:+ " " +:+
  twoDigits (getHours t) +:+ ":" +:+ twoDigits (getMinutes t) +:+ ":" +:+
  twoDigits (getSeconds t).
Proof.
  intros Hy. unfold formatDateTime. cbv zeta. two_digit_fields t.
  rewrite String_of_int_four_digits by exact Hy. reflexivity.
Qed.

Lemma formatDateTime_matches_pattern t :
  1000 <= getFullYear t <= 9999 ->
  matchesPattern "dd/dd/dddd dd:dd" (formatDateTime TorchBuild (Some t)) = true /\
  matchesPattern "dddd-dd-dd dd:dd:dd" (formatDateTime LiveOverlayBuild (Some t)) = true.
Proof.
  intros Hy.
  rewrite formatDateTime_torch_shape, formatDateTime_live_shape by exact Hy.
  pose proof (getMonth_range t); pose proof (getDate_range t);
  pose proof (getHours_range t); pose proof (getMinutes_range t);
  pose proof (getSeconds_range t).
  cbv [twoDigits fourDigits String.append].
  split; cbn [matchesPattern Ascii.eqb Bool.eqb andb];
    rewrite !isDigit_digitChar by (Z.div_mod_to_equations; lia); reflexivity.
Qed.

Lemma formatDateTime_live_compare t1 t2 :
  1000 <= getFullYear t1 <= 9999 ->
  1000 <= getFullYear t2 <= 9999 ->
  String.compare (formatDateTime LiveOverlayBuild (Some t1))
                 (formatDateTime LiveOverlayBuild (Some t2))
  = (LocalTime t1 / 1000 ?= LocalTime t2 / 1000).
Proof.
  intros Hy1 Hy2.
  rewrite !formatDateTime_live_shape by assumption.
  pose proof (getMonth_range t1); pose proof (getDate_range t1);
  pose proof (getHours_range t1); pose proof (getMinutes_range t1);
  pose proof (getSeconds_range t1).
  pose proof (getMonth_range t2); pose proof (getDate_range t2);
  pose proof (getHours_range t2); pose proof (getMinutes_range t2);
  pose proof (getSeconds_range t2).
  repeat (rewrite compare_append by reflexivity).
  rewrite fourDigits_compare, !twoDigits_compare by lia.
  change (String.compare "-" "-") with Eq.
  change (String.compare " " " ") with Eq.
  change (String.compare ":" ":") with Eq.
  cbn [thenCompare].
  rewrite (Z.add_comm (getMonth t1)), (Z.add_comm (getMonth t2)), Z.add_compare_mono_l.
  unfold getFullYear, getMonth, getDate, getHours, getMinutes, getSeconds.
  rewrite <- (clock_compare (LocalTime t1) (LocalTime t2)).
  rewrite <- (calendar_compare (LocalTime t1) (LocalTime t2)).
  rewrite !thenCompare_assoc. reflexivity.
Qed.

Lemma formatDateTime_valid_nonempty b t : formatDateTime b (Some t) <> "".
Proof.
  intros Heq. apply (f_equal String.length) in Heq.
  destruct b; unfold formatDateTime in Heq; cbv zeta in Heq;
    rewrite !length_append in Heq; cbn [String.length] in Heq; lia.
Qed.

End TimestampProperties.

Section TimestampClaims.
Context `{Platform}.
Import TimeFacts StringFacts.

(** C2 (as amended): an invalid date formats to the empty string in both
    builds.  A valid date whose local year has four digits formats to
    [DD/MM/YYYY HH:MM] in the torch build and to [YYYY-MM-DD HH:MM:SS] in
    the live-overlay build: day, month, year, hours, minutes (and
    seconds) of the local time, each zero-padded to its width, in that
    order and with those separators.  In the live-overlay build such
    strings order as the local times they show, taken to the second, and
    so chronologically for two instants at the same offset from UTC. *)
Theorem formatDateTime_fixed_width_and_order :
  (forall b, formatDateTime b None = "") /\
  (forall t1 t2,
     1000 <= getFullYear t1 <= 9999 ->
     1000 <= getFullYear t2 <= 9999 ->
     formatDateTime TorchBuild (Some t1) =
       twoDigits (getDate t1) +:+ "/" +:+ twoDigits (getMonth t1 + 1) +:+ "/" +:+
       fourDigits (getFullYear t1) +:+ " " +:+
       twoDigits (getHours t1) +:+ ":" +:+ twoDigits (getMinutes t1) /\
     formatDateTime LiveOverlayBuild (Some t1) =
       fourDigits (getFullYear t1) +:+ "-" +:+ twoDigits (getMonth t1 + 1) +:+ "-" +:+
       twoDigits (getDate t1) +:+ " " +:+
       twoDigits (getHours t1) +:+ ":" +:+ twoDigits (getMinutes t1) +:+ ":" +:+
       twoDigits (getSeconds t1) /\
     matchesPattern "dd/dd/dddd dd:dd" (formatDateTime TorchBuild (Some t1)) = true /\
     String.length (formatDateTime TorchBuild (Some t1)) = 16%nat /\
     matchesPattern "dddd-dd-dd dd:dd:dd" (formatDateTime LiveOverlayBuild (Some t1)) = true /\
     String.length (formatDateTime LiveOverlayBuild (Some t1)) = 19%nat /\
     String.compare (formatDateTime LiveOverlayBuild (Some t1))
                    (formatDateTime LiveOverlayBuild (Some t2))
     = (LocalTime t1 / 1000 ?= LocalTime t2 / 1000) /\
     (LocalTZA t1 = LocalTZA t2 ->
      (t1 <= t2 ->
       String.compare (formatDateTime LiveOverlayBuild (Some t1))
                      (formatDateTime LiveOverlayBuild (Some t2)) <> Gt) /\
      (String.compare (formatDateTime LiveOverlayBuild (Some t1))
                      (formatDateTime LiveOverlayBuild (Some t2)) = Lt ->
       t1 < t2))).
Proof.
  split; [intros b; reflexivity |].
  intros t1 t2 Hy1 Hy2.
  destruct (formatDateTime_matches_pattern t1 Hy1) as [Ht Hl].
  split; [apply formatDateTime_torch_shape, Hy1 |].
  split; [apply formatDateTime_live_shape, Hy1 |].
  split; [exact Ht |].
  split; [rewrite formatDateTime_torch_shape by exact Hy1; reflexivity |].
  split; [exact Hl |].
  split; [rewrite formatDateTime_live_shape by exact Hy1; reflexivity |].
  rewrite (formatDateTime_live_compare t1 t2 Hy1 Hy2).
  split; [reflexivity |].
  unfold LocalTime. intros ->. split.
  - intros Hle Hgt. rewrite Z.compare_gt_iff in Hgt.
    assert ((t1 + LocalTZA t2) / 1000 <= (t2 + LocalTZA t2) / 1000)
      by (apply Z.div_le_mono; lia).
    lia.
  - intros Hlt. rewrite Z.compare_lt_iff in Hlt.
    destruct (Z.lt_ge_cases t1 t2) as [Hok | Hge]; [exact Hok |].
    assert ((t2 + LocalTZA t2) / 1000 <= (t1 + LocalTZA t2) / 1000)
      by (apply Z.div_le_mono; lia).
    lia.
Qed.

(** C10: with the timestamp enabled and the mode [custom], an empty
    [customDateTime] makes [getTimestampText] format the current time,
    which is never the empty string; a non-empty one is what gets
    formatted instead. *)
Theorem getTimestampText_custom_falls_back_to_now (b : Build) (now : Z) (s : State) :
  timestampEnabled (vars s) = true ->
  timestampMode (vars s) = "custom" ->
  (customDateTime (vars s) = JString "" ->
   getTimestampText b now s = formatDateTime b (Some now) /\
   getTimestampText b now s <> "") /\
  (forall custom, customDateTime (vars s) = JString custom -> custom <> "" ->
   getTimestampText b now s = formatDateTime b (Date_new (JString custom))).
Proof.
  intros Hon Hmode. unfold getTimestampText. rewrite Hon, Hmode. cbn [negb].
  split.
  - intros ->. cbn [truthy String.eqb negb andb]. split; [reflexivity |].
    apply formatDateTime_valid_nonempty.
  - intros custom -> Hne. cbn [truthy].
    apply String.eqb_neq in Hne. rewrite Hne. reflexivity.
Qed.

End TimestampClaims.

(** ** Camera failures *)

Lemma startCamera_failure_panel b media s c :
  failureClass media = Some c ->
  cameraOverlay (dom (startCamera b media s)) = Some (failurePanel c).
Proof.
  unfold failureClass, startCamera.
  destruct media as [| err | stream]; [| | discriminate].
  - intros [= <-]. reflexivity.
  - destruct (_ || _); [intros [= <-]; reflexivity |].
    destruct (_ || _); intros [= <-]; reflexivity.
Qed.

Lemma failurePanel_distinct c1 c2 :
  c1 <> c2 ->
  overlay_title (failurePanel c1) <> overlay_title (failurePanel c2) /\
  overlay_message (failurePanel c1) <> overlay_message (failurePanel c2) /\
  buttonText (failurePanel c1) <> buttonText (failurePanel c2).
Proof.
  intros Hne. destruct c1, c2; try (destruct (Hne eq_refl));
    repeat split; cbn; discriminate.
Qed.

Lemma click_runs_startCamera b media s panel text :
  cameraOverlay (dom s) = Some panel ->
  cameraRetryBtn panel = retryButton text ->
  click_cameraRetryBtn b media s = startCamera b media s.
Proof.
  unfold click_cameraRetryBtn, retryButton. intros -> Hbtn.
  destruct panel as [t m btn]. cbn in Hbtn. subst btn. reflexivity.
Qed.

(** C6: a failed [startCamera] falls into exactly one of the four classes
    and shows that class's panel; title, message and button text differ
    from class to class; only the unsupported-API panel has no button;
    every button's click runs [startCamera] again; permission denial shows
    "Camera access denied" with the button "Grant Camera Access". *)
Theorem startCamera_classifies_failure (b : Build) (media : MediaOutcome) (s : State) :
  (forall stream, media <> MediaGranted stream) ->
  exists c panel,
    failureClass media = Some c /\
    cameraOverlay (dom (startCamera b media s)) = Some panel /\
    (forall b' media' s' c' panel',
       failureClass media' = Some c' ->
       cameraOverlay (dom (startCamera b' media' s')) = Some panel' ->
       (c' = c -> panel' = panel) /\
       (c' <> c ->
        overlay_title panel' <> overlay_title panel /\
        overlay_message panel' <> overlay_message panel /\
        buttonText panel' <> buttonText panel)) /\
    (buttonText panel = None <-> c = UnsupportedApi) /\
    (buttonText panel <> None ->
     forall next, click_cameraRetryBtn b next (startCamera b media s)
                  = startCamera b next (startCamera b media s)) /\
    (c = PermissionDenied ->
     overlay_title panel = "Camera access denied" /\
     buttonText panel = Some "Grant Camera Access").
Proof.
  intros Hfail.
  assert (Hc : exists c, failureClass media = Some c).
  { destruct media as [| err | stream]; cbn.
    - eauto.
    - destruct (_ || _); [eauto |]. destruct (_ || _); eauto.
    - destruct (Hfail stream eq_refl). }
  destruct Hc as [c Hc]. exists c, (failurePanel c).
  pose proof (startCamera_failure_panel b media s c Hc) as Hpanel.
  split; [exact Hc |]. split; [exact Hpanel |]. split; [| split; [| split]].
  - intros b' media' s' c' panel' Hc' Hp'.
    rewrite (startCamera_failure_panel b' media' s' c' Hc') in Hp'.
    injection Hp' as <-. split.
    + intros ->. reflexivity.
    + apply failurePanel_distinct.
  - destruct c; cbn; split; intros Heq; try reflexivity; discriminate.
  - intros Hbtn next.
    destruct c; cbn in Hbtn; try (destruct (Hbtn eq_refl));
      eapply click_runs_startCamera; try exact Hpanel; reflexivity.
  - intros ->. split; reflexivity.
Qed.

(** ** Settings persistence *)

Section SettingsProperties.
Context `{Platform}.

(** Runs [loadSettings] symbolically: one goal per way the stored text
    can turn out. *)
Ltac load_cases :=
  cbv [loadSettings loadSettings_body exec try_catch mbind M_bind mret M_ret
       modify gets throw parseJSON getProperty localStorage_getItem
       storedField storedRecord isMode];
  destruct (access_denied _);
    [| destruct (stored _ !! _) as [[| ? ?] |];
       [| destruct (JSON_parse _) as [[| | ? | ? | ? | ? | props] | ?];
          [| | | | | |
           destruct (assoc "timestampEnabled" props),
             (assoc "timestampMode" props) as [| | | | ? | |],
             (truthy (assoc "customDateTime" props));
           try destruct (_ || _) |] |] ].

Lemma loadSettings_completes s : exists s', loadSettings_body s = (Normal tt, s').
Proof. load_cases; eauto. Qed.

Lemma loadSettings_timestampEnabled s :
  timestampEnabled (vars (loadSettings s)) =
  match storedField s "timestampEnabled" with
  | JBool b => b
  | _ => timestampEnabled (vars s)
  end.
Proof. load_cases; reflexivity. Qed.

Lemma loadSettings_timestampMode s :
  timestampMode (vars (loadSettings s)) =
  match storedField s "timestampMode" with
  | JString m => if isMode m then m else timestampMode (vars s)
  | _ => timestampMode (vars s)
  end.
Proof. load_cases; reflexivity. Qed.

Lemma loadSettings_customDateTime s :
  customDateTime (vars (loadSettings s)) =
  if truthy (storedField s "customDateTime")
  then storedField s "customDateTime"
  else customDateTime (vars s).
Proof. load_cases; reflexivity. Qed.

(** The DOM controls follow the variables that a load assigns. *)
Lemma loadSettings_controls s :
  timestampToggle_checked (dom (loadSettings s)) =
    match storedField s "timestampEnabled" with
    | JBool b => b
    | _ => timestampToggle_checked (dom s)
    end /\
  timeMode_value (dom (loadSettings s)) =
    match storedField s "timestampMode" with
    | JString m => if isMode m then m else timeMode_value (dom s)
    | _ => timeMode_value (dom s)
    end /\
  customTimeInput_value (dom (loadSettings s)) =
    if truthy (storedField s "customDateTime")
    then input_value_set (storedField s "customDateTime")
    else customTimeInput_value (dom s).
Proof. load_cases; repeat split. Qed.

Lemma saveSettings_completes s : exists s', saveSettings_body s = (Normal tt, s').
Proof.
  cbv [saveSettings_body try_catch mbind M_bind mret M_ret gets localStorage_setItem].
  destruct (access_denied _); [eauto |]. destruct (quota_exceeded _); eauto.
Qed.

Lemma saveSettings_write_fails s :
  access_denied (localStorage (host s)) = true
  \/ quota_exceeded (localStorage (host s)) = true ->
  saveSettings s = s.
Proof.
  cbv [saveSettings saveSettings_body exec try_catch mbind M_bind mret M_ret gets
       localStorage_setItem].
  intros [-> | Hq]; [reflexivity |]. rewrite Hq. destruct (access_denied _); reflexivity.
Qed.

Lemma saveSettings_writes s :
  access_denied (localStorage (host s)) = false ->
  quota_exceeded (localStorage (host s)) = false ->
  vars (saveSettings s) = vars s /\ dom (saveSettings s) = dom s /\
  localStorage (host (saveSettings s)) =
    {| stored := <["tsCamera_settings" := JSON_stringify (savedRecord s)]>
                   (stored (localStorage (host s)));
       access_denied := false; quota_exceeded := false |}.
Proof.
  cbv [saveSettings saveSettings_body exec try_catch mbind M_bind mret M_ret gets
       localStorage_setItem].
  intros Ha Hq. rewrite Ha, Hq. repeat split.
Qed.

(** A later [loadSettings] finds the record a successful [saveSettings] wrote. *)
Lemma storedRecord_after_save s s0 :
  access_denied (localStorage (host s)) = false ->
  quota_exceeded (localStorage (host s)) = false ->
  JSON_stringify (savedRecord s) <> "" ->
  JSON_parse (JSON_stringify (savedRecord s)) = inl (savedRecord s) ->
  localStorage (host s0) = localStorage (host (saveSettings s)) ->
  storedRecord s0 = Some (savedRecord s).
Proof.
  intros Ha Hq Hne Hrt Hst. unfold storedRecord.
  destruct (saveSettings_writes s Ha Hq) as (_ & _ & Hw). rewrite Hst, Hw.
  cbn [access_denied stored]. rewrite lookup_insert_eq.
  destruct (JSON_stringify (savedRecord s)) as [| c raw] eqn:Hraw; [destruct (Hne eq_refl) |].
  rewrite Hrt. reflexivity.
Qed.

Lemma customTimeInput_input_in_sync b now s :
  customDateTime (vars (customTimeInput_input b now s))
  = JString (customTimeInput_value (dom (customTimeInput_input b now s))).
Proof.
  unfold customTimeInput_input, refreshOverlay.
  cbv [saveSettings saveSettings_body exec try_catch mbind M_bind mret M_ret gets
       localStorage_setItem].
  destruct b; destruct (access_denied _); try destruct (quota_exceeded _); reflexivity.
Qed.

(** What a load finds after a write that succeeded. *)
Lemma round_trip_after_write (s s0 : State) :
  access_denied (localStorage (host s)) = false ->
  quota_exceeded (localStorage (host s)) = false ->
  JSON_stringify (savedRecord s) <> "" ->
  JSON_parse (JSON_stringify (savedRecord s)) = inl (savedRecord s) ->
  localStorage (host s0) = localStorage (host (saveSettings s)) ->
  let picker := customTimeInput_value (dom s) in
  (timestampEnabled (vars (loadSettings s0)) = timestampEnabled (vars s) /\
   timestampMode (vars (loadSettings s0)) =
     (if isMode (timestampMode (vars s)) then timestampMode (vars s)
      else timestampMode (vars s0)) /\
   customDateTime (vars (loadSettings s0)) =
     (if String.eqb picker "" then customDateTime (vars s0) else JString picker)) /\
  (customDateTime (vars s) = JString picker ->
   settingsTriple (loadSettings (saveSettings s)) = settingsTriple s).
Proof.
  intros Ha Hq Hne Hrt Hst picker.
  assert (Hfield : forall s1, localStorage (host s1) = localStorage (host (saveSettings s)) ->
            forall key, storedField s1 key = assoc key
              [("timestampEnabled", JBool (timestampEnabled (vars s)));
               ("timestampMode", JString (timestampMode (vars s)));
               ("customDateTime", JString picker)]).
  { intros s1 Hs1 key. unfold storedField.
    rewrite (storedRecord_after_save s s1 Ha Hq Hne Hrt Hs1). reflexivity. }
  assert (Hload : forall s1, localStorage (host s1) = localStorage (host (saveSettings s)) ->
            timestampEnabled (vars (loadSettings s1)) = timestampEnabled (vars s) /\
            timestampMode (vars (loadSettings s1)) =
              (if isMode (timestampMode (vars s)) then timestampMode (vars s)
               else timestampMode (vars s1)) /\
            customDateTime (vars (loadSettings s1)) =
              (if String.eqb picker "" then customDateTime (vars s1) else JString picker)).
  { intros s1 Hs1.
    rewrite loadSettings_timestampEnabled, loadSettings_timestampMode,
      loadSettings_customDateTime, !(Hfield s1 Hs1).
    cbn [assoc String.eqb Ascii.eqb Bool.eqb truthy].
    destruct (String.eqb picker ""); repeat split. }
  split; [apply Hload, Hst |].
  intros Hsync. destruct (Hload (saveSettings s) eq_refl) as (He & Hm & Hc).
  destruct (saveSettings_writes s Ha Hq) as (Hv & _ & _).
  unfold settingsTriple. rewrite He, Hm, Hc, Hv, Hsync.
  destruct (isMode _); destruct (String.eqb_spec picker "") as [-> |]; reflexivity.
Qed.

(** C4 (as amended): when the write succeeds and the platform's
    [JSON.parse] reads back what its [JSON.stringify] wrote, a
    [loadSettings] that finds the saved record (in the same session, or
    in a later one starting from [s0]) restores [timestampEnabled],
    restores [timestampMode] when it is one of the two modes, and sets
    [customDateTime] to the picker's value when that is not empty; so the
    triple is reproduced whenever [customDateTime] was the picker's
    value. *)
Theorem saveSettings_loadSettings_round_trip (s s0 : State) :
  access_denied (localStorage (host s)) = false ->
  quota_exceeded (localStorage (host s)) = false ->
  JSON_stringify (savedRecord s) <> "" ->
  JSON_parse (JSON_stringify (savedRecord s)) = inl (savedRecord s) ->
  localStorage (host s0) = localStorage (host (saveSettings s)) ->
  let picker := customTimeInput_value (dom s) in
  (timestampEnabled (vars (loadSettings s0)) = timestampEnabled (vars s) /\
   timestampMode (vars (loadSettings s0)) =
     (if isMode (timestampMode (vars s)) then timestampMode (vars s)
      else timestampMode (vars s0)) /\
   customDateTime (vars (loadSettings s0)) =
     (if String.eqb picker "" then customDateTime (vars s0) else JString picker)) /\
  (customDateTime (vars s) = JString picker ->
   settingsTriple (loadSettings (saveSettings s)) = settingsTriple s).
Proof. apply round_trip_after_write. Qed.

(** C8 (as amended): [loadSettings] always completes normally.  It leaves
    [timestampEnabled] as it was unless the stored field is a boolean,
    [timestampMode] as it was unless the stored field is ['current'] or
    ['custom'], and [customDateTime] as it was whenever the stored field
    is missing, empty or otherwise falsy; a non-empty stored string is
    taken over unchecked.  [saveSettings] completes normally too, and a
    failed write leaves the state as it was. *)
Theorem loadSettings_tolerates_bad_storage (s : State) :
  (exists s', loadSettings_body s = (Normal tt, s')) /\
  ((forall b, storedField s "timestampEnabled" <> JBool b) ->
   timestampEnabled (vars (loadSettings s)) = timestampEnabled (vars s)) /\
  (storedField s "timestampMode" <> JString "current" ->
   storedField s "timestampMode" <> JString "custom" ->
   timestampMode (vars (loadSettings s)) = timestampMode (vars s)) /\
  (truthy (storedField s "customDateTime") = false ->
   customDateTime (vars (loadSettings s)) = customDateTime (vars s)) /\
  (forall text, storedField s "customDateTime" = JString text -> text <> "" ->
   customDateTime (vars (loadSettings s)) = JString text) /\
  (exists s', saveSettings_body s = (Normal tt, s')) /\
  (access_denied (localStorage (host s)) = true
   \/ quota_exceeded (localStorage (host s)) = true ->
   saveSettings s = s).
Proof.
  split; [apply loadSettings_completes |].
  split; [| split; [| split; [| split; [| split]]]].
  - intros Hnb. rewrite loadSettings_timestampEnabled.
    destruct (storedField s "timestampEnabled") as [| | b | | | |]; try reflexivity.
    destruct (Hnb b eq_refl).
  - intros Hcur Hcus. rewrite loadSettings_timestampMode.
    destruct (storedField s "timestampMode") as [| | | | m | |]; try reflexivity.
    unfold isMode.
    destruct (String.eqb_spec m "current") as [-> |]; [destruct (Hcur eq_refl) |].
    destruct (String.eqb_spec m "custom") as [-> |]; [destruct (Hcus eq_refl) |].
    reflexivity.
  - intros Hf. rewrite loadSettings_customDateTime, Hf. reflexivity.
  - intros text Hs Hne. rewrite loadSettings_customDateTime, Hs. cbn [truthy].
    apply String.eqb_neq in Hne. rewrite Hne. reflexivity.
  - apply saveSettings_completes.
  - apply saveSettings_write_fails.
Qed.

End SettingsProperties.

(** On the reference platform the codec reads every settings record
    back, so a successful write always round-trips a picked time. *)
Lemma reference_platform_reads_back s :
  JSON.stringify (savedRecord s) <> "" /\
  JSON.parse (JSON.stringify (savedRecord s)) = inl (savedRecord s).
Proof.
  unfold savedRecord. rewrite JSONFacts.stringify_settings. split.
  - discriminate.
  - apply JSONFacts.parse_settings.
Qed.

Lemma reference_platform_round_trip s :
  access_denied (localStorage (host s)) = false ->
  quota_exceeded (localStorage (host s)) = false ->
  customDateTime (vars s) = JString (customTimeInput_value (dom s)) ->
  settingsTriple (loadSettings (H := referencePlatform) (saveSettings (H := referencePlatform) s))
  = settingsTriple s.
Proof.
  intros Ha Hq Hsync. destruct (reference_platform_reads_back s) as [Hne Hrt].
  apply (round_trip_after_write (H := referencePlatform) s
           (saveSettings (H := referencePlatform) s) Ha Hq Hne Hrt eq_refl).
  exact Hsync.
Qed.

(** ** Share *)

(** C9: a dismissed share dialog (AbortError) leaves the whole state as it
    was; any other rejection only appends one console entry, so the
    variables (with [capturedBlob]) and the DOM (preview, error panel)
    are untouched. *)
Theorem sharePhoto_failure_keeps_state (err : JSError) (s : State) :
  let s' := sharePhoto (ShareRejected err) s in
  (err_name err = "AbortError" -> s' = s) /\
  (err_name err <> "AbortError" ->
   vars s' = vars s /\ dom s' = dom s /\
   (capturedBlob (vars s) <> None -> navigator_share (host s) = true ->
    console_errors (host s') = console_errors (host s) ++ [("Share error:", err)])).
Proof.
  intros s'. subst s'. unfold sharePhoto. split.
  - intros ->. destruct (capturedBlob (vars s)); [| reflexivity].
    destruct (navigator_share (host s)); reflexivity.
  - intros Hne. apply String.eqb_neq in Hne. rewrite Hne.
    destruct (capturedBlob (vars s)) eqn:Hb.
    + destruct (navigator_share (host s)) eqn:Hs; cbn [negb].
      * repeat split.
      * repeat split. intros _ [=].
    + repeat split. intros Hc. destruct (Hc eq_refl).
Qed.

(** * Further properties *)

(** ** The picker's default value *)

Module MoreTimeFacts.
Import Time TimeFacts.

(** Broken-down time down to the minute orders as the count of minutes. *)
Lemma clock_compare_minutes t1 t2 :
  thenCompare (Day t1 ?= Day t2)
    (thenCompare (HourFromTime t1 ?= HourFromTime t2)
       (MinFromTime t1 ?= MinFromTime t2))
  = (t1 / msPerMinute ?= t2 / msPerMinute).
Proof.
  assert (Hm : forall t, t / msPerMinute = t / msPerHour * 60 + MinFromTime t).
  { intros t. unfold MinFromTime, msPerHour, msPerMinute. Z.div_mod_to_equations. lia. }
  assert (Hh : forall t, t / msPerHour = Day t * 24 + HourFromTime t).
  { intros t. unfold HourFromTime, Day, msPerHour, msPerDay. Z.div_mod_to_equations. lia. }
  pose proof (MinFromTime_range t1). pose proof (MinFromTime_range t2).
  pose proof (HourFromTime_range t1). pose proof (HourFromTime_range t2).
  rewrite (Hm t1), (Hm t2), radix_compare by lia.
  rewrite (Hh t1), (Hh t2), radix_compare by lia.
  rewrite !thenCompare_assoc. reflexivity.
Qed.

End MoreTimeFacts.

Section PickerDefault.
Context `{Platform}.
Import TimeFacts StringFacts MoreTimeFacts.

Lemma toLocalISOString_shape t :
  1000 <= getFullYear t <= 9999 ->
  toLocalISOString t =
  fourDigits (getFullYear t) +:+ "-" +:+ twoDigits (getMonth t + 1) +:+ "-" +:+
  twoDigits (getDate t) +:+ "T" +:+
  twoDigits (getHours t) +:+ ":" +:+ twoDigits (getMinutes t).
Proof.
  intros Hy. unfold toLocalISOString. cbv zeta.
  pose proof (getMonth_range t); pose proof (getDate_range t);
  pose proof (getHours_range t); pose proof (getMinutes_range t).
  rewrite !padStart_two_digits by lia.
  rewrite String_of_int_four_digits by exact Hy. reflexivity.
Qed.


End PickerDefault.

(** ** The stamp *)

Section Stamp.
Context `{Platform}.

Lemma drawFrame_bitmap r f cw vw vh c :
  ctx_stack c = [] -> bitmap c = [] ->
  exists st,
    bitmap (drawFrame r f cw vw vh c) = [DrawVideo st 0 0 vw vh] /\
    ctx (drawFrame r f cw vw vh c) = ctx c /\
    ctx_stack (drawFrame r f cw vw vh c) = [].
Proof.
  intros Hs Hb. destruct c as [w h st0 stack ops]. cbn in Hs, Hb. subst.
  destruct r, f; eexists; repeat split; reflexivity.
Qed.

(** X2: when the text to stamp is not empty, a capture of a ready frame
    draws exactly two things: the frame, then the text.  The text is
    drawn in the restored state, so through the identity transform
    whatever the rotation and mirroring of the frame; it is right- and
    bottom-aligned at the padding's distance from the canvas's
    bottom-right corner, in a bold font of at least the build's minimum
    size. *)
Theorem capturePhoto_stamps_unmirrored_bottom_right
    (b : Build) (now : Z) (encoded : bool) (s : State) :
  frameReady s = true ->
  getTimestampText b now s <> "" ->
  let c := captureCanvas (dom (capturePhoto b now encoded s)) in
  let padding := Math_round_mul (canvas_width c) (paddingScale (stampStyle b)) in
  exists frame st size,
    bitmap c =
      [DrawVideo frame 0 0 (video_videoWidth (dom s)) (video_videoHeight (dom s));
       FillText st (getTimestampText b now s)
         (canvas_width c - padding) (canvas_height c - padding)] /\
    ctm st = identityMatrix /\
    textAlign st = "right" /\ textBaseline st = "bottom" /\
    fillStyle st = stampFill (stampStyle b) /\
    font st = "bold " +:+ String_of_int size +:+ "px 'Courier New', Courier, monospace" /\
    minFontSize (stampStyle b) <= size.
Proof.
  intros Hr Htext c padding. subst c padding.
  rewrite capturePhoto_canvas by exact Hr.
  unfold composedCanvas. apply String.eqb_neq in Htext. rewrite Htext.
  set (r := (_ >? _) && (_ >? _)).
  set (cw := if r then _ else _). set (ch := if r then _ else _).
  destruct (drawFrame_bitmap r (facingMode (vars s)) cw
              (video_videoWidth (dom s)) (video_videoHeight (dom s))
              (canvas_set_height ch (canvas_set_width cw (captureCanvas (dom s))))
              eq_refl eq_refl) as (frame & Hbm & Hctx & _).
  exists frame. eexists. eexists.
  unfold drawStamp, ctx_fillText, ctx_draw, ctx_set_text_style, with_ctx.
  cbn [bitmap ctx canvas_width canvas_height].
  rewrite Hbm, Hctx.
  assert (Hw : canvas_width (drawFrame r (facingMode (vars s)) cw
                 (video_videoWidth (dom s)) (video_videoHeight (dom s))
                 (canvas_set_height ch (canvas_set_width cw (captureCanvas (dom s))))) = cw)
    by (destruct r, (facingMode (vars s)); reflexivity).
  assert (Hh : canvas_height (drawFrame r (facingMode (vars s)) cw
                 (video_videoWidth (dom s)) (video_videoHeight (dom s))
                 (canvas_set_height ch (canvas_set_width cw (captureCanvas (dom s))))) = ch)
    by (destruct r, (facingMode (vars s)); reflexivity).
  rewrite Hw, Hh.
  split; [reflexivity |]. split; [reflexivity |]. split; [reflexivity |].
  split; [reflexivity |]. split; [reflexivity |]. split; [reflexivity |].
  apply Z.le_max_r.
Qed.

(** X3: with the timestamp enabled, the mode [custom] and a non-empty
    custom time that is no valid date, [getTimestampText] is empty and a
    capture draws the frame alone; in any other mode than [custom] the
    custom time is ignored and the current time is what gets stamped. *)
Theorem custom_time_invalid_or_ignored (b : Build) (now : Z) (encoded : bool) (s : State) :
  timestampEnabled (vars s) = true ->
  frameReady s = true ->
  let ops := bitmap (captureCanvas (dom (capturePhoto b now encoded s))) in
  (timestampMode (vars s) = "custom" ->
   truthy (customDateTime (vars s)) = true ->
   Date_new (customDateTime (vars s)) = None ->
   getTimestampText b now s = "" /\ existsb isFillText ops = false) /\
  (timestampMode (vars s) <> "custom" ->
   getTimestampText b now s = formatDateTime b (Some now) /\
   exists frame st x y,
     ops = [frame; FillText st (formatDateTime b (Some now)) x y]).
Proof.
  intros Hon Hr ops. subst ops. rewrite capturePhoto_canvas by exact Hr. split.
  - intros Hmode Htruthy Hinvalid.
    assert (Htext : getTimestampText b now s = "").
    { unfold getTimestampText. rewrite Hon, Hmode, Htruthy, Hinvalid. reflexivity. }
    split; [exact Htext |]. apply composedCanvas_no_text, Htext.
  - intros Hmode. apply String.eqb_neq in Hmode.
    assert (Htext : getTimestampText b now s = formatDateTime b (Some now)).
    { unfold getTimestampText. rewrite Hon, Hmode. reflexivity. }
    split; [exact Htext |].
    pose proof (formatDateTime_valid_nonempty b now) as Hne.
    unfold composedCanvas. rewrite Htext. apply String.eqb_neq in Hne. rewrite Hne.
    set (r := (_ >? _) && (_ >? _)).
    set (cw := if r then _ else _). set (ch := if r then _ else _).
    destruct (drawFrame_bitmap r (facingMode (vars s)) cw
                (video_videoWidth (dom s)) (video_videoHeight (dom s))
                (canvas_set_height ch (canvas_set_width cw (captureCanvas (dom s))))
                eq_refl eq_refl) as (frame & Hbm & _ & _).
    unfold drawStamp, ctx_fillText, ctx_draw, ctx_set_text_style, with_ctx.
    cbn [bitmap ctx canvas_width canvas_height]. rewrite Hbm.
    do 4 eexists. reflexivity.
Qed.

(** X4: what a capture exports does not depend on what the canvas held
    before: no earlier frame or stamp shows through. *)
Theorem capturePhoto_forgets_earlier_canvas (b : Build) (now : Z) (c0 : Canvas) (s : State) :
  frameReady s = true ->
  capturedBlob (vars (capturePhoto b now true (set_captureCanvas c0 s)))
  = capturedBlob (vars (capturePhoto b now true s)) /\
  forall encoded,
    captureCanvas (dom (capturePhoto b now encoded (set_captureCanvas c0 s)))
    = captureCanvas (dom (capturePhoto b now encoded s)).
Proof.
  intros Hr.
  assert (Hr' : frameReady (set_captureCanvas c0 s) = true) by exact Hr.
  assert (Hc : composedCanvas b now (set_captureCanvas c0 s) = composedCanvas b now s)
    by reflexivity.
  split.
  - rewrite !capturePhoto_capturedBlob by assumption. cbv zeta. rewrite Hc. reflexivity.
  - intros encoded. rewrite !capturePhoto_canvas by assumption. exact Hc.
Qed.

End Stamp.

(** ** Starting and flipping the camera *)

Lemma startCamera_facingMode b media s :
  facingMode (vars (startCamera b media s)) = facingMode (vars s).
Proof.
  unfold startCamera, checkTorchSupport.
  destruct b, media as [| err | stream], (currentStream (vars s));
    try destruct (_ || _); try destruct (_ || _);
    try (cbn; destruct (videoTrack stream) as [[] |]); reflexivity.
Qed.

Lemma startCamera_on_grant (b : Build) (stream : MediaStream) (s : State) :
  let s' := startCamera b (MediaGranted stream) s in
  cameraOverlay (dom s') = None /\
  currentStream (vars s') = Some stream /\
  video_srcObject (dom s') = Some stream /\
  (forall old, currentStream (vars s) = Some old ->
     stoppedStreams (host s') = stoppedStreams (host s) ++ [old]) /\
  (currentStream (vars s) = None -> stoppedStreams (host s') = stoppedStreams (host s)) /\
  (b = TorchBuild ->
   flashOn (vars s') = false /\ torchSupported (vars s') = hasTorch stream /\
   flash_active (flashBtn (dom s')) = false).
Proof.
  cbv zeta. unfold startCamera, checkTorchSupport, hasTorch.
  destruct stream as [id [[] |]], b, (currentStream (vars s)) as [old0 |]; cbn;
    (repeat split; try reflexivity; try discriminate;
     try (intros old [= <-]; reflexivity)).
Qed.

Lemma startCamera_on_failure
    (b : Build) (media : MediaOutcome) (old : MediaStream) (s : State) :
  (forall stream, media <> MediaGranted stream) ->
  currentStream (vars s) = Some old ->
  let s' := startCamera b media s in
  currentStream (vars s') = Some old /\
  stoppedStreams (host s') = stoppedStreams (host s) ++ [old] /\
  video_srcObject (dom s') = video_srcObject (dom s) /\
  facingMode (vars s') = facingMode (vars s) /\
  settingsTriple s' = settingsTriple s /\
  capturedBlob (vars s') = capturedBlob (vars s) /\
  (forall err, media = MediaRejected err ->
     console_errors (host s') = console_errors (host s) ++ [("Camera error:", err)]).
Proof.
  intros Hfail Hold. cbv zeta. unfold startCamera. rewrite Hold.
  destruct media as [| err | stream]; [| | destruct (Hfail stream eq_refl)].
  - destruct b; repeat split; try exact Hold; intros err [=].
  - destruct b; destruct (_ || _); try destruct (_ || _);
      (repeat split; try exact Hold; intros err' [= <-]; reflexivity).
Qed.





(** ** The flash *)

(** X9: [toggleFlash] changes nothing while the torch is not supported
    or there is no stream.  On a stream whose track has a torch it flips
    [flashOn] and shows it on the button when the constraint is applied,
    and ends with the flash off and the error on the console when it is
    rejected; two applied toggles give the state back. *)
Theorem toggleFlash_behaviour (outcome : ConstraintsOutcome) (s : State) :
  (torchSupported (vars s) = false \/ currentStream (vars s) = None ->
   toggleFlash outcome s = s) /\
  (forall stream,
     torchSupported (vars s) = true ->
     currentStream (vars s) = Some stream ->
     videoTrack stream <> None ->
     let on := toggleFlash ConstraintsApplied s in
     flashOn (vars on) = negb (flashOn (vars s)) /\
     flash_active (flashBtn (dom on)) = negb (flashOn (vars s)) /\
     dimmed (flashBtn (dom on)) = false /\
     flashOn (vars (toggleFlash ConstraintsApplied on)) = flashOn (vars s) /\
     forall err,
       let off := toggleFlash (ConstraintsRejected err) s in
       flashOn (vars off) = false /\
       flash_active (flashBtn (dom off)) = false /\
       console_errors (host off) = console_errors (host s) ++ [("Flash error:", err)]).
Proof.
  split.
  - unfold toggleFlash. intros [-> | Hnone]; [reflexivity |].
    rewrite Hnone. destruct (torchSupported (vars s)); reflexivity.
  - intros stream Hsup Hstream Htrack. cbv zeta. unfold toggleFlash.
    rewrite Hsup, Hstream. cbn [negb].
    destruct (videoTrack stream) as [cap |] eqn:Hcap; [| destruct (Htrack eq_refl)].
    cbn [torchSupported vars updateFlashUI set_flashOn set_flashBtn with_vars with_dom
         currentStream flashOn dom flashBtn flash_active dimmed].
    rewrite Hsup, Hstream, Hcap. cbn [negb].
    repeat split; try reflexivity.
    apply negb_involutive.
Qed.

(** ** What each listener leaves alone *)

(** Runs [loadSettings] symbolically: one goal per way the stored text
    can turn out. *)
Ltac load_branches :=
  cbv [loadSettings loadSettings_body exec try_catch mbind M_bind mret M_ret
       modify gets throw parseJSON getProperty localStorage_getItem
       storedField storedRecord isMode];
  destruct (access_denied _);
    [| destruct (stored _ !! _) as [[| ? ?] |];
       [| destruct (JSON_parse _) as [[| | ? | ? | ? | ? | props] | ?];
          [| | | | | |
           destruct (assoc "timestampEnabled" props),
             (assoc "timestampMode" props) as [| | | | ? | |],
             (truthy (assoc "customDateTime" props));
           try destruct (_ || _) |] |] ].

Section Frames.
Context `{Platform}.

Ltac run_save :=
  cbv [saveSettings saveSettings_body exec try_catch mbind M_bind mret M_ret gets
       localStorage_setItem];
  destruct (access_denied _); [| destruct (quota_exceeded _)].

Lemma saveSettings_views s :
  vars (saveSettings s) = vars s /\ dom (saveSettings s) = dom s /\
  objectURLs (host (saveSettings s)) = objectURLs (host s) /\
  objectURL_count (host (saveSettings s)) = objectURL_count (host s).
Proof. run_save; repeat split. Qed.

Lemma saveSettings_resourceView s : resourceView (saveSettings s) = resourceView s.
Proof.
  destruct (saveSettings_views s) as (Hv & Hd & Hu & Hc).
  unfold resourceView. rewrite Hv, Hd, Hu, Hc. reflexivity.
Qed.

Lemma saveSettings_torchView s : torchView (saveSettings s) = torchView s.
Proof.
  destruct (saveSettings_views s) as (Hv & Hd & _). unfold torchView.
  rewrite Hv, Hd. reflexivity.
Qed.

Lemma saveSettings_overlayView s : overlayView (saveSettings s) = overlayView s.
Proof.
  destruct (saveSettings_views s) as (Hv & Hd & _). unfold overlayView.
  rewrite Hv, Hd. reflexivity.
Qed.

Lemma loadSettings_views s :
  resourceView (loadSettings s) = resourceView s /\
  torchView (loadSettings s) = torchView s /\
  timestampOverlay (dom (loadSettings s)) = timestampOverlay (dom s).
Proof. load_branches; repeat split. Qed.

Lemma startCamera_views b media s :
  resourceView (startCamera b media s) = resourceView s /\
  overlayView (startCamera b media s) = overlayView s.
Proof.
  unfold startCamera, checkTorchSupport.
  destruct media as [| err | [id [[] |]]], b, (currentStream (vars s));
    try destruct (_ || _); try destruct (_ || _); split; reflexivity.
Qed.

Lemma click_cameraRetryBtn_views b media s :
  resourceView (click_cameraRetryBtn b media s) = resourceView s /\
  overlayView (click_cameraRetryBtn b media s) = overlayView s.
Proof.
  unfold click_cameraRetryBtn.
  destruct (cameraOverlay (dom s)) as [[t m [btn |]] |]; try (split; reflexivity).
  cbn [cameraRetryBtn]. generalize (click_listeners btn) as ls. intros ls.
  revert s. induction ls as [| [] ls IH]; intros s; [split; reflexivity |].
  cbn [fold_left runListener].
  destruct (IH (startCamera b media s)) as [Hr Ho].
  destruct (startCamera_views b media s) as [Hr' Ho'].
  rewrite Hr, Ho. split; assumption.
Qed.

Lemma toggleFlash_views outcome s :
  resourceView (toggleFlash outcome s) = resourceView s /\
  overlayView (toggleFlash outcome s) = overlayView s.
Proof.
  unfold toggleFlash.
  destruct (torchSupported (vars s)), (currentStream (vars s)) as [[id [cap |]] |], outcome;
    split; reflexivity.
Qed.

Lemma capturePhoto_views b now encoded s :
  torchView (capturePhoto b now encoded s) = torchView s /\
  overlayView (capturePhoto b now encoded s) = overlayView s.
Proof.
  destruct (frameReady s) eqn:Hr.
  - destruct encoded.
    + rewrite capturePhoto_blob by exact Hr. split; reflexivity.
    + rewrite capturePhoto_no_blob by exact Hr. split; reflexivity.
  - rewrite capturePhoto_not_ready by exact Hr. split; reflexivity.
Qed.

Lemma closePreview_views s :
  torchView (closePreview s) = torchView s /\
  overlayView (closePreview s) = overlayView s.
Proof.
  unfold closePreview.
  cbn [previewImg_src dom set_previewOverlay_hidden with_dom].
  destruct (String.eqb _ _); split; reflexivity.
Qed.

Lemma sharePhoto_views outcome s :
  resourceView (sharePhoto outcome s) = resourceView s /\
  torchView (sharePhoto outcome s) = torchView s /\
  overlayView (sharePhoto outcome s) = overlayView s.
Proof.
  unfold sharePhoto.
  destruct (capturedBlob (vars s)), (navigator_share (host s)), outcome as [| err];
    cbn [negb]; try destruct (String.eqb _ _); repeat split.
Qed.

Lemma updateOverlay_views now s :
  resourceView (updateOverlay now s) = resourceView s /\
  torchView (updateOverlay now s) = torchView s /\
  vars (updateOverlay now s) = vars s.
Proof. repeat split. Qed.

Lemma refreshOverlay_views b now s :
  resourceView (refreshOverlay b now s) = resourceView s /\
  torchView (refreshOverlay b now s) = torchView s /\
  vars (refreshOverlay b now s) = vars s.
Proof. destruct b; repeat split. Qed.

(** The three settings listeners. *)
Lemma settings_listeners_views b now s :
  (forall v, resourceView (timestampToggle_change b now (set_timestampToggle_checked v s))
             = resourceView s /\
             torchView (timestampToggle_change b now (set_timestampToggle_checked v s))
             = torchView s) /\
  (forall v, resourceView (timeMode_change b now (set_timeMode_value v s)) = resourceView s /\
             torchView (timeMode_change b now (set_timeMode_value v s)) = torchView s) /\
  (forall v, resourceView (customTimeInput_input b now (set_customTimeInput_value v s))
             = resourceView s /\
             torchView (customTimeInput_input b now (set_customTimeInput_value v s))
             = torchView s).
Proof.
  unfold timestampToggle_change, timeMode_change, customTimeInput_input.
  repeat split;
    match goal with
    | |- context [refreshOverlay b now (saveSettings ?s0)] =>
        destruct (refreshOverlay_views b now (saveSettings s0)) as (Hr & Ht & _);
        rewrite ?Hr, ?Ht, ?saveSettings_resourceView, ?saveSettings_torchView
    end; reflexivity.
Qed.

(** A refresh makes the overlay show the text of the settings. *)
Lemma refreshOverlay_live now s :
  timestampOverlay (dom (refreshOverlay LiveOverlayBuild now s))
  = overlayOf (getTimestampText LiveOverlayBuild now (refreshOverlay LiveOverlayBuild now s)).
Proof. reflexivity. Qed.

Lemma getTimestampText_overlayView b now s s' :
  overlayView s' = overlayView s -> getTimestampText b now s' = getTimestampText b now s.
Proof.
  unfold overlayView, getTimestampText. intros [= -> -> -> _]. reflexivity.
Qed.

End Frames.

(** ** Invariants of the running page *)

Section Invariants.
Context `{Platform}.
Import StringFacts.

Lemma blobURL_inj a b : 0 <= a -> 0 <= b -> blobURL a = blobURL b -> a = b.
Proof.
  intros Ha Hb Heq. unfold blobURL in Heq.
  change ("blob:" +:+ String_of_int a)
    with (String "b" (String "l" (String "o" (String "b" (String ":" (String_of_int a))))))
    in Heq.
  change ("blob:" +:+ String_of_int b)
    with (String "b" (String "l" (String "o" (String "b" (String ":" (String_of_int b))))))
    in Heq.
  injection Heq as Heq. apply (f_equal decimalValue) in Heq.
  destruct (String_of_int_value a) as [_ Hva]. destruct (String_of_int_value b) as [_ Hvb].
  rewrite (Z.abs_eq a) in Hva by exact Ha. rewrite (Z.abs_eq b) in Hvb by exact Hb.
  congruence.
Qed.

Lemma previewInvariant_on p :
  previewInvariant p <->
  previewInvariantOn (capturedBlob (vars (app p))) (previewImg_src (dom (app p)))
    (previewOverlay_hidden (dom (app p))) (objectURLs (host (app p)))
    (objectURL_count (host (app p))) (revokeTimeouts p).
Proof. reflexivity. Qed.

Lemma previewInvariant_same_view p p' :
  resourceView (app p') = resourceView (app p) ->
  revokeTimeouts p' = revokeTimeouts p ->
  previewInvariant p -> previewInvariant p'.
Proof.
  rewrite !previewInvariant_on. unfold resourceView.
  intros [= -> -> -> -> ->] ->. tauto.
Qed.

(** A fresh URL is registered for a new photo and shown. *)
Lemma previewInvariantOn_capture cb src hidden urls count pending blob :
  previewInvariantOn cb src hidden urls count pending ->
  previewInvariantOn (Some blob) (blobURL count) false
    (<[blobURL count := blob]> urls) (count + 1) pending.
Proof.
  intros ((Hc & Hurls) & _ & Hpending). split; [split | split].
  - lia.
  - intros url b0 Hl. destruct (decide (blobURL count = url)) as [<- | Hne].
    + exists count. split; [lia | reflexivity].
    + rewrite lookup_insert_ne in Hl by exact Hne.
      destruct (Hurls url b0 Hl) as (k & Hk & ->). exists k. split; [lia | reflexivity].
  - intros b0 [= <-]. split; [reflexivity | apply lookup_insert_eq].
  - eapply Forall_impl; [exact Hpending |]. cbn. intros url ((k & Hk & ->) & _). split.
    + exists k. split; [lia | reflexivity].
    + intros _ Heq. apply blobURL_inj in Heq; lia.
Qed.

(** The photo is dropped and URLs are only taken away. *)
Lemma previewInvariantOn_close cb src hidden urls count pending src' hidden' urls' :
  (forall url blob, urls' !! url = Some blob -> urls !! url = Some blob) ->
  previewInvariantOn cb src hidden urls count pending ->
  previewInvariantOn None src' hidden' urls' count pending.
Proof.
  intros Hsub ((Hc & Hurls) & _ & Hpending). split; [split | split].
  - exact Hc.
  - intros url b0 Hl. apply (Hurls url b0), Hsub, Hl.
  - discriminate.
  - eapply Forall_impl; [exact Hpending |]. cbn. intros url (Hk & _). split; [exact Hk |].
    intros Hnone. destruct (Hnone eq_refl).
Qed.

(** A download registers one more URL and schedules its revocation. *)
Lemma previewInvariantOn_download cb src hidden urls count pending blob :
  previewInvariantOn cb src hidden urls count pending ->
  previewInvariantOn cb src hidden (<[blobURL count := blob]> urls) (count + 1)
    (pending ++ [blobURL count]).
Proof.
  intros ((Hc & Hurls) & Hshow & Hpending).
  assert (Hsrc : cb <> None -> blobURL count <> src).
  { intros Hcb Heq. destruct cb as [b0 |]; [| destruct (Hcb eq_refl)].
    destruct (Hshow b0 eq_refl) as [_ Hl]. destruct (Hurls src b0 Hl) as (k & Hk & Hs).
    rewrite Hs in Heq. apply blobURL_inj in Heq; lia. }
  split; [split | split].
  - lia.
  - intros url b0 Hl. destruct (decide (blobURL count = url)) as [<- | Hne].
    + exists count. split; [lia | reflexivity].
    + rewrite lookup_insert_ne in Hl by exact Hne.
      destruct (Hurls url b0 Hl) as (k & Hk & ->). exists k. split; [lia | reflexivity].
  - intros b0 Hcb. destruct (Hshow b0 Hcb) as [Hh Hl]. split; [exact Hh |].
    rewrite lookup_insert_ne by (apply Hsrc; congruence). exact Hl.
  - apply Forall_app. split.
    + eapply Forall_impl; [exact Hpending |]. cbn. intros url ((k & Hk & ->) & Hne).
      split; [| exact Hne]. exists k. split; [lia | reflexivity].
    + apply Forall_cons. split; [| apply Forall_nil; exact I].
      split; [exists count; split; [lia | reflexivity] | exact Hsrc].
Qed.

(** A timeout revokes a URL that is not the preview's. *)
Lemma previewInvariantOn_timeout cb src hidden urls count url pending :
  previewInvariantOn cb src hidden urls count (url :: pending) ->
  previewInvariantOn cb src hidden (delete url urls) count pending.
Proof.
  intros ((Hc & Hurls) & Hshow & Hpending).
  apply Forall_cons in Hpending as [[_ Hne] Hrest]. split; [split | split].
  - exact Hc.
  - intros u b0 Hl. apply lookup_delete_Some in Hl as [_ Hl]. apply (Hurls u b0 Hl).
  - intros b0 Hcb. destruct (Hshow b0 Hcb) as [Hh Hl]. split; [exact Hh |].
    rewrite lookup_delete_ne by (apply Hne; congruence). exact Hl.
  - exact Hrest.
Qed.

Lemma closePreview_resources s :
  capturedBlob (vars (closePreview s)) = None /\
  previewOverlay_hidden (dom (closePreview s)) = true /\
  previewImg_src (dom (closePreview s)) = "" /\
  objectURL_count (host (closePreview s)) = objectURL_count (host s) /\
  objectURLs (host (closePreview s))
  = if String.eqb (previewImg_src (dom s)) "" then objectURLs (host s)
    else delete (previewImg_src (dom s)) (objectURLs (host s)).
Proof.
  unfold closePreview.
  cbn [previewImg_src dom set_previewOverlay_hidden with_dom].
  destruct (String.eqb_spec (previewImg_src (dom s)) "") as [Heq | Hne];
    cbn; repeat split; try reflexivity; exact Heq.
Qed.

Lemma flipCamera_views b media s :
  resourceView (flipCamera b media s) = resourceView s /\
  overlayView (flipCamera b media s) = overlayView s.
Proof.
  unfold flipCamera.
  destruct (startCamera_views b media
              (set_facingMode match facingMode (vars s) with
                              | environment => user
                              | user => environment
                              end s)) as [-> ->].
  split; reflexivity.
Qed.

Lemma capturePhoto_resourceView b now encoded s :
  resourceView (capturePhoto b now encoded s) = resourceView s \/
  exists blob,
    resourceView (capturePhoto b now encoded s)
    = (Some blob, blobURL (objectURL_count (host s)), false,
       <[blobURL (objectURL_count (host s)) := blob]> (objectURLs (host s)),
       objectURL_count (host s) + 1).
Proof.
  destruct (frameReady s) eqn:Hr.
  - destruct encoded.
    + right. rewrite capturePhoto_blob by exact Hr. eexists. reflexivity.
    + left. rewrite capturePhoto_no_blob by exact Hr. reflexivity.
  - left. rewrite capturePhoto_not_ready by exact Hr. reflexivity.
Qed.

Lemma previewInvariant_with_app f p :
  resourceView (f (app p)) = resourceView (app p) ->
  previewInvariant p -> previewInvariant (with_app f p).
Proof. intros Hv. apply previewInvariant_same_view; [exact Hv | reflexivity]. Qed.

Lemma handle_previewInvariant b e p :
  previewInvariant p -> previewInvariant (handle b e p).
Proof.
  destruct e; cbn [handle].
  - destruct (capturePhoto_resourceView b now encoded (app p)) as [Hv | [blob Hv]].
    + apply previewInvariant_with_app, Hv.
    + rewrite !previewInvariant_on. cbn [app with_app revokeTimeouts].
      unfold resourceView in Hv. injection Hv as -> -> -> -> ->.
      apply previewInvariantOn_capture.
  - apply previewInvariant_with_app, flipCamera_views.
  - destruct b; [| exact (fun h => h)].
    apply previewInvariant_with_app, toggleFlash_views.
  - apply previewInvariant_with_app, click_cameraRetryBtn_views.
  - exact (fun h => h).
  - exact (fun h => h).
  - rewrite !previewInvariant_on. cbn [app with_app revokeTimeouts].
    destruct (closePreview_resources (app p)) as (-> & _ & _ & -> & ->).
    apply previewInvariantOn_close. intros url blob.
    destruct (String.eqb _ _); [exact (fun h => h) |].
    intros Hl. apply lookup_delete_Some in Hl as [_ Hl]. exact Hl.
  - unfold downloadPhoto. destruct (capturedBlob (vars (app p))) as [blob |] eqn:Hcb;
      [| exact (fun h => h)].
    rewrite !previewInvariant_on.
    cbn [URL_createObjectURL app revokeTimeouts].
    intros Hinv. apply (previewInvariantOn_download _ _ _ _ _ _ blob) in Hinv.
    exact Hinv.
  - apply previewInvariant_with_app, sharePhoto_views.
  - apply previewInvariant_with_app.
    apply (proj1 (settings_listeners_views b now (app p))).
  - apply previewInvariant_with_app.
    apply (proj1 (proj2 (settings_listeners_views b now (app p)))).
  - apply previewInvariant_with_app.
    apply (proj2 (proj2 (settings_listeners_views b now (app p)))).
  - unfold timeoutFires. destruct (revokeTimeouts p) as [| url rest] eqn:Hts;
      [exact (fun h => h) |].
    rewrite !previewInvariant_on. rewrite Hts. cbn [app revokeTimeouts].
    apply previewInvariantOn_timeout.
  - destruct b, (overlayInterval p); exact (fun h => h).
  - apply previewInvariant_with_app. reflexivity.
  - apply previewInvariant_with_app. reflexivity.
Qed.

Lemma initPage_previewInvariant b now shown media p :
  pageLoaded p -> previewInvariant (initPage b now shown media p).
Proof.
  intros (Hvars & Hurls & Hcount & Hts & _).
  assert (Hp : previewInvariant p).
  { rewrite previewInvariant_on. rewrite Hvars, Hurls, Hcount, Hts.
    split; [split; [lia | intros url blob Hl; rewrite lookup_empty in Hl; discriminate] |].
    split; [discriminate | apply Forall_nil; exact I]. }
  revert Hp. apply previewInvariant_same_view.
  - unfold initPage.
    set (s0 := set_customTimeInput_value _ (app p)).
    assert (Hv : resourceView (startCamera b media (loadSettings s0)) = resourceView (app p)).
    { rewrite (proj1 (startCamera_views b media _)), (proj1 (loadSettings_views s0)).
      reflexivity. }
    destruct b; exact Hv.
  - unfold initPage. destruct b; reflexivity.
Qed.

Lemma reachable_previewInvariant b p : reachable b p -> previewInvariant p.
Proof.
  induction 1 as [now shown media p Hp | e p _ IH].
  - apply initPage_previewInvariant, Hp.
  - apply handle_previewInvariant, IH.
Qed.

Lemma reachable_run b events p : reachable b p -> reachable b (run b events p).
Proof.
  revert p. induction events as [| e events IH]; intros p Hp; [exact Hp |].
  apply (IH (handle b e p)). apply reach_step, Hp.
Qed.

(** Once every pending timeout has fired, the URLs they held are
    revoked and nothing else has changed. *)
Lemma timeouts_all_fire b p :
  let p' := run b (repeat TimeoutFires (length (revokeTimeouts p))) p in
  revokeTimeouts p' = [] /\ vars (app p') = vars (app p) /\ dom (app p') = dom (app p) /\
  downloads p' = downloads p /\
  forall url, In url (revokeTimeouts p) -> objectURLs (host (app p')) !! url = None.
Proof.
  remember (revokeTimeouts p) as ts eqn:Hts. revert p Hts.
  induction ts as [| t ts IH]; intros p Hts.
  - cbn. repeat split; [symmetry; exact Hts | intros url []].
  - pose (p1 := {| app := URL_revokeObjectURL t (app p);
                   settingsSheet_hidden := settingsSheet_hidden p;
                   downloads := downloads p; revokeTimeouts := ts;
                   overlayInterval := overlayInterval p |}).
    assert (Hstep : timeoutFires p = p1)
      by (unfold timeoutFires; rewrite <- Hts; reflexivity).
    cbn [length repeat run fold_left handle]. rewrite Hstep.
    destruct (IH p1 eq_refl) as (Hnil & Hv & Hd & Hdl & Hrev).
    fold (run b (repeat TimeoutFires (length ts)) p1).
    split; [exact Hnil | split; [exact Hv | split; [exact Hd | split; [exact Hdl |]]]].
    intros url [<- | Hin]; [| apply Hrev, Hin].
    destruct (in_dec String.string_dec t ts) as [Hin | Hnin]; [apply Hrev, Hin |].
    clear IH Hrev Hnil Hv Hd Hdl.
    assert (Hgone : objectURLs (host (app p1)) !! t = None) by apply lookup_delete_eq.
    assert (Hkeep : forall q, objectURLs (host (app q)) !! t = None ->
              objectURLs (host (app (handle b TimeoutFires q))) !! t = None).
    { intros q Hq. cbn [handle]. unfold timeoutFires.
      destruct (revokeTimeouts q) as [| u us]; [exact Hq |].
      cbn. apply lookup_delete_None. right. exact Hq. }
    generalize (length ts) as n. intros n. revert Hgone. generalize p1 as q.
    induction n as [| n IHn]; intros q Hq; [exact Hq |].
    cbn [repeat run fold_left]. apply (IHn (handle b TimeoutFires q)), Hkeep, Hq.
Qed.

Lemma blobURL_nonempty k : String.eqb (blobURL k) "" = false.
Proof. reflexivity. Qed.

End Invariants.

(** ** The photo on hold *)

Section Preview.
Context `{Platform}.

(** X10: while a photo is held for download and sharing, the preview
    is open and its image is the object URL of exactly that photo;
    listeners are taken to run one after the other. *)
Theorem held_photo_is_the_one_previewed b p blob :
  reachable b p ->
  capturedBlob (vars (app p)) = Some blob ->
  previewOverlay_hidden (dom (app p)) = false /\
  objectURLs (host (app p)) !! previewImg_src (dom (app p)) = Some blob.
Proof.
  intros Hp Hcb. destruct (reachable_previewInvariant b p Hp) as (_ & Hshow & _).
  apply Hshow, Hcb.
Qed.

(** X11: taking a photo and closing its preview gives back the object
    URL that the preview took: the registry is as it was before the
    capture, no photo is held, and the preview is hidden and empty. *)
Theorem capture_then_close_releases_url b now p :
  reachable b p ->
  frameReady (app p) = true ->
  let p' := run b [CaptureClick now true; PreviewCloseClick] p in
  objectURLs (host (app p')) = objectURLs (host (app p)) /\
  capturedBlob (vars (app p')) = None /\
  previewOverlay_hidden (dom (app p')) = true /\
  previewImg_src (dom (app p')) = "".
Proof.
  intros Hp Hr. cbn [run fold_left handle with_app app].
  destruct (closePreview_resources (capturePhoto b now true (app p)))
    as (Hcb & Hh & Hsrc & _ & Hurls).
  split; [| repeat split; assumption].
  rewrite Hurls. clear Hcb Hh Hsrc Hurls.
  destruct (capturePhoto_resourceView b now true (app p)) as [Hv | [blob Hv]].
  - rewrite capturePhoto_blob in Hv by exact Hr. unfold resourceView in Hv.
    cbn in Hv. injection Hv as _ _ _ _ Hc. lia.
  - unfold resourceView in Hv. injection Hv as _ -> _ -> _.
    rewrite blobURL_nonempty. apply delete_insert_id.
    destruct (reachable_previewInvariant b p Hp) as ((Hc & Hurls) & _ & _).
    destruct (objectURLs (host (app p)) !! blobURL (objectURL_count (host (app p))))
      as [b0 |] eqn:Hl; [| reflexivity].
    destruct (Hurls _ _ Hl) as (k & Hk & Heq). apply blobURL_inj in Heq; lia.
Qed.

(** X12: a download saves the held photo under [photo_<now>.jpg]
    through a URL of its own; once the pending timeouts have fired that
    URL is revoked, while the photo is still held and previewed. *)
Theorem download_saves_photo_and_revokes_url b now p blob :
  reachable b p ->
  capturedBlob (vars (app p)) = Some blob ->
  let p1 := handle b (DownloadClick now) p in
  let p2 := run b (repeat TimeoutFires (length (revokeTimeouts p1))) p1 in
  let url := blobURL (objectURL_count (host (app p))) in
  downloads p2
  = downloads p ++ [{| download_name := "photo_" +:+ String_of_int now +:+ ".jpg";
                       download_href := url; saved := Some blob |}] /\
  url <> previewImg_src (dom (app p)) /\
  revokeTimeouts p2 = [] /\
  objectURLs (host (app p2)) !! url = None /\
  capturedBlob (vars (app p2)) = Some blob /\
  previewOverlay_hidden (dom (app p2)) = false /\
  objectURLs (host (app p2)) !! previewImg_src (dom (app p2)) = Some blob.
Proof.
  intros Hp Hcb p1 p2 url.
  destruct (timeouts_all_fire b p1) as (Hnil & Hv & Hd & Hdl & Hrev). fold p2 in Hnil, Hv, Hd, Hdl, Hrev.
  assert (Hp1 : downloads p1
                = downloads p ++ [{| download_name := "photo_" +:+ String_of_int now +:+ ".jpg";
                                     download_href := url; saved := Some blob |}] /\
                vars (app p1) = vars (app p) /\ dom (app p1) = dom (app p) /\
                In url (revokeTimeouts p1)).
  { subst p1. cbn [handle]. unfold downloadPhoto. rewrite Hcb.
    cbn [URL_createObjectURL downloads app revokeTimeouts].
    repeat split.
    - do 3 f_equal. cbn. fold url. apply lookup_insert_eq.
    - apply in_or_app. right. left. reflexivity. }
  destruct Hp1 as (Hdl1 & Hv1 & Hd1 & Hin).
  assert (Hcb2 : capturedBlob (vars (app p2)) = Some blob) by (rewrite Hv, Hv1; exact Hcb).
  assert (Hp2 : reachable b p2) by (apply reachable_run, reach_step, Hp).
  destruct (reachable_previewInvariant b p2 Hp2) as (_ & Hshow & _).
  destruct (Hshow blob Hcb2) as [Hh Hl].
  destruct (reachable_previewInvariant b p Hp) as ((Hc & Hurls) & Hshow0 & _).
  destruct (Hshow0 blob Hcb) as [_ Hl0].
  repeat split; try assumption.
  - rewrite Hdl. exact Hdl1.
  - intros Heq. destruct (Hurls _ _ Hl0) as (k & Hk & Hs). rewrite Hs in Heq.
    apply blobURL_inj in Heq; lia.
  - apply Hrev, Hin.
Qed.

End Preview.

(** ** The torch *)

Section Torch.
Context `{Platform}.

Lemma torchInvariant_same_view s s' :
  torchView s' = torchView s -> torchInvariant s -> torchInvariant s'.
Proof.
  unfold torchInvariant, torchView. intros [= -> -> -> ->]. tauto.
Qed.

(** Whatever it finds, [startCamera] leaves the flash off and the torch
    marked as supported only on a stream that has one; where the camera
    fails it keeps the earlier stream and flag, which is where the
    earlier state is needed. *)
Lemma startCamera_torchInvariant media s :
  (torchSupported (vars s) = true ->
   exists stream, currentStream (vars s) = Some stream /\ hasTorch stream = true) ->
  torchInvariant (startCamera TorchBuild media s).
Proof.
  intros Hsup. unfold torchInvariant, startCamera, checkTorchSupport, hasTorch.
  destruct media as [| err | [id [[] |]]], (currentStream (vars s)) as [old |] eqn:Hcs;
    try destruct (_ || _); try destruct (_ || _); cbn;
    repeat split; try discriminate; try (rewrite Hcs; exact Hsup); eauto.
Qed.

Lemma startCamera_flashOff media s :
  flashOn (vars (startCamera TorchBuild media s)) = false.
Proof.
  unfold startCamera, checkTorchSupport.
  destruct media as [| err | [id [[] |]]], (currentStream (vars s));
    try destruct (_ || _); try destruct (_ || _); reflexivity.
Qed.

Lemma toggleFlash_torchInvariant outcome s :
  torchInvariant s -> torchInvariant (toggleFlash outcome s).
Proof.
  intros Hinv. unfold toggleFlash.
  destruct (torchSupported (vars s)) eqn:Hts; [| exact Hinv].
  destruct Hinv as (Hon & Hsup & Hbtn).
  destruct (Hsup Hts) as (stream & Hcs & Htorch). rewrite Hcs. cbn [negb].
  assert (Hstream : exists stream0,
            Some stream = Some stream0 /\ hasTorch stream0 = true) by eauto.
  unfold hasTorch in Htorch. destruct (videoTrack stream) as [cap |]; [| discriminate].
  unfold torchInvariant.
  destruct outcome; cbn; rewrite ?Hts, ?Hcs; repeat split; try discriminate; eauto.
Qed.

End Torch.

Section TorchReachable.
Context `{Platform}.

Lemma click_cameraRetryBtn_torchInvariant media s :
  torchInvariant s -> torchInvariant (click_cameraRetryBtn TorchBuild media s).
Proof.
  unfold click_cameraRetryBtn.
  destruct (cameraOverlay (dom s)) as [[t m [btn |]] |]; try exact (fun h => h).
  cbn [cameraRetryBtn]. generalize (click_listeners btn) as ls. intros ls.
  revert s. induction ls as [| [] ls IH]; intros s Hinv; [exact Hinv |].
  cbn [fold_left runListener]. apply IH, startCamera_torchInvariant, Hinv.
Qed.

Lemma handle_torchInvariant e p :
  torchInvariant (app p) -> torchInvariant (app (handle TorchBuild e p)).
Proof.
  destruct e; cbn [handle with_app app].
  - apply torchInvariant_same_view, capturePhoto_views.
  - intros Hinv. apply startCamera_torchInvariant, Hinv.
  - apply toggleFlash_torchInvariant.
  - apply click_cameraRetryBtn_torchInvariant.
  - exact (fun h => h).
  - exact (fun h => h).
  - apply torchInvariant_same_view, closePreview_views.
  - unfold downloadPhoto. destruct (capturedBlob (vars (app p))); exact (fun h => h).
  - apply torchInvariant_same_view, sharePhoto_views.
  - apply torchInvariant_same_view.
    apply (proj1 (settings_listeners_views TorchBuild now (app p))).
  - apply torchInvariant_same_view.
    apply (proj1 (proj2 (settings_listeners_views TorchBuild now (app p)))).
  - apply torchInvariant_same_view.
    apply (proj2 (proj2 (settings_listeners_views TorchBuild now (app p)))).
  - unfold timeoutFires. destruct (revokeTimeouts p); exact (fun h => h).
  - destruct (overlayInterval p); exact (fun h => h).
  - exact (fun h => h).
  - exact (fun h => h).
Qed.

Lemma reachable_torchInvariant p : reachable TorchBuild p -> torchInvariant (app p).
Proof.
  induction 1 as [now shown media p (Hvars & _) | e p _ IH].
  - cbn [initPage with_app app]. apply startCamera_torchInvariant.
    set (s0 := set_customTimeInput_value _ (app p)).
    destruct (loadSettings_views s0) as (_ & Ht & _). unfold torchView in Ht.
    injection Ht as _ Hts _ _. rewrite Hts. subst s0. cbn. rewrite Hvars. discriminate.
  - apply handle_torchInvariant, IH.
Qed.


End TorchReachable.

(** ** The live overlay *)

Section Overlay.
Context `{Platform}.

Lemma overlayInvariant_same_view p p' :
  overlayView (app p') = overlayView (app p) ->
  overlayInterval p' = overlayInterval p ->
  overlayInvariant p -> overlayInvariant p'.
Proof.
  intros Hv Hi (Hrun & now & Ho). split; [rewrite Hi; exact Hrun |]. exists now.
  rewrite (getTimestampText_overlayView _ now _ _ Hv).
  unfold overlayView in Hv. injection Hv as _ _ _ ->. exact Ho.
Qed.

Lemma overlayInvariant_with_app f p :
  overlayView (f (app p)) = overlayView (app p) ->
  overlayInvariant p -> overlayInvariant (with_app f p).
Proof. intros Hv. apply overlayInvariant_same_view; [exact Hv | reflexivity]. Qed.

Lemma overlayInvariant_refreshed now f p :
  overlayInvariant p ->
  overlayInvariant (with_app (fun s => refreshOverlay LiveOverlayBuild now (f s)) p).
Proof.
  intros (Hrun & _). split; [exact Hrun |]. exists now. reflexivity.
Qed.

Lemma handle_overlayInvariant e p :
  overlayInvariant p -> overlayInvariant (handle LiveOverlayBuild e p).
Proof.
  destruct e; cbn [handle].
  - apply overlayInvariant_with_app, capturePhoto_views.
  - apply overlayInvariant_with_app, flipCamera_views.
  - exact (fun h => h).
  - apply overlayInvariant_with_app, click_cameraRetryBtn_views.
  - exact (fun h => h).
  - exact (fun h => h).
  - apply overlayInvariant_with_app, closePreview_views.
  - unfold downloadPhoto. destruct (capturedBlob (vars (app p))); [| exact (fun h => h)].
    apply overlayInvariant_same_view; reflexivity.
  - apply overlayInvariant_with_app, sharePhoto_views.
  - apply (overlayInvariant_refreshed now
             (fun s => saveSettings
                         (set_timestampEnabled (timestampToggle_checked
                            (dom (set_timestampToggle_checked checked s)))
                            (set_timestampToggle_checked checked s)))).
  - exact (fun '(conj Hrun _) => conj Hrun (ex_intro _ now eq_refl)).
  - exact (fun '(conj Hrun _) => conj Hrun (ex_intro _ now eq_refl)).
  - unfold timeoutFires. destruct (revokeTimeouts p); [exact (fun h => h) |].
    apply overlayInvariant_same_view; reflexivity.
  - intros (Hrun & Ho). rewrite Hrun. split; [exact Hrun |]. exists now. reflexivity.
  - apply overlayInvariant_with_app. reflexivity.
  - apply overlayInvariant_with_app. reflexivity.
Qed.

Lemma reachable_overlayInvariant p : reachable LiveOverlayBuild p -> overlayInvariant p.
Proof.
  induction 1 as [now shown media p _ | e p _ IH].
  - split; [reflexivity |]. exists shown. reflexivity.
  - apply handle_overlayInvariant, IH.
Qed.

(** X14: in the live-overlay build the overlay always shows what a
    capture would stamp for the settings as they are: hidden and empty
    while the timestamp is off, the picked time while a custom time is
    in force, and otherwise the time of the last refresh, which a timer
    tick brings up to date. *)
Theorem overlay_follows_settings p :
  reachable LiveOverlayBuild p ->
  (exists shown,
     timestampOverlay (dom (app p))
     = overlayOf (getTimestampText LiveOverlayBuild shown (app p))) /\
  (timestampEnabled (vars (app p)) = false ->
   timestampOverlay (dom (app p)) = {| textContent := ""; style_display := "none" |}) /\
  (timestampEnabled (vars (app p)) = true ->
   timestampMode (vars (app p)) = "custom" ->
   truthy (customDateTime (vars (app p))) = true ->
   timestampOverlay (dom (app p))
   = overlayOf (formatDateTime LiveOverlayBuild (Date_new (customDateTime (vars (app p)))))) /\
  (forall now,
     timestampOverlay (dom (app (handle LiveOverlayBuild (IntervalTick now) p)))
     = overlayOf (getTimestampText LiveOverlayBuild now (app p))).
Proof.
  intros Hp. destruct (reachable_overlayInvariant p Hp) as (Hrun & shown & Ho).
  split; [exists shown; exact Ho |]. split; [| split].
  - intros Hoff. rewrite Ho. unfold getTimestampText. rewrite Hoff. reflexivity.
  - intros Hon Hmode Hpicked. rewrite Ho. unfold getTimestampText.
    rewrite Hon, Hmode, Hpicked. reflexivity.
  - intros now. cbn [handle]. rewrite Hrun. reflexivity.
Qed.

End Overlay.

(** ** The service worker *)

Module ServiceWorkerFacts.
Import ServiceWorker.

Lemma activate_cons n c cs :
  activate ((n, c) :: cs)
  = if String.eqb n CACHE_NAME then (n, c) :: activate cs else activate cs.
Proof.
  unfold activate. destruct (String.eqb n CACHE_NAME) eqn:Hn.
  - apply filter_cons_True. exact Hn.
  - apply filter_cons_False. cbn [fst]. rewrite Hn. discriminate.
Qed.

Lemma cache_of_activate name cs :
  cache_of name (activate cs)
  = if String.eqb name CACHE_NAME then cache_of CACHE_NAME cs else None.
Proof.
  induction cs as [| [n c] cs IH].
  - destruct (String.eqb name CACHE_NAME); reflexivity.
  - rewrite activate_cons. cbn [cache_of].
    destruct (String.eqb n CACHE_NAME) eqn:Hn; [| exact IH].
    cbn [cache_of]. apply String.eqb_eq in Hn. subst n.
    rewrite (String.eqb_sym CACHE_NAME name).
    destruct (String.eqb name CACHE_NAME) eqn:Hname; [reflexivity |].
    rewrite IH. reflexivity.
Qed.

(** After [activate] a match is looked up in the current cache first. *)
Lemma caches_match_activate req cs c r :
  cache_of CACHE_NAME cs = Some c ->
  c !! url req = Some r ->
  method req = "GET" ->
  caches_match req (activate cs) = Some r.
Proof.
  intros Hc Hr Hget. induction cs as [| [n c0] cs IH]; [discriminate |].
  rewrite activate_cons. cbn [cache_of] in Hc.
  destruct (String.eqb n CACHE_NAME) eqn:Hn; [| apply IH, Hc].
  injection Hc as ->. cbn [caches_match]. rewrite Hget, Hr. reflexivity.
Qed.

Lemma cache_of_open name cs :
  exists c, cache_of name (caches_open name cs) = Some c /\
            (forall c0, cache_of name cs = Some c0 -> c = c0) /\
            (cache_of name cs = None -> c = ∅).
Proof.
  induction cs as [| [n c0] cs IH]; cbn [caches_open cache_of].
  - rewrite String.eqb_refl. exists ∅. repeat split. discriminate.
  - destruct (String.eqb n name) eqn:Hn; cbn [cache_of]; rewrite Hn.
    + exists c0. split; [reflexivity |]. split; [intros c1 [= <-]; reflexivity | discriminate].
    + exact IH.
Qed.

Lemma cache_of_open_other name other cs :
  other <> name -> cache_of other (caches_open name cs) = cache_of other cs.
Proof.
  intros Hne. induction cs as [| [n c0] cs IH]; cbn [caches_open cache_of].
  - apply String.eqb_neq in Hne. rewrite (String.eqb_sym name other), Hne. reflexivity.
  - destruct (String.eqb n name) eqn:Hn; cbn [cache_of]; [reflexivity |].
    rewrite IH. reflexivity.
Qed.

Lemma cache_of_update name f cs :
  cache_of name (cache_update name f cs) = option_map f (cache_of name cs).
Proof.
  induction cs as [| [n c0] cs IH]; [reflexivity |]. cbn [cache_update cache_of].
  destruct (String.eqb n name) eqn:Hn; cbn [cache_of]; rewrite Hn; [reflexivity | exact IH].
Qed.

Lemma cache_of_update_other name other f cs :
  other <> name -> cache_of other (cache_update name f cs) = cache_of other cs.
Proof.
  intros Hne. induction cs as [| [n c0] cs IH]; [reflexivity |]. cbn [cache_update cache_of].
  destruct (String.eqb_spec n name) as [-> | Hn]; cbn [cache_of].
  - apply String.eqb_neq in Hne. rewrite (String.eqb_sym name other), Hne. reflexivity.
  - rewrite IH. reflexivity.
Qed.

(** What [fetchAll] returns is the network's answer for each URL. *)
Lemma fetchAll_spec net urls :
  match fetchAll net urls with
  | Some entries =>
      map fst entries = urls /\
      Forall (fun e => net (GET (fst e)) = Some (snd e) /\
                       response_ok (snd e) = true /\ status (snd e) <> 206) entries
  | None =>
      Exists (fun u => match net (GET u) with
                       | Some r => response_ok r = false \/ status r = 206
                       | None => True
                       end) urls
  end.
Proof.
  induction urls as [| u urls IH]; cbn [fetchAll].
  - split; [reflexivity | apply Forall_nil; exact I].
  - destruct (net (GET u)) as [r |] eqn:Hu; [| apply Exists_cons_hd; rewrite Hu; exact I].
    destruct (response_ok r) eqn:Hok; cbn [andb];
      [| apply Exists_cons_hd; rewrite Hu; left; exact Hok].
    destruct (Z.eqb_spec (status r) 206) as [H206 | H206]; cbn [negb];
      [apply Exists_cons_hd; rewrite Hu; right; exact H206 |].
    destruct (fetchAll net urls) as [entries |].
    + destruct IH as [Hm Hf]. split; [cbn; rewrite Hm; reflexivity |].
      apply Forall_cons. split; [| exact Hf]. cbn. repeat split; assumption.
    + apply Exists_cons_tl, IH.
Qed.

Lemma putAll_lookup_other entries c u :
  u ∉ map fst entries -> putAll entries c !! u = c !! u.
Proof.
  unfold putAll. revert c. induction entries as [| [k r] entries IH]; intros c Hu;
    [reflexivity |].
  cbn [fold_left map fst snd] in *. apply not_elem_of_cons in Hu as [Hne Hu].
  rewrite (IH _ Hu). apply lookup_insert_ne. congruence.
Qed.

Lemma putAll_lookup entries c u r :
  NoDup (map fst entries) -> (u, r) ∈ entries -> putAll entries c !! u = Some r.
Proof.
  unfold putAll. revert c. induction entries as [| [k r0] entries IH]; intros c Hnd Hin.
  - apply elem_of_nil in Hin. destruct Hin.
  - cbn [fold_left map fst snd] in *. apply NoDup_cons in Hnd as [Hk Hnd].
    apply elem_of_cons in Hin as [[= <- <-] | Hin].
    + fold (putAll entries (<[u := r]> c)). rewrite (putAll_lookup_other _ _ _ Hk).
      apply lookup_insert_eq.
    + apply (IH _ Hnd Hin).
Qed.

Section Worker.
Variable resolve : string -> string.

Lemma addAll_spec net urls :
  match addAll net urls with
  | Some entries =>
      NoDup urls /\ map fst entries = urls /\
      Forall (fun e => net (GET (fst e)) = Some (snd e) /\
                       response_ok (snd e) = true /\ status (snd e) <> 206) entries
  | None =>
      ~ NoDup urls \/
      Exists (fun u => match net (GET u) with
                       | Some r => response_ok r = false \/ status r = 206
                       | None => True
                       end) urls
  end.
Proof.
  unfold addAll. destruct (bool_decide_reflect (NoDup urls)) as [Hnd | Hnd].
  - pose proof (fetchAll_spec net urls) as Hf.
    destruct (fetchAll net urls); [split; [exact Hnd | exact Hf] | right; exact Hf].
  - left. exact Hnd.
Qed.

Lemma install_other_caches net cs name :
  name <> CACHE_NAME ->
  cache_of name (fst (install resolve net cs)) = cache_of name cs.
Proof.
  intros Hne. unfold install. destruct (addAll net (map resolve ASSETS)); cbn [fst].
  - rewrite cache_of_update_other by exact Hne. apply cache_of_open_other, Hne.
  - apply cache_of_open_other, Hne.
Qed.

(** X15: activation deletes every cache but the current one, which
    keeps its content. *)
Theorem activate_keeps_current_cache_only cs :
  (forall name, name <> CACHE_NAME -> cache_of name (activate cs) = None) /\
  cache_of CACHE_NAME (activate cs) = cache_of CACHE_NAME cs /\
  Forall (fun e => fst e = CACHE_NAME) (activate cs).
Proof.
  split; [| split].
  - intros name Hne. rewrite cache_of_activate. apply String.eqb_neq in Hne.
    rewrite Hne. reflexivity.
  - rewrite cache_of_activate. reflexivity.
  - induction cs as [| [n c] cs IH]; [apply Forall_nil; exact I |].
    rewrite activate_cons. destruct (String.eqb n CACHE_NAME) eqn:Hn; [| exact IH].
    apply Forall_cons. split; [apply String.eqb_eq, Hn | exact IH].
Qed.


(** X17: installation leaves every other cache alone, and a failed
    installation stores nothing: the current cache keeps what it held. *)
Theorem install_touches_current_cache_only net cs :
  (forall name, name <> CACHE_NAME ->
     cache_of name (fst (install resolve net cs)) = cache_of name cs) /\
  (snd (install resolve net cs) = false ->
   cache_of CACHE_NAME (fst (install resolve net cs))
   = Some (default ∅ (cache_of CACHE_NAME cs))).
Proof.
  split; [intros name; apply install_other_caches |].
  unfold install. destruct (addAll net (map resolve ASSETS)); cbn [fst snd];
    [discriminate |]. intros _.
  destruct (cache_of_open CACHE_NAME cs) as (c & -> & Hsome & Hnone).
  destruct (cache_of CACHE_NAME cs) as [c0 |]; cbn [default].
  - rewrite (Hsome c0 eq_refl). reflexivity.
  - rewrite (Hnone eq_refl). reflexivity.
Qed.

(** X18: once installation has succeeded and the worker is active,
    every asset is answered from the cache with the response fetched at
    installation, whatever the network does by then and whatever older
    caches held. *)
Theorem installed_assets_served_from_cache net later cs asset :
  snd (install resolve net cs) = true ->
  In asset ASSETS ->
  exists r,
    net (GET (resolve asset)) = Some r /\
    onfetch later (activate (fst (install resolve net cs))) (GET (resolve asset)) = Some r.
Proof.
  unfold install. pose proof (addAll_spec net (map resolve ASSETS)) as Hspec.
  destruct (addAll net (map resolve ASSETS)) as [entries |]; cbn [fst snd];
    [| discriminate]. intros _ Hin. destruct Hspec as (Hnd & Hm & Hf).
  assert (Hu : In (resolve asset) (map fst entries)).
  { rewrite Hm. apply in_map, Hin. }
  apply in_map_iff in Hu as ([u r] & He & Hin'). cbn [fst] in He. subst u.
  rewrite List.Forall_forall in Hf. destruct (Hf _ Hin') as (Hnet & _).
  exists r. split; [exact Hnet |].
  destruct (cache_of_open CACHE_NAME cs) as (c & Hc & _).
  unfold onfetch.
  rewrite (caches_match_activate (GET (resolve asset)) _ (putAll entries c) r).
  - reflexivity.
  - rewrite cache_of_update, Hc. reflexivity.
  - cbn [url GET]. apply putAll_lookup; [rewrite Hm; exact Hnd |].
    apply list_elem_of_In, Hin'.
  - reflexivity.
Qed.

(** X19: a request that is not a GET, or whose URL no cache holds, is
    answered by the network alone. *)
Theorem uncached_requests_go_to_network (net : Network) cs req :
  method req <> "GET" \/ Forall (fun e => snd e !! url req = None) cs ->
  onfetch net cs req = net req.
Proof.
  intros Hmiss. unfold onfetch.
  assert (Hnone : caches_match req cs = None).
  { induction cs as [| [n c] cs IH]; [reflexivity |]. cbn [caches_match].
    destruct Hmiss as [Hm | Hall].
    - apply String.eqb_neq in Hm. rewrite Hm. apply IH. left.
      apply String.eqb_neq, Hm.
    - apply Forall_cons in Hall as [Hc Hall]. cbn [snd] in Hc. rewrite Hc.
      destruct (String.eqb (method req) "GET"); apply IH; right; exact Hall. }
  rewrite Hnone. reflexivity.
Qed.

End Worker.

End ServiceWorkerFacts.

(** ** Settings across sessions *)

Section Sessions.
Context `{Platform}.

Lemma startCamera_controlsView b media s :
  controlsView (startCamera b media s) = controlsView s.
Proof.
  unfold startCamera, checkTorchSupport.
  destruct media as [| err | [id [[] |]]], b, (currentStream (vars s));
    try destruct (_ || _); try destruct (_ || _); reflexivity.
Qed.

(** What [init] leaves of the settings is what its [loadSettings] found. *)
Lemma initPage_settings b now shown media p :
  let s0 := set_customTimeInput_value
              (input_value_set (JString (toLocalISOString now))) (app p) in
  overlayView (app (initPage b now shown media p)) = overlayView (loadSettings s0)
  \/ (b = LiveOverlayBuild /\
      settingsTriple (app (initPage b now shown media p)) = settingsTriple (loadSettings s0)).
Proof.
  intros s0. destruct b.
  - left. apply startCamera_views.
  - right. split; [reflexivity |]. cbn [initPage startOverlayTimer with_app app].
    destruct (startCamera_views LiveOverlayBuild media (loadSettings s0)) as [_ Ho].
    unfold overlayView in Ho. injection Ho as He Hm Hc _.
    unfold settingsTriple. cbn. fold s0. rewrite He, Hm, Hc. reflexivity.
Qed.

Lemma initPage_settingsTriple b now shown media p :
  settingsTriple (app (initPage b now shown media p))
  = settingsTriple (loadSettings (set_customTimeInput_value
                      (input_value_set (JString (toLocalISOString now))) (app p))).
Proof.
  destruct (initPage_settings b now shown media p) as [Ho | [_ Ht]]; [| exact Ht].
  unfold overlayView in Ho. injection Ho as He Hm Hc _.
  unfold settingsTriple. rewrite He, Hm, Hc. reflexivity.
Qed.

Lemma initPage_controlsView b now shown media p :
  controlsView (app (initPage b now shown media p))
  = controlsView (loadSettings (set_customTimeInput_value
                    (input_value_set (JString (toLocalISOString now))) (app p))).
Proof.
  destruct b; cbn [initPage startOverlayTimer with_app app].
  - apply startCamera_controlsView.
  - rewrite <- (startCamera_controlsView LiveOverlayBuild media (loadSettings _)).
    reflexivity.
Qed.

Lemma saveSettings_success s :
  access_denied (localStorage (host s)) = false ->
  quota_exceeded (localStorage (host s)) = false ->
  saveSettings s
  = set_localStorage
      {| stored := <["tsCamera_settings" := JSON_stringify (savedRecord s)]>
                     (stored (localStorage (host s)));
         access_denied := false; quota_exceeded := false |} s.
Proof.
  cbv [saveSettings saveSettings_body exec try_catch mbind M_bind mret M_ret gets
       localStorage_setItem].
  intros Ha Hq. rewrite Ha, Hq. reflexivity.
Qed.

Lemma saveSettings_vars_dom s :
  vars (saveSettings s) = vars s /\ dom (saveSettings s) = dom s.
Proof.
  destruct (saveSettings_views s) as (Hv & Hd & _). split; assumption.
Qed.

(** X20: [saveSettings] never changes a variable or the page, writes
    no storage key but its own, and saving twice is saving once. *)
Theorem saveSettings_only_writes_its_key s :
  vars (saveSettings s) = vars s /\ dom (saveSettings s) = dom s /\
  (forall key, key <> "tsCamera_settings" ->
     stored (localStorage (host (saveSettings s))) !! key
     = stored (localStorage (host s)) !! key) /\
  saveSettings (saveSettings s) = saveSettings s.
Proof.
  destruct (access_denied (localStorage (host s))) eqn:Ha;
    [rewrite !(saveSettings_write_fails s (or_introl Ha)); repeat split |].
  destruct (quota_exceeded (localStorage (host s))) eqn:Hq;
    [rewrite !(saveSettings_write_fails s (or_intror Hq)); repeat split |].
  rewrite (saveSettings_success s Ha Hq).
  split; [reflexivity |]. split; [reflexivity |]. split.
  - intros key Hne. cbn. apply lookup_insert_ne. congruence.
  - rewrite saveSettings_success by reflexivity. cbn.
    unfold savedRecord. cbn. rewrite insert_insert_eq. reflexivity.
Qed.

Lemma loadSettings_customTimeRow s :
  customTimeRow_hidden (dom (loadSettings s)) =
  match storedField s "timestampMode" with
  | JString m => if isMode m then negb (String.eqb m "custom")
                 else customTimeRow_hidden (dom s)
  | _ => customTimeRow_hidden (dom s)
  end.
Proof. load_branches; reflexivity. Qed.

Lemma loadSettings_no_record s :
  storedRecord s = None -> vars (loadSettings s) = vars s /\ dom (loadSettings s) = dom s.
Proof. load_branches; try discriminate; intros _; split; reflexivity. Qed.

(** The next session's [init] finds the record of a successful save. *)
Lemma init_after_save b now shown media s p0 :
  access_denied (localStorage (host s)) = false ->
  quota_exceeded (localStorage (host s)) = false ->
  JSON_stringify (savedRecord s) <> "" ->
  JSON_parse (JSON_stringify (savedRecord s)) = inl (savedRecord s) ->
  localStorage (host (app p0)) = localStorage (host (saveSettings s)) ->
  let s2 := app (initPage b now shown media p0) in
  let picker := customTimeInput_value (dom s) in
  (timestampEnabled (vars s2) = timestampEnabled (vars s) /\
   timestampToggle_checked (dom s2) = timestampEnabled (vars s)) /\
  (isMode (timestampMode (vars s)) = true ->
   timestampMode (vars s2) = timestampMode (vars s) /\
   timeMode_value (dom s2) = timestampMode (vars s) /\
   customTimeRow_hidden (dom s2) = negb (String.eqb (timestampMode (vars s)) "custom")) /\
  (picker <> "" ->
   customDateTime (vars s2) = JString picker /\
   customTimeInput_value (dom s2) = input_value_set (JString picker)).
Proof.
  intros Ha Hq Hne Hrt Hst s2 picker.
  set (s0 := set_customTimeInput_value
               (input_value_set (JString (toLocalISOString now))) (app p0)).
  assert (Hfield : forall key, storedField s0 key = assoc key
            [("timestampEnabled", JBool (timestampEnabled (vars s)));
             ("timestampMode", JString (timestampMode (vars s)));
             ("customDateTime", JString picker)]).
  { intros key. unfold storedField.
    rewrite (storedRecord_after_save s s0 Ha Hq Hne Hrt Hst). reflexivity. }
  pose proof (initPage_settingsTriple b now shown media p0) as Ht.
  pose proof (initPage_controlsView b now shown media p0) as Hc.
  fold s2 s0 in Ht, Hc. unfold settingsTriple in Ht. unfold controlsView in Hc.
  injection Ht as -> -> ->. injection Hc as -> -> -> ->.
  destruct (loadSettings_controls s0) as (-> & -> & ->).
  rewrite loadSettings_timestampEnabled, loadSettings_timestampMode,
    loadSettings_customDateTime, loadSettings_customTimeRow, !Hfield.
  cbn [assoc String.eqb Ascii.eqb Bool.eqb truthy].
  split; [split; reflexivity |]. split.
  - intros ->. repeat split.
  - intros Hp. apply String.eqb_neq in Hp. rewrite Hp. split; reflexivity.
Qed.

(** X21: a setting chosen in one session is in force in the next: when
    the write succeeds and the platform's [JSON.parse] reads back what
    its [JSON.stringify] wrote, the [init] of a later page with the same
    storage restores the toggle, a mode that is one of the two, and a
    picked time that is not empty, in the variables and in the controls. *)
Theorem settings_survive_reload b e p p0 now shown media :
  let p1 := handle b e p in
  access_denied (localStorage (host (app p))) = false ->
  quota_exceeded (localStorage (host (app p))) = false ->
  JSON_stringify (savedRecord (app p1)) <> "" ->
  JSON_parse (JSON_stringify (savedRecord (app p1))) = inl (savedRecord (app p1)) ->
  localStorage (host (app p0)) = localStorage (host (app p1)) ->
  settingChosen e (app (initPage b now shown media p0)).
Proof.
  intros p1 Ha Hq Hne Hrt Hst.
  assert (Hrefresh : forall t s,
            savedRecord (refreshOverlay b t (saveSettings s)) = savedRecord s /\
            localStorage (host (refreshOverlay b t (saveSettings s)))
            = localStorage (host (saveSettings s))).
  { intros t s. destruct (saveSettings_vars_dom s) as [Hv Hd].
    unfold savedRecord. destruct b; cbn; rewrite Hv, Hd; split; reflexivity. }
  destruct e; try exact I; subst p1; cbn [handle with_app app] in Hne, Hrt, Hst;
    unfold timestampToggle_change, timeMode_change, customTimeInput_input in Hne, Hrt, Hst;
    match type of Hst with
    | _ = localStorage (host (refreshOverlay b ?t (saveSettings ?s1))) =>
        destruct (Hrefresh t s1) as [Hrec Hsto]; rewrite Hrec in Hne, Hrt;
        rewrite Hsto in Hst;
        destruct (init_after_save b now shown media s1 p0 Ha Hq Hne Hrt Hst)
          as (Htoggle & Hmode & Hpicker)
    end; cbn [settingChosen].
  - exact Htoggle.
  - exact Hmode.
  - exact Hpicker.
Qed.

(** X22: on a first run, or whenever storage yields no record, [init]
    leaves the defaults: the timestamp is on and shows the current time,
    and the picker is preset to the local time of the start. *)
Theorem first_run_stamps_current_time b now shown media p t :
  pageLoaded p ->
  storedRecord (app p) = None ->
  let s := app (initPage b now shown media p) in
  settingsTriple s = (true, "current", JString "") /\
  customTimeInput_value (dom s) = input_value_set (JString (toLocalISOString now)) /\
  getTimestampText b t s = formatDateTime b (Some t).
Proof.
  intros (Hvars & _) Hnone s.
  set (s0 := set_customTimeInput_value
               (input_value_set (JString (toLocalISOString now))) (app p)).
  destruct (loadSettings_no_record s0 Hnone) as [Hv Hd].
  pose proof (initPage_settingsTriple b now shown media p) as Ht.
  pose proof (initPage_controlsView b now shown media p) as Hc.
  fold s s0 in Ht, Hc.
  assert (Htriple : settingsTriple s = (true, "current", JString "")).
  { rewrite Ht. unfold settingsTriple. rewrite Hv. subst s0. cbn. rewrite Hvars.
    reflexivity. }
  split; [exact Htriple |]. split.
  - unfold controlsView in Hc. injection Hc as _ _ _ ->. rewrite Hd. reflexivity.
  - unfold settingsTriple in Htriple. injection Htriple as He Hm Hcd.
    unfold getTimestampText. rewrite He, Hm, Hcd. reflexivity.
Qed.

End Sessions.

(** * Examples on the reference platform *)

#[local] Existing Instance referencePlatform.

Lemma capturePhoto_portrait_1920x1080 :
  exists blob,
    capturedBlob (vars (capturePhoto TorchBuild feb1 true portraitPage))
      = Some blob /\
    (blob_width blob, blob_height blob) = (1080, 1920).
Proof.
  destruct (capturePhoto_exports_corrected_dimensions
              TorchBuild feb1 portraitPage) as [Hblob _].
  - simpl. lia.
  - simpl. lia.
  - exact Hblob.
Defined.

Lemma formatDateTime_2024_dates :
  String.compare (formatDateTime LiveOverlayBuild (Some jan2))
                 (formatDateTime LiveOverlayBuild (Some feb1)) = Lt /\
  matchesPattern "dd/dd/dddd dd:dd"
    (formatDateTime TorchBuild (Some jan2)) = true.
Proof.
  destruct (formatDateTime_fixed_width_and_order) as [_ Hvalid].
  destruct (Hvalid jan2 feb1) as (_ & _ & Hpat & _ & _ & _ & Hcmp & _).
  - vm_compute. split; discriminate.
  - vm_compute. split; discriminate.
  - split; [| exact Hpat]. rewrite Hcmp. reflexivity.
Defined.

(** The day-first form puts 1 February before 2 January; a three-digit
    year gives a shorter string and a five-digit year a longer one, and
    neither sorts with the four-digit years; and where the clocks are
    set back, a stamp taken half an hour before sorts after the one
    taken at that moment. *)
Lemma formatDateTime_not_sortable_nor_fixed_width :
  jan2 < feb1 /\
  String.ltb (formatDateTime TorchBuild (Some feb1))
             (formatDateTime TorchBuild (Some jan2)) = true /\
  String.length (formatDateTime LiveOverlayBuild
                   (Some (Time.TimeFromYear 999))) = 18%nat /\
  String.length (formatDateTime LiveOverlayBuild (Some feb1)) = 19%nat /\
  String.ltb (formatDateTime LiveOverlayBuild (Some feb1))
             (formatDateTime LiveOverlayBuild
                (Some (Time.TimeFromYear 999))) = true /\
  String.length (formatDateTime LiveOverlayBuild
                   (Some (Time.TimeFromYear 10000))) = 20%nat /\
  String.ltb (formatDateTime LiveOverlayBuild (Some (Time.TimeFromYear 10000)))
             (formatDateTime LiveOverlayBuild (Some feb1)) = true /\
  beforeFallBack < clocksGoBack /\
  formatDateTime (H := fallBackPlatform) LiveOverlayBuild (Some beforeFallBack)
  = "2024-10-27 01:30:00" /\
  formatDateTime (H := fallBackPlatform) LiveOverlayBuild (Some clocksGoBack)
  = "2024-10-27 01:00:00" /\
  String.ltb (formatDateTime (H := fallBackPlatform) LiveOverlayBuild (Some clocksGoBack))
             (formatDateTime (H := fallBackPlatform) LiveOverlayBuild
                (Some beforeFallBack)) = true.
Proof. vm_compute. repeat split. Qed.

Lemma capturePhoto_front_camera_mirrored :
  exists st rest,
    bitmap (captureCanvas (dom (capturePhoto TorchBuild feb1 true
                                  (set_facingMode user portraitPage))))
      = DrawVideo st 0 0 1920 1080 :: rest /\
    applyMatrix (ctm st) (0, 0) = (1080, 1920) /\
    determinant (ctm st) = -1.
Proof.
  destruct (capturePhoto_mirrors_front_camera_only
              TorchBuild feb1 true (set_facingMode user portraitPage))
    as (st & rest & Hdraw & Hplace & Hdet).
  - simpl. lia.
  - simpl. lia.
  - exists st, rest. split; [exact Hdraw |]. split; [| exact Hdet].
    rewrite Hplace. reflexivity.
Defined.

Lemma saveSettings_loadSettings_picked_time :
  settingsTriple (loadSettings (saveSettings pickedPage))
  = (true, "custom", JString "2024-02-01T00:00").
Proof.
  destruct (saveSettings_loadSettings_round_trip
              pickedPage (saveSettings pickedPage)) as [_ Htriple].
  - reflexivity.
  - reflexivity.
  - vm_compute. discriminate.
  - vm_compute. reflexivity.
  - reflexivity.
  - rewrite Htriple; reflexivity.
Defined.

(** After start-up the picker shows the current time while
    [customDateTime] is still empty: saving and loading then changes
    [customDateTime].  And when the write fails, loading brings back the
    older stored record. *)
Lemma saveSettings_loadSettings_changes_triple :
  let s := init TorchBuild feb1 MediaUnsupported portraitPage in
  let s2 := set_timestampEnabled false (loadedPage 1920 1080 390 844 fullStorage) in
  settingsTriple s = (true, "current", JString "") /\
  settingsTriple (loadSettings (saveSettings s))
    = (true, "current", JString "2024-02-01T00:00") /\
  settingsTriple s2 = (false, "current", JString "") /\
  settingsTriple (loadSettings (saveSettings s2))
    = (true, "current", JString "").
Proof. vm_compute. repeat split. Qed.

Lemma disabled_timestamp_custom_mode :
  let s := set_timestampEnabled false pickedPage in
  getTimestampText LiveOverlayBuild feb1 s = "" /\
  exists blob,
    capturedBlob (vars (capturePhoto LiveOverlayBuild feb1 true s))
      = Some blob /\
    existsb isFillText (blob_image blob) = false.
Proof.
  intros s.
  destruct (disabled_timestamp_draws_no_text
              LiveOverlayBuild feb1 s) as [Htext Hdraw].
  - reflexivity.
  - split; [exact Htext |]. destruct Hdraw as [_ Hblob]; [reflexivity | exact Hblob].
Defined.

Lemma startCamera_permission_denied :
  exists panel,
    cameraOverlay (dom (startCamera TorchBuild (MediaRejected NotAllowedError) portraitPage))
      = Some panel /\
    overlay_title panel = "Camera access denied" /\
    buttonText panel = Some "Grant Camera Access".
Proof.
  destruct (startCamera_classifies_failure TorchBuild (MediaRejected NotAllowedError)
              portraitPage) as (c & panel & Hc & Hpanel & _ & _ & _ & Hdenied).
  - intros stream. discriminate.
  - exists panel. split; [exact Hpanel |]. apply Hdenied.
    vm_compute in Hc. injection Hc as <-. reflexivity.
Defined.

Lemma capturePhoto_encoder_fails :
  let s' := capturePhoto TorchBuild feb1 false portraitPage in
  vars s' = vars portraitPage /\
  previewOverlay_hidden (dom s') = true /\
  cameraOverlay (dom s') = None.
Proof.
  intros s'.
  destruct (capturePhoto_jpeg_or_silent
              TorchBuild feb1 false portraitPage) as (_ & Hsilent & _).
  destruct Hsilent as (Hv & _ & _ & Hp & Ho).
  - right. reflexivity.
  - split; [exact Hv |]. split; [exact Hp | exact Ho].
Defined.

Lemma loadSettings_not_json :
  let s := loadedPage 1920 1080 390 844 (storageHolding "not json") in
  timestampEnabled (vars (loadSettings s)) = true /\
  timestampMode (vars (loadSettings s)) = "current" /\
  customDateTime (vars (loadSettings s)) = JString "".
Proof.
  intros s.
  destruct (loadSettings_tolerates_bad_storage s)
    as (_ & He & Hm & Hc & _ & _ & _).
  split; [| split].
  - apply He. intros b. vm_compute. discriminate.
  - apply Hm; vm_compute; discriminate.
  - apply Hc. vm_compute. reflexivity.
Defined.

(** A stored [customDateTime] that is no date, or no string at all, is
    taken over all the same. *)
Lemma loadSettings_adopts_invalid_customDateTime :
  let s1 := loadedPage 1920 1080 390 844 (storageHolding notADateRecord) in
  let s2 := loadedPage 1920 1080 390 844 (storageHolding wrongTypedRecord) in
  JSON.parse notADateRecord = inl (JObject [("customDateTime", JString "garbage")]) /\
  customDateTime (vars s1) = JString "" /\
  customDateTime (vars (loadSettings s1)) = JString "garbage" /\
  Date_new (JString "garbage") = None /\
  JSON.parse wrongTypedRecord = inl (JObject [("customDateTime", JBool true)]) /\
  customDateTime (vars s2) = JString "" /\
  customDateTime (vars (loadSettings s2)) = JBool true.
Proof. vm_compute. repeat split. Qed.

Lemma sharePhoto_dismissed :
  let s := capturePhoto TorchBuild feb1 true portraitPage in
  sharePhoto (ShareRejected AbortError) s = s.
Proof.
  intros s.
  destruct (sharePhoto_failure_keeps_state AbortError s) as [Habort _].
  apply Habort. reflexivity.
Defined.

Lemma getTimestampText_custom_mode_empty_picker :
  getTimestampText LiveOverlayBuild feb1
    (set_timestampMode "custom" portraitPage) = "2024-02-01 00:00:00".
Proof.
  destruct (getTimestampText_custom_falls_back_to_now
              LiveOverlayBuild feb1 (set_timestampMode "custom" portraitPage))
    as [Hempty _].
  - reflexivity.
  - reflexivity.
  - destruct Hempty as [Hnow _]; [reflexivity |]. rewrite Hnow. reflexivity.
Defined.

(** ** Further examples *)


Lemma capturePhoto_portrait_stamp :
  exists st x y,
    In (FillText st (getTimestampText TorchBuild feb1 portraitPage) x y)
       (bitmap (captureCanvas (dom (capturePhoto TorchBuild feb1 true portraitPage)))) /\
    ctm st = identityMatrix.
Proof.
  destruct (capturePhoto_stamps_unmirrored_bottom_right TorchBuild feb1 true portraitPage)
    as (frame & st & size & Hbm & Hctm & _).
  - reflexivity.
  - vm_compute. discriminate.
  - exists st. do 2 eexists. rewrite Hbm. split; [right; left; reflexivity | exact Hctm].
Defined.

Lemma getTimestampText_garbage_custom_time :
  getTimestampText TorchBuild feb1 garbagePage = "".
Proof.
  destruct (custom_time_invalid_or_ignored TorchBuild feb1 true garbagePage)
    as [Hinvalid _].
  - reflexivity.
  - reflexivity.
  - destruct Hinvalid as [Htext _]; [reflexivity | reflexivity | reflexivity |].
    exact Htext.
Defined.

Lemma capturePhoto_after_an_earlier_capture :
  let earlier := captureCanvas (dom (capturePhoto TorchBuild jan2 true portraitPage)) in
  capturedBlob (vars (capturePhoto TorchBuild feb1 true
                        (set_captureCanvas earlier portraitPage)))
  = capturedBlob (vars (capturePhoto TorchBuild feb1 true portraitPage)).
Proof.
  intros earlier.
  destruct (capturePhoto_forgets_earlier_canvas TorchBuild feb1 earlier portraitPage)
    as [Hblob _].
  - reflexivity.
  - exact Hblob.
Defined.



Lemma startedPage_reachable b : reachable b (startedPage b).
Proof. apply reach_init. repeat split. Qed.

Lemma photoPage_previewed :
  match capturedBlob (vars (app (photoPage TorchBuild))) with
  | Some blob =>
      previewOverlay_hidden (dom (app (photoPage TorchBuild))) = false /\
      objectURLs (host (app (photoPage TorchBuild)))
        !! previewImg_src (dom (app (photoPage TorchBuild))) = Some blob
  | None => False
  end.
Proof.
  destruct (capturedBlob (vars (app (photoPage TorchBuild)))) as [blob |] eqn:Hcb.
  - apply (held_photo_is_the_one_previewed TorchBuild (photoPage TorchBuild) blob).
    + apply reach_step, startedPage_reachable.
    + exact Hcb.
  - vm_compute in Hcb. discriminate.
Defined.

Lemma startedPage_capture_then_close :
  objectURLs (host (app (run TorchBuild [CaptureClick feb1 true; PreviewCloseClick]
                           (startedPage TorchBuild))))
  = objectURLs (host (app (startedPage TorchBuild))).
Proof.
  destruct (capture_then_close_releases_url TorchBuild feb1 (startedPage TorchBuild))
    as [Hurls _].
  - apply startedPage_reachable.
  - reflexivity.
  - exact Hurls.
Defined.

Lemma photoPage_download :
  let p1 := handle TorchBuild (DownloadClick feb1) (photoPage TorchBuild) in
  let p2 := run TorchBuild (repeat TimeoutFires (length (revokeTimeouts p1))) p1 in
  capturedBlob (vars (app (photoPage TorchBuild))) <> None /\
  revokeTimeouts p2 = [] /\
  objectURLs (host (app p2))
    !! blobURL (objectURL_count (host (app (photoPage TorchBuild)))) = None /\
  previewOverlay_hidden (dom (app p2)) = false.
Proof.
  intros p1 p2.
  destruct (capturedBlob (vars (app (photoPage TorchBuild)))) as [blob |] eqn:Hcb.
  - destruct (download_saves_photo_and_revokes_url TorchBuild feb1
                (photoPage TorchBuild) blob)
      as (_ & _ & Hnil & Hgone & _ & Hshown & _).
    + apply reach_step, startedPage_reachable.
    + exact Hcb.
    + split; [discriminate |]. split; [exact Hnil |]. split; [exact Hgone | exact Hshown].
  - vm_compute in Hcb. discriminate.
Defined.


Lemma overlay_hidden_after_switching_off :
  let p := handle LiveOverlayBuild (ToggleChange false feb1) (startedPage LiveOverlayBuild) in
  timestampOverlay (dom (app p)) = {| textContent := ""; style_display := "none" |}.
Proof.
  intros p. destruct (overlay_follows_settings p) as (_ & Hoff & _).
  - apply reach_step, startedPage_reachable.
  - apply Hoff. reflexivity.
Defined.

Lemma app_js_served_offline :
  ServiceWorker.onfetch offline
    (ServiceWorker.activate
       (fst (ServiceWorker.install sampleResolve online olderCaches)))
    (ServiceWorker.GET "https://camera.example/app.js")
  = Some {| ServiceWorker.status := 200;
            ServiceWorker.body := "https://camera.example/app.js" |}.
Proof.
  destruct (ServiceWorkerFacts.installed_assets_served_from_cache sampleResolve
              online offline olderCaches "app.js") as (r & Hnet & Hserved).
  - vm_compute. reflexivity.
  - cbn. tauto.
  - injection Hnet as <-. exact Hserved.
Defined.

Lemma post_goes_to_network :
  ServiceWorker.onfetch online olderCaches
    {| ServiceWorker.method := "POST"; ServiceWorker.url := "https://camera.example/app.js" |}
  = Some {| ServiceWorker.status := 200;
            ServiceWorker.body := "https://camera.example/app.js" |}.
Proof.
  rewrite (ServiceWorkerFacts.uncached_requests_go_to_network online olderCaches).
  - reflexivity.
  - left. cbn. discriminate.
Defined.

Lemma toggle_off_survives_reload :
  let p1 := handle TorchBuild (ToggleChange false feb1) (freshPage portraitPage) in
  let s2 := app (initPage TorchBuild feb1 feb1 MediaUnsupported (laterPage p1)) in
  timestampEnabled (vars s2) = false /\ timestampToggle_checked (dom s2) = false.
Proof.
  intros p1 s2.
  apply (settings_survive_reload TorchBuild (ToggleChange false feb1)
           (freshPage portraitPage) (laterPage p1) feb1 feb1 MediaUnsupported).
  - reflexivity.
  - reflexivity.
  - vm_compute. discriminate.
  - vm_compute. reflexivity.
  - reflexivity.
Defined.

Lemma first_run_on_empty_storage :
  let s := app (initPage TorchBuild feb1 feb1 (MediaGranted torchCamera)
                  (freshPage portraitPage)) in
  getTimestampText TorchBuild feb1 s = "01/02/2024 00:00" /\
  customTimeInput_value (dom s) = "2024-02-01T00:00".
Proof.
  intros s.
  destruct (first_run_stamps_current_time TorchBuild feb1 feb1 (MediaGranted torchCamera)
              (freshPage portraitPage) feb1) as (_ & Hpicker & Htext).
  - repeat split.
  - reflexivity.
  - fold s in Hpicker, Htext. rewrite Htext, Hpicker. split; vm_compute; reflexivity.
Defined.
